(** * ENUM management of PyHSS ([lib/enum_management.py])

    A shallow embedding of the [ENUMClient] class: the MSISDN normaliser,
    the ENUM name and NAPTR codec, the PowerDNS transport, the create,
    delete and update operations and the reconciliation sweep, followed by
    the properties of the specification that are checked against them.

    Conventions of the model.
    - A Python [str] is a [string]; one [ascii] stands for one code point
      below 256.  [isdigit] and [isspace] are Python's [str.isdigit] and the
      white space of [str.strip] on that range.
    - A Python [int] is a [Z].
    - A Python [set] of strings is a [gset string]; iterating over it is
      [elements].
    - A [dict] whose keys are fixed is a record; one that is filled while
      running is an association list kept in insertion order.
    - The outside world (the PowerDNS servers and the subscriber database) is
      a state of an arbitrary type [World] with two oracles; every call to
      them, and every message handed to the log tool, is recorded as an
      [Event].
    - An exception is an outcome of a computation; [try ... except] turns it
      into a value.  A dictionary that a loop changes in place is threaded
      through the loop, also when the loop is left by an exception that is
      caught further out.
    - The [while True] of the sweep takes fuel, one unit for each iteration,
      and answers [None] when it runs out; 10,001 units always suffice. *)

From Stdlib Require Import ZArith Ascii String List DecimalString.
From stdpp Require Import base tactics option list strings gmap sets.

Local Open Scope Z_scope.

(* ===================================================================== *)
(** * Strings as Python uses them                                         *)
(* ===================================================================== *)

Module PyStr.

(** [str.isdigit] on code points below 256: the decimal digits and the
    superscript digits U+00B2, U+00B3 and U+00B9. *)
Definition isdigit (c : ascii) : bool :=
  let n := N_of_ascii c in
  ((48 <=? n) && (n <=? 57) || (n =? 178) || (n =? 179) || (n =? 185))%N.

(** The white space removed by [str.strip()] on code points below 256. *)
Definition isspace (c : ascii) : bool :=
  let n := N_of_ascii c in
  ((9 <=? n) && (n <=? 13) || (28 <=? n) && (n <=? 32)
   || (n =? 133) || (n =? 160))%N.

(** [''.join(filter(p, s))] *)
Fixpoint filter (p : ascii → bool) (s : string) : string :=
  match s with
  | EmptyString => EmptyString
  | String c rest => if p c then String c (filter p rest) else filter p rest
  end.

Fixpoint all (p : ascii → bool) (s : string) : bool :=
  match s with
  | EmptyString => true
  | String c rest => p c && all p rest
  end.

(** The characters of a string, each as a string of length one: what
    iterating over a [str] yields. *)
Fixpoint chars (s : string) : list string :=
  match s with
  | EmptyString => []
  | String c rest => String c EmptyString :: chars rest
  end.

(** [sep.join(items)] *)
Fixpoint join (sep : string) (items : list string) : string :=
  match items with
  | [] => ""
  | x :: rest =>
      match rest with
      | [] => x
      | _ :: _ => x +:+ sep +:+ join sep rest
      end
  end.

(** [s.split(sep)] for a separator of one character. *)
Fixpoint split (sep : ascii) (s : string) : list string :=
  match s with
  | EmptyString => [""]
  | String c rest =>
      if Ascii.eqb c sep then "" :: split sep rest
      else match split sep rest with
           | [] => [String c ""]
           | x :: xs => String c x :: xs
           end
  end.

Fixpoint lstrip (s : string) : string :=
  match s with
  | EmptyString => ""
  | String c rest => if isspace c then lstrip rest else s
  end.

Fixpoint rstrip (s : string) : string :=
  match s with
  | EmptyString => ""
  | String c rest =>
      match rstrip rest with
      | EmptyString => if isspace c then "" else String c ""
      | r => String c r
      end
  end.

(** [s.strip()] *)
Definition strip (s : string) : string := rstrip (lstrip s).

(** Truth value of a string: [if s:] *)
Definition truthy (s : string) : bool :=
  match s with EmptyString => false | String _ _ => true end.

(** [str(n)] for an [int]. *)
Definition of_int (n : Z) : string := NilZero.string_of_int (Z.to_int n).

(** [x in l] for a list of strings. *)
Definition mem (x : string) (l : list string) : bool :=
  bool_decide (x ∈ l).

(** The double quote, which a literal cannot hold. *)
Definition dquote : string := String (ascii_of_nat 34) "".

(** [repr(s)] for a string without quotes or escapes: ['s']. *)
Definition repr (s : string) : string := "'" +:+ s +:+ "'".

(** [str(l)] for a list of such strings: [['a', 'b']]. *)
Definition repr_list (l : list string) : string :=
  "[" +:+ join ", " (map repr l) +:+ "]".

(** [str(s)] for a set of such strings: [set()] or [{'a', 'b'}]. *)
Definition repr_set (s : gset string) : string :=
  match elements s with
  | [] => "set()"
  | l => "{" +:+ join ", " (map repr l) +:+ "}"
  end.

End PyStr.

(* ===================================================================== *)
(** * The codec and the normaliser                                        *)
(* ===================================================================== *)

(** [ENUMClient.msisdn_to_enum_name] *)
Definition msisdn_to_enum_name (msisdn domain : string) : string :=
  let clean_msisdn := PyStr.filter PyStr.isdigit msisdn in
  let reversed_digits := PyStr.join "." (rev (PyStr.chars clean_msisdn)) in
  reversed_digits +:+ "." +:+ domain.

(** The wording of the specification for the same name: the digits of [d]
    in reverse order, separated by dots. *)
Fixpoint dotted_reverse (d : string) : string :=
  match d with
  | EmptyString => ""
  | String c rest =>
      match rest with
      | EmptyString => String c ""
      | String _ _ => dotted_reverse rest +:+ "." +:+ String c ""
      end
  end.

(** [ENUMClient._parse_msisdn_list]: [None] is Python's [None]. *)
Definition parse_entry (all_msisdns : list string) (m : string) : list string :=
  let clean := PyStr.filter PyStr.isdigit (PyStr.strip m) in
  if PyStr.truthy clean && negb (PyStr.mem clean all_msisdns)
  then all_msisdns ++ [clean]
  else all_msisdns.

Definition _parse_msisdn_list (msisdn msisdn_list : option string) : list string :=
  let all_msisdns := [] in
  let all_msisdns :=
    match msisdn with
    | Some m =>
        if PyStr.truthy m then
          let clean := PyStr.filter PyStr.isdigit m in
          if PyStr.truthy clean then all_msisdns ++ [clean] else all_msisdns
        else all_msisdns
    | None => all_msisdns
    end in
  match msisdn_list with
  | Some l =>
      if PyStr.truthy l
      then fold_left parse_entry (PyStr.split "," l) all_msisdns
      else all_msisdns
  | None => all_msisdns
  end.

(* ===================================================================== *)
(** * Data model                                                          *)
(* ===================================================================== *)

(** The values of the ['status'] key. *)
Inductive Status := Disabled | NoMsisdns | Ok | Partial | Error.

Definition status_str (s : Status) : string :=
  match s with
  | Disabled => "disabled"
  | NoMsisdns => "no_msisdns"
  | Ok => "ok"
  | Partial => "partial"
  | Error => "error"
  end.

(** One entry of [config['enum']['endpoints']]; [None] is a missing key. *)
Record Endpoint := {
  ep_name : option string;
  ep_url : option string;
  ep_api_key : option string;
  ep_sip_domain : option string;
  ep_domains : option (list string)
}.

(** The attributes [ENUMClient.__init__] sets; [log_tool] tells whether a
    log tool was given. *)
Record ENUMClient := {
  enabled : bool;
  strict_mode : bool;
  naptr_order : Z;
  naptr_preference : Z;
  naptr_ttl : Z;
  endpoints : list Endpoint;
  log_tool : bool
}.

Inductive ChangeType := REPLACE | DELETE.

Record NaptrRecord := { content : string; disabled : bool }.

(** One element of the [rrsets] list; DELETE entries have no ['ttl']. *)
Record RRSet := {
  rr_name : string;
  rr_type : string;
  rr_ttl : option Z;
  rr_changetype : ChangeType;
  rr_records : list NaptrRecord
}.

(** The arguments of [requests.patch]. *)
Record HttpRequest := {
  req_url : string;
  req_headers : list (string * string);
  req_rrsets : list RRSet;
  req_timeout : Z
}.

(** What [requests.patch] does: it answers, or raises a
    [RequestException]. *)
Inductive HttpOutcome :=
| Response (status_code : Z) (text : string)
| RequestException (msg : string).

(** One row of the subscriber table, as [sub.get] reads it. *)
Record Subscriber := {
  sub_msisdn : option string;
  sub_msisdn_list : option string;
  sub_ims_subscriber_id : option Z
}.

(** What [database_client.getAllPaginated] does: it returns a page ([None]
    behaves as the empty page), or raises. *)
Inductive DbOutcome :=
| DbPage (subscribers : list Subscriber)
| DbError (msg : string).

Inductive Event :=
| EvLog (level message : string)
| EvPatch (req : HttpRequest) (out : HttpOutcome)
| EvGetAllPaginated (page page_size : Z) (out : DbOutcome).

(** The exceptions that occur: the module's own, the [KeyError] of
    [endpoint['url']] and [endpoint['api_key']], and any other. *)
Inductive Exn :=
| ENUMManagementError (msg : string)
| KeyError (key : string)
| OtherException (msg : string).

(** [str(e)] *)
Definition exn_str (e : Exn) : string :=
  match e with
  | ENUMManagementError msg => msg
  | KeyError key => PyStr.repr key
  | OtherException msg => msg
  end.

(** [str(x)] for a string or [None], as an f-string prints it. *)
Definition str_opt (x : option string) : string :=
  match x with Some s => s | None => "None" end.

Definition int_opt_str (x : option Z) : string :=
  match x with Some n => PyStr.of_int n | None => "None" end.

(** ** Dictionaries filled while running *)

(** [d[k] = v]: an existing key keeps its place. *)
Fixpoint dict_set {V} (k : string) (v : V) (d : list (string * V)) : list (string * V) :=
  match d with
  | [] => [(k, v)]
  | (k', v') :: rest =>
      if String.eqb k k' then (k, v) :: rest else (k', v') :: dict_set k v rest
  end.

Fixpoint dict_get {V} (k : string) (d : list (string * V)) : option V :=
  match d with
  | [] => None
  | (k', v') :: rest => if String.eqb k k' then Some v' else dict_get k rest
  end.

(** ** Results *)

(** [{'success': ..., 'msisdns': ...}] *)
Record DomainResult := { dr_success : bool; dr_msisdns : list string }.

(** [{'status': ..., 'endpoints': {name: {'domains': {domain: ...}}},
    'errors': [...]}] *)
Record SyncTree := {
  st_status : Status;
  st_endpoints : list (string * list (string * DomainResult));
  st_errors : list string
}.

(** What create and delete return: [{'status': s}] alone, or the tree. *)
Inductive SyncResult :=
| SyncStatus (s : Status)
| SyncFull (t : SyncTree).

(** [result.get('status')] and [result.get('errors')] *)
Definition sync_status (r : SyncResult) : Status :=
  match r with SyncStatus s => s | SyncFull t => st_status t end.

Definition sync_errors (r : SyncResult) : option (list string) :=
  match r with SyncStatus _ => None | SyncFull t => Some (st_errors t) end.

Record UpdateTree := {
  up_status : Status;
  up_deleted : list string;
  up_created : list string;
  up_errors : list string
}.

Inductive UpdateResult :=
| UpdateStatus (s : Status)
| UpdateFull (t : UpdateTree).

(** One element of [results['subscribers']]; the keys ['errors'] and
    ['error'] are present in the partial and the error record only. *)
Record SubscriberOutcome := {
  so_ims_subscriber_id : option Z;
  so_msisdn : option string;
  so_status : Status;
  so_errors : option (list string);
  so_error : option string
}.

Record ReconcileTree := {
  rc_status : Status;
  rc_processed : Z;
  rc_succeeded : Z;
  rc_failed : Z;
  rc_errors : list string;
  rc_subscribers : list SubscriberOutcome
}.

Inductive ReconcileResult :=
| ReconcileStatus (s : Status)
| ReconcileFull (t : ReconcileTree).

(** ** Assignments to the keys of a result *)

Definition st_set_status (s : Status) (t : SyncTree) : SyncTree :=
  {| st_status := s; st_endpoints := st_endpoints t; st_errors := st_errors t |}.

Definition st_append_error (e : string) (t : SyncTree) : SyncTree :=
  {| st_status := st_status t; st_endpoints := st_endpoints t;
     st_errors := st_errors t ++ [e] |}.

(** [results['endpoints'][endpoint_name] = {'domains': {}}] *)
Definition st_open_endpoint (endpoint_name : string) (t : SyncTree) : SyncTree :=
  {| st_status := st_status t;
     st_endpoints := dict_set endpoint_name [] (st_endpoints t);
     st_errors := st_errors t |}.

(** [results['endpoints'][endpoint_name]['domains'][domain] = r] *)
Definition st_set_domain (endpoint_name domain : string) (r : DomainResult)
    (t : SyncTree) : SyncTree :=
  let domains := default [] (dict_get endpoint_name (st_endpoints t)) in
  {| st_status := st_status t;
     st_endpoints := dict_set endpoint_name (dict_set domain r domains) (st_endpoints t);
     st_errors := st_errors t |}.

Definition up_set_status (s : Status) (t : UpdateTree) : UpdateTree :=
  {| up_status := s; up_deleted := up_deleted t; up_created := up_created t;
     up_errors := up_errors t |}.

Definition up_set_deleted (l : list string) (t : UpdateTree) : UpdateTree :=
  {| up_status := up_status t; up_deleted := l; up_created := up_created t;
     up_errors := up_errors t |}.

Definition up_set_created (l : list string) (t : UpdateTree) : UpdateTree :=
  {| up_status := up_status t; up_deleted := up_deleted t; up_created := l;
     up_errors := up_errors t |}.

Definition up_extend_errors (l : list string) (t : UpdateTree) : UpdateTree :=
  {| up_status := up_status t; up_deleted := up_deleted t;
     up_created := up_created t; up_errors := up_errors t ++ l |}.

Definition rc_set_status (s : Status) (t : ReconcileTree) : ReconcileTree :=
  {| rc_status := s; rc_processed := rc_processed t; rc_succeeded := rc_succeeded t;
     rc_failed := rc_failed t; rc_errors := rc_errors t;
     rc_subscribers := rc_subscribers t |}.

Definition rc_incr_processed (t : ReconcileTree) : ReconcileTree :=
  {| rc_status := rc_status t; rc_processed := rc_processed t + 1;
     rc_succeeded := rc_succeeded t; rc_failed := rc_failed t;
     rc_errors := rc_errors t; rc_subscribers := rc_subscribers t |}.

(** [results['succeeded'] += 1; results['subscribers'].append(o)] *)
Definition rc_record_succeeded (o : SubscriberOutcome) (t : ReconcileTree) : ReconcileTree :=
  {| rc_status := rc_status t; rc_processed := rc_processed t;
     rc_succeeded := rc_succeeded t + 1; rc_failed := rc_failed t;
     rc_errors := rc_errors t; rc_subscribers := rc_subscribers t ++ [o] |}.

(** [results['failed'] += 1; results['subscribers'].append(o)] *)
Definition rc_record_failed (o : SubscriberOutcome) (t : ReconcileTree) : ReconcileTree :=
  {| rc_status := rc_status t; rc_processed := rc_processed t;
     rc_succeeded := rc_succeeded t; rc_failed := rc_failed t + 1;
     rc_errors := rc_errors t; rc_subscribers := rc_subscribers t ++ [o] |}.

Definition rc_append_error (e : string) (t : ReconcileTree) : ReconcileTree :=
  {| rc_status := rc_status t; rc_processed := rc_processed t;
     rc_succeeded := rc_succeeded t; rc_failed := rc_failed t;
     rc_errors := rc_errors t ++ [e]; rc_subscribers := rc_subscribers t |}.

(* ===================================================================== *)
(** * Computations                                                        *)
(* ===================================================================== *)

(** A computation ends by returning a value or by raising. *)
Inductive Outcome (A : Type) :=
| Return (a : A)
| Raise (e : Exn).
Arguments Return {A} a.
Arguments Raise {A} e.

(** A computation reads and changes the world and emits events, oldest
    first. *)
Definition M (World A : Type) : Type := World → Outcome A * World * list Event.

Definition ret {World A} (a : A) : M World A := λ w, (Return a, w, []).

Definition raise {World A} (e : Exn) : M World A := λ w, (Raise e, w, []).

Definition bind {World A B} (m : M World A) (k : A → M World B) : M World B :=
  λ w,
    match m w with
    | (Return a, w1, evs1) =>
        match k a w1 with
        | (o, w2, evs2) => (o, w2, evs1 ++ evs2)
        end
    | (Raise e, w1, evs1) => (Raise e, w1, evs1)
    end.

#[global] Instance M_ret {World} : MRet (M World) := @ret World.
#[global] Instance M_bind {World} : MBind (M World) := λ A B k m, bind m k.

(** [try: m except Exception as e: ...], with the handler left to the
    caller: the exception becomes a value. *)
Definition try_ {World A} (m : M World A) : M World (A + Exn) :=
  λ w,
    match m w with
    | (Return a, w1, evs) => (Return (inl a), w1, evs)
    | (Raise e, w1, evs) => (Return (inr e), w1, evs)
    end.

Definition emit {World} (ev : Event) : M World unit := λ w, (Return tt, w, [ev]).

(** A [for] loop that threads the value it updates. *)
Fixpoint foldM {World A B} (f : B → A → M World B) (b : B) (l : list A) : M World B :=
  match l with
  | [] => ret b
  | x :: rest => b' ← f b x; foldM f b' rest
  end.

(** The three parts of a run. *)
Definition outcome {World A} (r : Outcome A * World * list Event) : Outcome A := r.1.1.
Definition world_after {World A} (r : Outcome A * World * list Event) : World := r.1.2.
Definition events {World A} (r : Outcome A * World * list Event) : list Event := r.2.

(** ** Projections of the events *)

Definition patch_of (ev : Event) : option (HttpRequest * HttpOutcome) :=
  match ev with EvPatch req out => Some (req, out) | _ => None end.

Definition page_request_of (ev : Event) : option (Z * Z) :=
  match ev with EvGetAllPaginated page size _ => Some (page, size) | _ => None end.

Definition log_of (ev : Event) : option (string * string) :=
  match ev with EvLog level message => Some (level, message) | _ => None end.

(** The transport attempts, the page requests and the log lines of a run. *)
Definition patches (evs : list Event) : list (HttpRequest * HttpOutcome) :=
  omap patch_of evs.

Definition page_requests (evs : list Event) : list (Z * Z) :=
  omap page_request_of evs.

Definition logs (evs : list Event) : list (string * string) :=
  omap log_of evs.

(** [response.status_code in (200, 204)] *)
Definition accepted (status_code : Z) : bool :=
  (status_code =? 200) || (status_code =? 204).

(** The error message [_make_pdns_request] builds for an attempt, [None]
    when the attempt succeeded. *)
Definition failure_detail (out : HttpOutcome) : option string :=
  match out with
  | Response status_code text =>
      if accepted status_code then None
      else Some ("PowerDNS API error: " +:+ PyStr.of_int status_code +:+ " - " +:+ text)
  | RequestException msg => Some ("PowerDNS request failed: " +:+ msg)
  end.

(* ===================================================================== *)
(** * The client                                                          *)
(* ===================================================================== *)

Section Engine.

Context {World : Type}.

(** [requests.patch(url, json=payload, headers=headers, timeout=10)] *)
Variable http_patch : HttpRequest → World → HttpOutcome * World.

(** [database_client.getAllPaginated(IMS_SUBSCRIBER, page, page_size)] *)
Variable getAllPaginated : Z → Z → World → DbOutcome * World.

Variable self : ENUMClient.

(** [ENUMClient._log] *)
Definition _log (level message : string) : M World unit :=
  if log_tool self then emit (EvLog level message) else ret tt.

(** [ENUMClient.generate_naptr_content] *)
Definition generate_naptr_content (msisdn sip_domain : string) : string :=
  let clean_msisdn := PyStr.filter PyStr.isdigit msisdn in
  PyStr.of_int (naptr_order self) +:+ " " +:+ PyStr.of_int (naptr_preference self)
    +:+ " " +:+ PyStr.dquote +:+ "u" +:+ PyStr.dquote
    +:+ " " +:+ PyStr.dquote +:+ "E2U+sip" +:+ PyStr.dquote
    +:+ " " +:+ PyStr.dquote +:+ "!^.*$!sip:" +:+ clean_msisdn +:+ "@" +:+ sip_domain
    +:+ "!" +:+ PyStr.dquote +:+ " .".

Definition requests_patch (req : HttpRequest) : M World HttpOutcome :=
  λ w, let '(out, w1) := http_patch req w in (Return out, w1, [EvPatch req out]).

(** [d[key]] on an endpoint *)
Definition subscript (key : string) (v : option string) : M World string :=
  match v with
  | Some s => ret s
  | None => raise (KeyError key)
  end.

(** [ENUMClient._make_pdns_request] *)
Definition _make_pdns_request (endpoint : Endpoint) (zone : string)
    (rrsets : list RRSet) : M World (bool * option string) :=
  base ← subscript "url" (ep_url endpoint);
  let url := base +:+ "/api/v1/servers/localhost/zones/" +:+ zone in
  api_key ← subscript "api_key" (ep_api_key endpoint);
  let headers := [("X-API-Key", api_key); ("Content-Type", "application/json")] in
  response ← requests_patch
    {| req_url := url; req_headers := headers; req_rrsets := rrsets;
       req_timeout := 10 |};
  match response with
  | Response status_code text =>
      if accepted status_code then mret (true, None)
      else
        let error_msg :=
          "PowerDNS API error: " +:+ PyStr.of_int status_code +:+ " - " +:+ text in
        mret (false, Some error_msg)
  | RequestException e => mret (false, Some ("PowerDNS request failed: " +:+ e))
  end.

(** [endpoint.get('name', endpoint.get('url', 'unknown'))] *)
Definition endpoint_name_of (endpoint : Endpoint) : string :=
  default (default "unknown" (ep_url endpoint)) (ep_name endpoint).

(** The record set create builds for one MSISDN. *)
Definition create_rrset (sip_domain domain m : string) : RRSet :=
  let enum_name := msisdn_to_enum_name m domain in
  let naptr_content := generate_naptr_content m sip_domain in
  {| rr_name := enum_name +:+ ".";
     rr_type := "NAPTR";
     rr_ttl := Some (naptr_ttl self);
     rr_changetype := REPLACE;
     rr_records := [{| content := naptr_content; disabled := false |}] |}.

(** The body of [for domain in endpoint.get('domains', [])] in create. *)
Definition create_domain (endpoint : Endpoint) (endpoint_name sip_domain : string)
    (all_msisdns : list string) (results : SyncTree) (domain : string)
    : M World SyncTree :=
  let rrsets := map (create_rrset sip_domain domain) all_msisdns in
  '(success, error) ← _make_pdns_request endpoint domain rrsets;
  let results :=
    st_set_domain endpoint_name domain
      {| dr_success := success; dr_msisdns := all_msisdns |} results in
  if negb success then
    let error_detail := endpoint_name +:+ "/" +:+ domain +:+ ": " +:+ str_opt error in
    let results := st_append_error error_detail results in
    _log "error" ("ENUM create failed - " +:+ error_detail);;
    if strict_mode self then
      (* results['status'] = 'error' is lost with the local [results] *)
      raise (ENUMManagementError ("ENUM creation failed: " +:+ error_detail))
    else mret results
  else
    _log "info" ("ENUM entries created on " +:+ endpoint_name +:+ "/" +:+ domain);;
    mret results.

(** The body of [for endpoint in self.endpoints] in create. *)
Definition create_endpoint (all_msisdns : list string) (results : SyncTree)
    (endpoint : Endpoint) : M World SyncTree :=
  let endpoint_name := endpoint_name_of endpoint in
  let sip_domain := default "" (ep_sip_domain endpoint) in
  let results := st_open_endpoint endpoint_name results in
  foldM (create_domain endpoint endpoint_name sip_domain all_msisdns) results
    (default [] (ep_domains endpoint)).

(** [if results['errors']: results['status'] = 'partial'] *)
Definition st_finish (results : SyncTree) : SyncTree :=
  match st_errors results with
  | [] => results
  | _ :: _ => st_set_status Partial results
  end.

(** [ENUMClient.create_enum_entries] *)
Definition create_enum_entries (msisdn msisdn_list : option string)
    : M World SyncResult :=
  if negb (enabled self) then
    _log "debug" "ENUM management is disabled, skipping create";;
    mret (SyncStatus Disabled)
  else
    let all_msisdns := _parse_msisdn_list msisdn msisdn_list in
    match all_msisdns with
    | [] =>
        _log "debug" "No MSISDNs provided for ENUM creation";;
        mret (SyncStatus NoMsisdns)
    | _ :: _ =>
        _log "info" ("Creating ENUM entries for MSISDNs: " +:+ PyStr.repr_list all_msisdns);;
        let results := {| st_status := Ok; st_endpoints := []; st_errors := [] |} in
        results ← foldM (create_endpoint all_msisdns) results (endpoints self);
        mret (SyncFull (st_finish results))
    end.

(** The record set delete builds for one MSISDN. *)
Definition delete_rrset (domain m : string) : RRSet :=
  let enum_name := msisdn_to_enum_name m domain in
  {| rr_name := enum_name +:+ ".";
     rr_type := "NAPTR";
     rr_ttl := None;
     rr_changetype := DELETE;
     rr_records := [] |}.

(** The body of [for domain in endpoint.get('domains', [])] in delete. *)
Definition delete_domain (endpoint : Endpoint) (endpoint_name : string)
    (all_msisdns : list string) (results : SyncTree) (domain : string)
    : M World SyncTree :=
  let rrsets := map (delete_rrset domain) all_msisdns in
  '(success, error) ← _make_pdns_request endpoint domain rrsets;
  let results :=
    st_set_domain endpoint_name domain
      {| dr_success := success; dr_msisdns := all_msisdns |} results in
  if negb success then
    let error_detail := endpoint_name +:+ "/" +:+ domain +:+ ": " +:+ str_opt error in
    let results := st_append_error error_detail results in
    _log "error" ("ENUM delete failed - " +:+ error_detail);;
    if strict_mode self then
      (* results['status'] = 'error' is lost with the local [results] *)
      raise (ENUMManagementError ("ENUM deletion failed: " +:+ error_detail))
    else mret results
  else
    _log "info" ("ENUM entries deleted on " +:+ endpoint_name +:+ "/" +:+ domain);;
    mret results.

(** The body of [for endpoint in self.endpoints] in delete. *)
Definition delete_endpoint (all_msisdns : list string) (results : SyncTree)
    (endpoint : Endpoint) : M World SyncTree :=
  let endpoint_name := endpoint_name_of endpoint in
  let results := st_open_endpoint endpoint_name results in
  foldM (delete_domain endpoint endpoint_name all_msisdns) results
    (default [] (ep_domains endpoint)).

(** [ENUMClient.delete_enum_entries] *)
Definition delete_enum_entries (msisdn msisdn_list : option string)
    : M World SyncResult :=
  if negb (enabled self) then
    _log "debug" "ENUM management is disabled, skipping delete";;
    mret (SyncStatus Disabled)
  else
    let all_msisdns := _parse_msisdn_list msisdn msisdn_list in
    match all_msisdns with
    | [] =>
        _log "debug" "No MSISDNs provided for ENUM deletion";;
        mret (SyncStatus NoMsisdns)
    | _ :: _ =>
        _log "info" ("Deleting ENUM entries for MSISDNs: " +:+ PyStr.repr_list all_msisdns);;
        let results := {| st_status := Ok; st_endpoints := []; st_errors := [] |} in
        results ← foldM (delete_endpoint all_msisdns) results (endpoints self);
        mret (SyncFull (st_finish results))
    end.

(** [old_set - new_set], [if s:] and the two phases of update. *)
Definition set_truthy (s : gset string) : bool :=
  match elements s with [] => false | _ :: _ => true end.

(** [if result.get('errors'): results['errors'].extend(result['errors'])] *)
Definition merge_errors (r : SyncResult) (results : UpdateTree) : UpdateTree :=
  match sync_errors r with
  | Some (e :: errs) => up_extend_errors (e :: errs) results
  | _ => results
  end.

(** [except ENUMManagementError as e] of both phases; any other exception
    passes through. *)
Definition update_except (e : Exn) (results : UpdateTree) : M World UpdateTree :=
  match e with
  | ENUMManagementError _ =>
      let results := up_extend_errors [exn_str e] results in
      if strict_mode self then
        (* results['status'] = 'error' is lost with the local [results] *)
        raise e
      else mret results
  | _ => raise e
  end.

Definition update_delete_phase (to_delete : gset string) (results : UpdateTree)
    : M World UpdateTree :=
  if set_truthy to_delete then
    let delete_list := PyStr.join "," (elements to_delete) in
    r ← try_ (delete_enum_entries None (Some delete_list));
    match r with
    | inl delete_result =>
        let results := up_set_deleted (elements to_delete) results in
        mret (merge_errors delete_result results)
    | inr e => update_except e results
    end
  else mret results.

Definition update_create_phase (to_create : gset string) (results : UpdateTree)
    : M World UpdateTree :=
  if set_truthy to_create then
    let create_list := PyStr.join "," (elements to_create) in
    r ← try_ (create_enum_entries None (Some create_list));
    match r with
    | inl create_result =>
        let results := up_set_created (elements to_create) results in
        mret (merge_errors create_result results)
    | inr e => update_except e results
    end
  else mret results.

(** [set(self._parse_msisdn_list(msisdn, msisdn_list))] *)
Definition msisdn_set (msisdn msisdn_list : option string) : gset string :=
  list_to_set (_parse_msisdn_list msisdn msisdn_list).

(** [ENUMClient.update_enum_entries] *)
Definition update_enum_entries
    (old_msisdn old_msisdn_list new_msisdn new_msisdn_list : option string)
    : M World UpdateResult :=
  if negb (enabled self) then
    _log "debug" "ENUM management is disabled, skipping update";;
    mret (UpdateStatus Disabled)
  else
    let old_set := msisdn_set old_msisdn old_msisdn_list in
    let new_set := msisdn_set new_msisdn new_msisdn_list in
    let to_delete := old_set ∖ new_set in
    let to_create := new_set ∖ old_set in
    _log "info" ("ENUM update: delete " +:+ PyStr.repr_set to_delete
                 +:+ ", create " +:+ PyStr.repr_set to_create);;
    let results :=
      {| up_status := Ok; up_deleted := []; up_created := []; up_errors := [] |} in
    results ← update_delete_phase to_delete results;
    results ← update_create_phase to_create results;
    let results :=
      match up_errors results with
      | [] => results
      | _ :: _ => up_set_status Partial results
      end in
    mret (UpdateFull results).

(** ** Reconciliation *)

(** How a block of statements ends inside the [try] of [reconcile_all]:
    normally, or with an exception on its way to [except Exception].  The
    [results] dictionary is changed in place, so it is handed on in both
    cases. *)
Inductive Completion :=
| Normal
| Abrupt (e : Exn).

Definition db_getAllPaginated (page page_size : Z) : M World (list Subscriber) :=
  λ w,
    let '(out, w1) := getAllPaginated page page_size w in
    match out with
    | DbPage subscribers =>
        (Return subscribers, w1, [EvGetAllPaginated page page_size out])
    | DbError msg =>
        (Raise (OtherException msg), w1, [EvGetAllPaginated page page_size out])
    end.

(** [create_result.get('status') in ('ok', 'disabled', 'no_msisdns')] *)
Definition counts_as_succeeded (s : Status) : bool :=
  match s with
  | Ok | Disabled | NoMsisdns => true
  | Partial | Error => false
  end.

(** The body of [for sub in subscribers]. *)
Definition reconcile_subscriber (results : ReconcileTree) (sub : Subscriber)
    : M World (ReconcileTree * Completion) :=
  let results := rc_incr_processed results in
  let msisdn := sub_msisdn sub in
  let msisdn_list := sub_msisdn_list sub in
  let sub_id := sub_ims_subscriber_id sub in
  r ← try_ (create_enum_entries msisdn msisdn_list);
  match r with
  | inl create_result =>
      if counts_as_succeeded (sync_status create_result) then
        mret (rc_record_succeeded
                {| so_ims_subscriber_id := sub_id; so_msisdn := msisdn;
                   so_status := Ok; so_errors := None; so_error := None |}
                results, Normal)
      else
        mret (rc_record_failed
                {| so_ims_subscriber_id := sub_id; so_msisdn := msisdn;
                   so_status := Partial;
                   so_errors := Some (default [] (sync_errors create_result));
                   so_error := None |}
                results, Normal)
  | inr (ENUMManagementError msg) =>
      let results :=
        rc_append_error ("Subscriber " +:+ int_opt_str sub_id +:+ ": " +:+ msg)
          (rc_record_failed
             {| so_ims_subscriber_id := sub_id; so_msisdn := msisdn;
                so_status := Error; so_errors := None; so_error := Some msg |}
             results) in
      mret (results, Normal)
  | inr e => mret (results, Abrupt e)
  end.

(** [for sub in subscribers: ...] *)
Fixpoint reconcile_page (results : ReconcileTree) (subscribers : list Subscriber)
    : M World (ReconcileTree * Completion) :=
  match subscribers with
  | [] => mret (results, Normal)
  | sub :: rest =>
      '(results, c) ← reconcile_subscriber results sub;
      match c with
      | Normal => reconcile_page results rest
      | Abrupt e => mret (results, Abrupt e)
      end
  end.

Definition page_size : Z := 100.

(** [while True: ...], one iteration for each unit of [fuel]; [None]
    when the fuel runs out before the loop ends. *)
Fixpoint reconcile_pages (fuel : nat) (page : Z) (results : ReconcileTree)
    : M World (option (ReconcileTree * Completion)) :=
  match fuel with
  | O => mret None
  | S fuel =>
      r ← try_ (db_getAllPaginated page page_size);
      match r with
      | inr e => mret (Some (results, Abrupt e))
      | inl [] => mret (Some (results, Normal))
      | inl (sub :: rest) =>
          '(results, c) ← reconcile_page results (sub :: rest);
          match c with
          | Abrupt e => mret (Some (results, Abrupt e))
          | Normal =>
              let page := page + 1 in
              if page >? 10000 then
                _log "warning" "Reconciliation stopped at page 10000";;
                mret (Some (results, Normal))
              else reconcile_pages fuel page results
          end
      end
  end.

(** [except Exception as e] of the sweep. *)
Definition reconcile_except (c : Completion) (results : ReconcileTree)
    : M World ReconcileTree :=
  match c with
  | Normal => mret results
  | Abrupt e =>
      let results := rc_set_status Error results in
      let results :=
        rc_append_error ("Reconciliation failed: " +:+ exn_str e) results in
      _log "error" ("ENUM reconciliation failed: " +:+ exn_str e);;
      mret results
  end.

(** [ENUMClient.reconcile_all]; the import of [IMS_SUBSCRIBER] is taken to
    succeed.  [None] when the fuel runs out. *)
Definition reconcile_all (fuel : nat) : M World (option ReconcileResult) :=
  if negb (enabled self) then
    _log "info" "ENUM management is disabled, skipping reconciliation";;
    mret (Some (ReconcileStatus Disabled))
  else
    _log "info" "Starting ENUM reconciliation";;
    let results :=
      {| rc_status := Ok; rc_processed := 0; rc_succeeded := 0; rc_failed := 0;
         rc_errors := []; rc_subscribers := [] |} in
    let page := 0 in
    r ← reconcile_pages fuel page results;
    match r with
    | None => mret None
    | Some (results, c) =>
        results ← reconcile_except c results;
        let results :=
          if rc_failed results >? 0 then rc_set_status Partial results
          else results in
        _log "info" ("ENUM reconciliation complete: "
                     +:+ PyStr.of_int (rc_processed results) +:+ " processed, "
                     +:+ PyStr.of_int (rc_succeeded results) +:+ " succeeded, "
                     +:+ PyStr.of_int (rc_failed results) +:+ " failed");;
        mret (Some (ReconcileFull results))
    end.

End Engine.

(* ===================================================================== *)
(** * Notions used to state the properties                                *)
(* ===================================================================== *)

(** A parsed entry, as the loop of the parser keeps it: not empty, and made
    of characters that [str.isdigit] accepts.  The digits 0 to 9 of the
    specification are [decimal_digit]. *)
Definition clean_entry (m : string) : Prop :=
  m ≠ "" ∧ PyStr.all PyStr.isdigit m = true.

(** The list the primary number alone gives. *)
Definition primary_part (msisdn : option string) : list string :=
  match msisdn with
  | Some m =>
      if PyStr.truthy m then
        let clean := PyStr.filter PyStr.isdigit m in
        if PyStr.truthy clean then [clean] else []
      else []
  | None => []
  end.

Definition no_comma (s : string) : Prop :=
  PyStr.all (λ c, negb (Ascii.eqb c ",")) s = true.

(** The request [_make_pdns_request] sends for an endpoint and a zone;
    [None] when the endpoint has no ['url'] or no ['api_key']. *)
Definition request_for (endpoint : Endpoint) (zone : string) (rrsets : list RRSet)
    : option HttpRequest :=
  match ep_url endpoint, ep_api_key endpoint with
  | Some base, Some api_key =>
      Some {| req_url := base +:+ "/api/v1/servers/localhost/zones/" +:+ zone;
              req_headers := [("X-API-Key", api_key);
                              ("Content-Type", "application/json")];
              req_rrsets := rrsets;
              req_timeout := 10 |}
  | _, _ => None
  end.

(** The (endpoint, domain) pairs in configured order. *)
Definition sync_pairs (self : ENUMClient) : list (Endpoint * string) :=
  flat_map (λ ep, map (pair ep) (default [] (ep_domains ep))) (endpoints self).

(** An endpoint with the two keys the transport subscripts. *)
Definition well_formed (ep : Endpoint) : Prop :=
  is_Some (ep_url ep) ∧ is_Some (ep_api_key ep).

(** ** Create and delete as one loop

    The two operations differ in the record sets they build and in the
    wording of their messages only. *)

Definition kind_rrset (self : ENUMClient) (kind : ChangeType)
    (sip_domain domain m : string) : RRSet :=
  match kind with
  | REPLACE => create_rrset self sip_domain domain m
  | DELETE => delete_rrset domain m
  end.

Definition kind_failed_log (kind : ChangeType) : string :=
  match kind with
  | REPLACE => "ENUM create failed - "
  | DELETE => "ENUM delete failed - "
  end.

Definition kind_raise_prefix (kind : ChangeType) : string :=
  match kind with
  | REPLACE => "ENUM creation failed: "
  | DELETE => "ENUM deletion failed: "
  end.

Definition kind_ok_log (kind : ChangeType) : string :=
  match kind with
  | REPLACE => "ENUM entries created on "
  | DELETE => "ENUM entries deleted on "
  end.

Definition kind_skip_log (kind : ChangeType) : string :=
  match kind with
  | REPLACE => "ENUM management is disabled, skipping create"
  | DELETE => "ENUM management is disabled, skipping delete"
  end.

Definition kind_empty_log (kind : ChangeType) : string :=
  match kind with
  | REPLACE => "No MSISDNs provided for ENUM creation"
  | DELETE => "No MSISDNs provided for ENUM deletion"
  end.

Definition kind_start_log (kind : ChangeType) : string :=
  match kind with
  | REPLACE => "Creating ENUM entries for MSISDNs: "
  | DELETE => "Deleting ENUM entries for MSISDNs: "
  end.

Section Sync.

Context {World : Type}.
Variable http_patch : HttpRequest → World → HttpOutcome * World.
Variable self : ENUMClient.
Variable kind : ChangeType.

Definition sync_domain (endpoint : Endpoint) (endpoint_name sip_domain : string)
    (all_msisdns : list string) (results : SyncTree) (domain : string)
    : M World SyncTree :=
  let rrsets := map (kind_rrset self kind sip_domain domain) all_msisdns in
  '(success, error) ← _make_pdns_request http_patch endpoint domain rrsets;
  let results :=
    st_set_domain endpoint_name domain
      {| dr_success := success; dr_msisdns := all_msisdns |} results in
  if negb success then
    let error_detail := endpoint_name +:+ "/" +:+ domain +:+ ": " +:+ str_opt error in
    let results := st_append_error error_detail results in
    _log self "error" (kind_failed_log kind +:+ error_detail);;
    if strict_mode self then
      raise (ENUMManagementError (kind_raise_prefix kind +:+ error_detail))
    else mret results
  else
    _log self "info" (kind_ok_log kind +:+ endpoint_name +:+ "/" +:+ domain);;
    mret results.

Definition sync_endpoint (all_msisdns : list string) (results : SyncTree)
    (endpoint : Endpoint) : M World SyncTree :=
  let endpoint_name := endpoint_name_of endpoint in
  let sip_domain := default "" (ep_sip_domain endpoint) in
  let results := st_open_endpoint endpoint_name results in
  foldM (sync_domain endpoint endpoint_name sip_domain all_msisdns) results
    (default [] (ep_domains endpoint)).

Definition sync_enum_entries (msisdn msisdn_list : option string)
    : M World SyncResult :=
  if negb (enabled self) then
    _log self "debug" (kind_skip_log kind);;
    mret (SyncStatus Disabled)
  else
    let all_msisdns := _parse_msisdn_list msisdn msisdn_list in
    match all_msisdns with
    | [] =>
        _log self "debug" (kind_empty_log kind);;
        mret (SyncStatus NoMsisdns)
    | _ :: _ =>
        _log self "info" (kind_start_log kind +:+ PyStr.repr_list all_msisdns);;
        let results := {| st_status := Ok; st_endpoints := []; st_errors := [] |} in
        results ← foldM (sync_endpoint all_msisdns) results (endpoints self);
        mret (SyncFull (st_finish results))
    end.

(** The request of the attempt for a pair. *)
Definition pair_request (all_msisdns : list string) (p : Endpoint * string)
    : option HttpRequest :=
  request_for p.1 p.2
    (map (kind_rrset self kind (default "" (ep_sip_domain p.1)) p.2) all_msisdns).

(** The entry of the error list for an attempt, [None] for a success. *)
Definition error_entry (p : Endpoint * string) (a : HttpRequest * HttpOutcome)
    : option string :=
  detail ← failure_detail a.2;
  Some (endpoint_name_of p.1 +:+ "/" +:+ p.2 +:+ ": " +:+ detail).

Definition error_entries (ps : list (Endpoint * string))
    (attempts : list (HttpRequest * HttpOutcome)) : list string :=
  omap (λ pa, error_entry pa.1 pa.2) (zip ps attempts).

(** The attempts are those of the pairs [ps], in their order. *)
Definition attempts_of (all_msisdns : list string) (ps : list (Endpoint * string))
    (attempts : list (HttpRequest * HttpOutcome)) : Prop :=
  Forall2 (λ p a, pair_request all_msisdns p = Some a.1) ps attempts.

End Sync.

Section SyncInvariants.

Context {World : Type}.
Variable self : ENUMClient.
Variable kind : ChangeType.
Variable all_msisdns : list string.

(** No attempt failed. *)
Definition no_failure (attempts : list (HttpRequest * HttpOutcome)) : Prop :=
  Forall (λ a, failure_detail a.2 = None) attempts.

(** What holds of the result tree after the pairs [finished], when the
    loop started with the error list [errors0]. *)
Definition loop_inv (errors0 : list string) (results : SyncTree)
    (evs : list Event) (finished : list (Endpoint * string)) : Prop :=
  attempts_of self kind all_msisdns finished (patches evs)
  ∧ st_status results = Ok
  ∧ st_errors results = errors0 ++ error_entries finished (patches evs)
  ∧ (strict_mode self = true → no_failure (patches evs)).

(** What holds when the loop raised at the last of the pairs [reached]. *)
Definition raise_inv (ex : Exn) (evs : list Event)
    (reached : list (Endpoint * string)) : Prop :=
  match ex with
  | ENUMManagementError msg =>
      strict_mode self = true
      ∧ ∃ before p pre a detail,
          reached = before ++ [p]
          ∧ patches evs = pre ++ [a]
          ∧ attempts_of self kind all_msisdns before pre
          ∧ pair_request self kind all_msisdns p = Some a.1
          ∧ no_failure pre
          ∧ failure_detail a.2 = Some detail
          ∧ msg = kind_raise_prefix kind +:+ endpoint_name_of p.1 +:+ "/"
                    +:+ p.2 +:+ ": " +:+ detail
  | KeyError key =>
      ∃ before p,
        reached = before ++ [p]
        ∧ attempts_of self kind all_msisdns before (patches evs)
        ∧ pair_request self kind all_msisdns p = None
        ∧ (strict_mode self = true → no_failure (patches evs))
  | OtherException _ => False
  end.

End SyncInvariants.

(** ** Notions for update and reconciliation *)

(** The requests of the two phases of an update for a set of numbers. *)
Definition delete_request_for (self : ENUMClient) (s : gset string)
    (a : HttpRequest * HttpOutcome) : Prop :=
  ∃ p, p ∈ sync_pairs self
       ∧ request_for p.1 p.2 (map (delete_rrset p.2) (elements s)) = Some a.1.

Definition create_request_for (self : ENUMClient) (s : gset string)
    (a : HttpRequest * HttpOutcome) : Prop :=
  ∃ p, p ∈ sync_pairs self
       ∧ request_for p.1 p.2
           (map (create_rrset self (default "" (ep_sip_domain p.1)) p.2) (elements s))
         = Some a.1.

(** The number of failed attempts. *)
Definition count_failed (attempts : list (HttpRequest * HttpOutcome)) : Z :=
  Z.of_nat (length (filter (λ a, is_Some (failure_detail a.2)) attempts)).

(** Page [page] of a subscriber table, [size] rows a page. *)
Definition page_slice (subs : list Subscriber) (page size : Z) : list Subscriber :=
  take (Z.to_nat size) (drop (Z.to_nat (page * size)) subs).

(** The page ceiling of the sweep, and the rows it lets through. *)
Definition page_ceiling : Z := 10001.

(** What processing [n] subscribers does to the counters of the sweep;
    [evs] are the events of the processing. *)
Definition sweep_effect (self : ENUMClient) (results results' : ReconcileTree)
    (evs : list Event) (n : Z) : Prop :=
  rc_status results' = rc_status results
  ∧ rc_processed results' = rc_processed results + n
  ∧ rc_succeeded results' + rc_failed results'
    = rc_succeeded results + rc_failed results + n
  ∧ Z.of_nat (length (rc_subscribers results'))
    = Z.of_nat (length (rc_subscribers results)) + n
  ∧ rc_succeeded results ≤ rc_succeeded results'
  ∧ rc_failed results ≤ rc_failed results'
  ∧ rc_failed results' ≤ rc_failed results + count_failed (patches evs)
  ∧ (strict_mode self = true →
     rc_failed results' = rc_failed results + count_failed (patches evs)
     ∧ Z.of_nat (length (rc_errors results'))
       = Z.of_nat (length (rc_errors results)) + count_failed (patches evs)).

(** The source serves the table [subs] page by page, whatever the state of
    the world. *)
Definition serves {World : Type} (getAllPaginated : Z → Z → World → DbOutcome * World)
    (subs : list Subscriber) : Prop :=
  ∀ page w, 0 ≤ page →
    (getAllPaginated page page_size w).1 = DbPage (page_slice subs page page_size).

(** The rows the sweep processes from page [page] on, of a table of [n]
    rows: those that are left, up to the ceiling. *)
Definition rows_from (n page : Z) : Z :=
  Z.max 0 (Z.min (n - page * page_size) ((page_ceiling - page) * page_size)).

(** The source never returns an empty page and never fails. *)
Definition never_empty {World : Type}
    (getAllPaginated : Z → Z → World → DbOutcome * World) : Prop :=
  ∀ page w, ∃ sub rest,
    (getAllPaginated page page_size w).1 = DbPage (sub :: rest).

(** The counters at the start of a sweep. *)
Definition sweep_start : ReconcileTree :=
  {| rc_status := Ok; rc_processed := 0; rc_succeeded := 0; rc_failed := 0;
     rc_errors := []; rc_subscribers := [] |}.

(** What [reconcile_all] makes of the counters once the loop has ended:
    the [except] clause, then the test on ['failed']. *)
Definition sweep_result (c : Completion) (results : ReconcileTree) : ReconcileTree :=
  let results :=
    match c with
    | Normal => results
    | Abrupt e =>
        rc_append_error ("Reconciliation failed: " +:+ exn_str e)
          (rc_set_status Error results)
    end in
  if rc_failed results >? 0 then rc_set_status Partial results else results.

Definition ceiling_warning : string * string :=
  ("warning", "Reconciliation stopped at page 10000").

(* ===================================================================== *)
(** * Concrete clients and worlds                                         *)
(* ===================================================================== *)

Module Scenario.

(** A server that refuses every request, and one that accepts them all;
    the world has no state. *)
Definition refuse_all (req : HttpRequest) (w : unit) : HttpOutcome * unit :=
  (Response 500 "boom", w).

Definition accept_all (req : HttpRequest) (w : unit) : HttpOutcome * unit :=
  (Response 204 "", w).

(** A subscriber table served page by page. *)
Definition paged (subs : list Subscriber) (page size : Z) (w : unit)
    : DbOutcome * unit :=
  (DbPage (page_slice subs page size), w).

(** A source that never returns an empty page. *)
Definition endless (sub : Subscriber) (page size : Z) (w : unit)
    : DbOutcome * unit :=
  (DbPage [sub], w).

(** A source that serves its first page and is unreachable afterwards. *)
Definition failing_after (first : list Subscriber) (page size : Z) (w : unit)
    : DbOutcome * unit :=
  if page =? 0 then (DbPage first, w) else (DbError "db down", w).

Definition pdns1 : Endpoint :=
  {| ep_name := Some "pdns1";
     ep_url := Some "http://pdns1:8081";
     ep_api_key := Some "secret";
     ep_sip_domain := Some "ims.example.org";
     ep_domains := Some ["e164.arpa"] |}.

Definition client (strict : bool) (eps : list Endpoint) : ENUMClient :=
  {| enabled := true; strict_mode := strict; naptr_order := 10;
     naptr_preference := 10; naptr_ttl := 3600; endpoints := eps;
     log_tool := true |}.

Definition disabled_client : ENUMClient :=
  {| enabled := false; strict_mode := false; naptr_order := 10;
     naptr_preference := 10; naptr_ttl := 3600; endpoints := [pdns1];
     log_tool := true |}.

Definition quiet (c : ENUMClient) : ENUMClient :=
  {| enabled := enabled c; strict_mode := strict_mode c;
     naptr_order := naptr_order c; naptr_preference := naptr_preference c;
     naptr_ttl := naptr_ttl c; endpoints := endpoints c; log_tool := false |}.

Definition subscriber (id : Z) (msisdn : option string) : Subscriber :=
  {| sub_msisdn := msisdn; sub_msisdn_list := None;
     sub_ims_subscriber_id := Some id |}.

(** A subscriber whose number the servers refuse, one without a number,
    and a table of them that is one row longer than the sweep reaches. *)
Definition sub_refused : Subscriber := subscriber 37 (Some "111").
Definition sub_idle : Subscriber := subscriber 38 None.

Definition small_table : list Subscriber := [sub_refused; sub_idle].


(** The attempt of [create_enum_entries] for "111" on [pdns1], refused. *)
Definition refused_attempt : HttpRequest * HttpOutcome :=
  ({| req_url := "http://pdns1:8081/api/v1/servers/localhost/zones/e164.arpa";
      req_headers := [("X-API-Key", "secret"); ("Content-Type", "application/json")];
      req_rrsets :=
        [create_rrset (client true [pdns1]) "ims.example.org" "e164.arpa" "111"];
      req_timeout := 10 |},
   Response 500 "boom").

(** The tree a lenient create returns when the only server refuses. *)
Definition partial_tree : SyncTree :=
  {| st_status := Partial;
     st_endpoints :=
       [("pdns1", [("e164.arpa", {| dr_success := false; dr_msisdns := ["111"] |})])];
     st_errors := ["pdns1/e164.arpa: PowerDNS API error: 500 - boom"] |}.

End Scenario.

(* ===================================================================== *)
(** * Notions for the further properties                                  *)
(* ===================================================================== *)

(** The string holds no character [sep]. *)
Definition without_char (sep : ascii) (s : string) : Prop :=
  PyStr.all (λ c, negb (Ascii.eqb c sep)) s = true.

(** The strings a call is given as numbers: the primary one and the entries
    of the comma-separated list. *)
Definition candidates (msisdn msisdn_list : option string) : list string :=
  option_list msisdn ++ default [] (PyStr.split "," <$> msisdn_list).

(** The labels before the domain in an ENUM name: one for each digit, last
    digit first; a single empty label when there is no digit. *)
Definition digit_labels (clean : string) : list string :=
  match clean with
  | EmptyString => [""]
  | String _ _ => rev (PyStr.chars clean)
  end.

(** The two messages [_make_pdns_request] can give for a failure. *)
Definition pdns_failure_message (detail : string) : Prop :=
  (∃ status_code text,
      accepted status_code = false
      ∧ detail = "PowerDNS API error: " +:+ PyStr.of_int status_code +:+ " - " +:+ text)
  ∨ (∃ e, detail = "PowerDNS request failed: " +:+ e).

(** The key that [_make_pdns_request] misses first on an endpoint. *)
Definition missing_key (ep : Endpoint) : option string :=
  match ep_url ep, ep_api_key ep with
  | None, _ => Some "url"
  | Some _, None => Some "api_key"
  | Some _, Some _ => None
  end.

(** The call of create or of delete, by the kind of change it asks for. *)
Definition sync_call {World : Type}
    (http_patch : HttpRequest → World → HttpOutcome * World) (self : ENUMClient)
    (kind : ChangeType) : option string → option string → M World SyncResult :=
  match kind with
  | REPLACE => create_enum_entries http_patch self
  | DELETE => delete_enum_entries http_patch self
  end.

(** What every record set of a request of the given kind looks like. *)
Definition rrset_shape (self : ENUMClient) (kind : ChangeType) (rr : RRSet) : Prop :=
  rr_changetype rr = kind
  ∧ rr_type rr = "NAPTR"
  ∧ match kind with
    | REPLACE =>
        rr_ttl rr = Some (naptr_ttl self)
        ∧ ∃ naptr_content,
            rr_records rr = [{| content := naptr_content; disabled := false |}]
    | DELETE => rr_ttl rr = None ∧ rr_records rr = []
    end.

(** A client with a second endpoint that has no ['url']. *)
Definition no_url_endpoint : Endpoint :=
  {| ep_name := Some "pdns2"; ep_url := None; ep_api_key := Some "secret";
     ep_sip_domain := None; ep_domains := Some ["e164.arpa"] |}.

(** What a pass of the inner loop of create or delete can raise on an
    endpoint. *)
Definition raise_cause (self : ENUMClient) (ep : Endpoint) (e : Exn) : Prop :=
  (∃ msg, e = ENUMManagementError msg ∧ strict_mode self = true)
  ∨ (∃ key, e = KeyError key ∧ missing_key ep = Some key).

(** [result.get('errors')] or the empty list (what update merges) *)
Definition errors_of (r : SyncResult) : list string := default [] (sync_errors r).

(** The result update builds from the error lists of its two phases. *)
Definition update_result (to_delete to_create : gset string) (errors : list string)
    : UpdateResult :=
  UpdateFull
    {| up_status := match errors with [] => Ok | _ :: _ => Partial end;
       up_deleted := elements to_delete;
       up_created := elements to_create;
       up_errors := errors |}.


(** ** Notions for the further properties of the sweep *)

(** The records of the sweep with a given status. *)
Definition has_status (s : Status) (o : SubscriberOutcome) : bool :=
  String.eqb (status_str (so_status o)) (status_str s).

Definition records_with (s : Status) (records : list SubscriberOutcome) : Z :=
  Z.of_nat (length (List.filter (has_status s) records)).

(** What the counters of the sweep say about its records, while the loop
    runs and when it has ended with the completion [c]: a subscriber whose
    processing was cut short is counted as processed and nothing else. *)
Definition tally (c : Completion) (results : ReconcileTree) : Prop :=
  rc_status results = Ok
  ∧ rc_succeeded results = records_with Ok (rc_subscribers results)
  ∧ rc_failed results
    = records_with Partial (rc_subscribers results)
      + records_with Error (rc_subscribers results)
  ∧ Z.of_nat (length (rc_subscribers results))
    = rc_succeeded results + rc_failed results
  ∧ Z.of_nat (length (rc_errors results)) = records_with Error (rc_subscribers results)
  ∧ rc_succeeded results + rc_failed results ≤ rc_processed results
  ∧ rc_processed results
    ≤ rc_succeeded results + rc_failed results
      + match c with Normal => 0 | Abrupt _ => 1 end.

(** The row of the table a record of the sweep stands for. *)
Definition row_of (sub : Subscriber) : option Z * option string :=
  (sub_ims_subscriber_id sub, sub_msisdn sub).

Definition record_row (o : SubscriberOutcome) : option Z * option string :=
  (so_ims_subscriber_id o, so_msisdn o).

(** The rows the sweep reaches from page [page] on. *)
Definition rows_within (subs : list Subscriber) (page : Z) : list Subscriber :=
  take (Z.to_nat ((page_ceiling - page) * page_size))
    (drop (Z.to_nat (page * page_size)) subs).

(** ** The configuration *)

(** The ['enum'] section of the configuration with the keys [__init__]
    reads; a key that is absent is [None].  The values are taken to have
    the types the module expects. *)
Record EnumConfig := {
  cfg_enabled : option bool;
  cfg_strict_mode : option bool;
  cfg_naptr_order : option Z;
  cfg_naptr_preference : option Z;
  cfg_naptr_ttl : option Z;
  cfg_endpoints : option (list Endpoint)
}.

(** [{}] *)
Definition empty_section : EnumConfig :=
  {| cfg_enabled := None; cfg_strict_mode := None; cfg_naptr_order := None;
     cfg_naptr_preference := None; cfg_naptr_ttl := None; cfg_endpoints := None |}.

(** [ENUMClient.__init__]: [enum_section] is [config.get('enum')], and
    [tool] says whether a log tool is given. *)
Definition __init__ (enum_section : option EnumConfig) (tool : bool) : ENUMClient :=
  let enum_config := default empty_section enum_section in
  {| enabled := default false (cfg_enabled enum_config);
     strict_mode := default false (cfg_strict_mode enum_config);
     naptr_order := default 10 (cfg_naptr_order enum_config);
     naptr_preference := default 10 (cfg_naptr_preference enum_config);
     naptr_ttl := default 3600 (cfg_naptr_ttl enum_config);
     endpoints := default [] (cfg_endpoints enum_config);
     log_tool := tool |}.

(** A table whose first subscriber meets an endpoint without ['url']. *)
Definition key_error_result : ReconcileTree :=
  {| rc_status := Error; rc_processed := 1; rc_succeeded := 0; rc_failed := 0;
     rc_errors := ["Reconciliation failed: 'url'"]; rc_subscribers := [] |}.


(** ** The tree of a result *)

(** The entry of a domain: the verdict of its attempt and the numbers. *)
Definition domain_entry (ms : list string) (domain : string)
    (a : HttpRequest * HttpOutcome) : string * DomainResult :=
  (domain, {| dr_success := bool_decide (failure_detail a.2 = None);
              dr_msisdns := ms |}).

(** The tree with one entry for each endpoint, in configured order, and in
    it one entry for each domain of the endpoint, made from the attempts in
    the order they were made. *)
Fixpoint tree_of (ms : list string) (eps : list Endpoint)
    (attempts : list (HttpRequest * HttpOutcome))
    : list (string * list (string * DomainResult)) :=
  match eps with
  | [] => []
  | ep :: rest =>
      let domains := default [] (ep_domains ep) in
      (endpoint_name_of ep,
       zip_with (domain_entry ms) domains (take (length domains) attempts))
        :: tree_of ms rest (drop (length domains) attempts)
  end.

(** No two endpoints go by the same name, and no endpoint lists a domain
    twice. *)
Definition distinct_names (eps : list Endpoint) : Prop :=
  NoDup (map endpoint_name_of eps)
  ∧ Forall (λ ep, NoDup (default [] (ep_domains ep))) eps.

(** Two endpoints without a name on one server. *)
Definition twin_endpoint : Endpoint :=
  {| ep_name := None; ep_url := Some "http://pdns1:8081"; ep_api_key := Some "secret";
     ep_sip_domain := None; ep_domains := Some ["e164.arpa"] |}.

Definition twin_endpoint_2 : Endpoint :=
  {| ep_name := None; ep_url := Some "http://pdns1:8081"; ep_api_key := Some "secret";
     ep_sip_domain := None; ep_domains := Some ["e164.example"] |}.

(** ** Runs without their log lines *)

Definition is_log (ev : Event) : bool :=
  match ev with EvLog _ _ => true | _ => false end.

Definition erase_logs (evs : list Event) : list Event :=
  List.filter (λ ev, negb (is_log ev)) evs.

Definition without_logs {World A} (r : Outcome A * World * list Event)
    : Outcome A * World * list Event :=
  (outcome r, world_after r, erase_logs (events r)).

(** The first computation does what the second does, without the log
    lines. *)
Definition quieter {World A} (m' m : M World A) : Prop :=
  ∀ w, m' w = without_logs (m w).

(** The last page the sweep asks for, of a table of [n] rows that is served
    page by page: the first empty page, or page 10000. *)
Definition last_page (n : Z) : Z := Z.min ((n + 99) / 100) 10000.

(** ** The digits of the specification *)








(** ** The sub-calls of update *)

(** The info line of update. *)
Definition update_line (self : ENUMClient) (to_delete to_create : gset string)
    : list Event :=
  if log_tool self
  then [EvLog "info" ("ENUM update: delete " +:+ PyStr.repr_set to_delete
                      +:+ ", create " +:+ PyStr.repr_set to_create)]
  else [].


(* ===================================================================== *)
(** * Checks of the definitions on the examples of the source            *)
(* ===================================================================== *)


Example enum_name_doc :
  msisdn_to_enum_name "+491721234567" "e164.arpa" = "7.6.5.4.3.2.1.2.7.1.9.4.e164.arpa".
Proof. reflexivity. Qed.

Example parse_doc :
  _parse_msisdn_list (Some "+49 172") (Some " 1, 49172 ,,2,1") = ["49172"; "1"; "2"].
Proof. reflexivity. Qed.

Example split_doc : PyStr.split "," "a,,b," = ["a"; ""; "b"; ""].
Proof. reflexivity. Qed.

Example strip_doc : PyStr.strip "  a b  " = "a b".
Proof. reflexivity. Qed.

Example of_int_doc : PyStr.of_int 204 = "204" ∧ PyStr.of_int 0 = "0" ∧ PyStr.of_int (-3) = "-3".
Proof. repeat split; reflexivity. Qed.

Example naptr_doc :
  generate_naptr_content (Scenario.client false []) "+491721234567"
    "ims.mnc001.mcc001.3gppnetwork.org"
  = "10 10 " +:+ PyStr.dquote +:+ "u" +:+ PyStr.dquote +:+ " " +:+ PyStr.dquote
    +:+ "E2U+sip" +:+ PyStr.dquote +:+ " " +:+ PyStr.dquote
    +:+ "!^.*$!sip:491721234567@ims.mnc001.mcc001.3gppnetwork.org!"
    +:+ PyStr.dquote +:+ " .".
Proof. reflexivity. Qed.

(** An update from {"111", "222"} to {"333"} on a server that accepts: one
    DELETE request for the two old numbers, then one REPLACE request for the
    new one. *)
Example update_doc :
  let run := update_enum_entries Scenario.accept_all
               (Scenario.client true [Scenario.pdns1])
               (Some "111") (Some "222") (Some "333") None tt in
  outcome run
  = Return (UpdateFull {| up_status := Ok; up_deleted := ["111"; "222"];
                          up_created := ["333"]; up_errors := [] |})
  ∧ map (λ a, map (λ rr, (rr_changetype rr, rr_name rr)) (req_rrsets a.1))
      (patches (events run))
    = [[(DELETE, "1.1.1.e164.arpa."); (DELETE, "2.2.2.e164.arpa.")];
       [(REPLACE, "3.3.3.e164.arpa.")]].
Proof. split; vm_compute; reflexivity. Qed.

(** A lenient create on a server that refuses: the status is [partial] and
    the error list has the formatted entry. *)
Example create_partial_doc :
  outcome (create_enum_entries Scenario.refuse_all
             (Scenario.client false [Scenario.pdns1]) (Some "111") None tt)
  = Return (SyncFull Scenario.partial_tree).
Proof. vm_compute. reflexivity. Qed.

(** A sweep over 250 subscribers asks for the pages 0, 1, 2 and the empty
    page 3. *)
Example sweep_pages_doc :
  page_requests
    (events (reconcile_all Scenario.accept_all
               (Scenario.paged (replicate 250 Scenario.sub_idle))
               (Scenario.client false [Scenario.pdns1]) 10 tt))
  = [(0, 100); (1, 100); (2, 100); (3, 100)].
Proof. vm_compute. reflexivity. Qed.

(* ===================================================================== *)
(** * Properties of the strings                                           *)
(* ===================================================================== *)

Lemma app_cons (c : ascii) (s t : string) : String c s +:+ t = String c (s +:+ t).
Proof. reflexivity. Qed.

Lemma app_empty_r (s : string) : s +:+ "" = s.
Proof. induction s as [|c s IH]; [done | by rewrite app_cons, IH]. Qed.

Lemma app_assoc_str (a b c : string) : (a +:+ b) +:+ c = a +:+ b +:+ c.
Proof. induction a as [|x a IH]; [done | by rewrite !app_cons, IH]. Qed.

Lemma filter_all_id (p : ascii → bool) (s : string) :
  PyStr.all p s = true → PyStr.filter p s = s.
Proof.
  induction s as [|c s IH]; simpl; [done |].
  intros [Hc Hs]%andb_prop. rewrite Hc. by rewrite IH.
Qed.


Lemma all_filter (p : ascii → bool) (s : string) :
  PyStr.all p (PyStr.filter p s) = true.
Proof.
  induction s as [|c s IH]; simpl; [done |].
  destruct (p c) eqn:Hc; simpl; [by rewrite Hc |]; done.
Qed.

Lemma filter_filter (p : ascii → bool) (s : string) :
  PyStr.filter p (PyStr.filter p s) = PyStr.filter p s.
Proof. apply filter_all_id, all_filter. Qed.

Lemma join_snoc (sep : string) (l : list string) (x : string) :
  PyStr.join sep (l ++ [x]) =
  match l with [] => x | _ :: _ => PyStr.join sep l +:+ sep +:+ x end.
Proof.
  induction l as [|y l IH]; [done |].
  change ((y :: l) ++ [x]) with (y :: (l ++ [x])).
  destruct l as [|z l]; [done |].
  change (PyStr.join sep (y :: (z :: l) ++ [x]))
    with (y +:+ sep +:+ PyStr.join sep ((z :: l) ++ [x])).
  rewrite IH.
  change (PyStr.join sep (y :: z :: l)) with (y +:+ sep +:+ PyStr.join sep (z :: l)).
  by rewrite !app_assoc_str.
Qed.

Lemma chars_nil (s : string) : PyStr.chars s = [] → s = "".
Proof. by destruct s. Qed.

(** Joining the reversed characters is the reading of the specification. *)
Lemma join_rev_chars (d : string) :
  PyStr.join "." (rev (PyStr.chars d)) = dotted_reverse d.
Proof.
  induction d as [|c d IH]; [done |].
  change (rev (PyStr.chars (String c d)))
    with (rev (PyStr.chars d) ++ [String c ""]).
  rewrite join_snoc. destruct d as [|c' d]; [done |].
  rewrite IH.
  change (rev (PyStr.chars (String c' d)))
    with (rev (PyStr.chars d) ++ [String c' ""]).
  by destruct (rev (PyStr.chars d)).
Qed.

(** ** White space, digits and the comma *)

Lemma isspace_not_digit (c : ascii) :
  PyStr.isspace c = true → PyStr.isdigit c = false.
Proof.
  unfold PyStr.isspace, PyStr.isdigit. generalize (N_of_ascii c). intros n.
  rewrite !orb_true_iff, !andb_true_iff, !N.leb_le, !N.eqb_eq. intros H.
  rewrite !orb_false_iff, andb_false_iff, !N.leb_gt, !N.eqb_neq. lia.
Qed.

Lemma comma_not_digit : PyStr.isdigit "," = false.
Proof. reflexivity. Qed.

Lemma filter_lstrip (s : string) :
  PyStr.filter PyStr.isdigit (PyStr.lstrip s) = PyStr.filter PyStr.isdigit s.
Proof.
  induction s as [|c s IH]; simpl; [done |].
  destruct (PyStr.isspace c) eqn:Hc; [|done].
  by rewrite (isspace_not_digit _ Hc).
Qed.

Lemma filter_rstrip (s : string) :
  PyStr.filter PyStr.isdigit (PyStr.rstrip s) = PyStr.filter PyStr.isdigit s.
Proof.
  induction s as [|c s IH]; simpl; [done |].
  destruct (PyStr.rstrip s) as [|c' r] eqn:Hr.
  - destruct (PyStr.isspace c) eqn:Hc.
    + rewrite (isspace_not_digit _ Hc). by rewrite <- IH.
    + simpl. by rewrite <- IH.
  - simpl in *. by rewrite IH.
Qed.

(** Stripping before filtering changes nothing: white space has no digit. *)
Lemma filter_strip (s : string) :
  PyStr.filter PyStr.isdigit (PyStr.strip s) = PyStr.filter PyStr.isdigit s.
Proof. unfold PyStr.strip. by rewrite filter_rstrip, filter_lstrip. Qed.

Lemma truthy_true (s : string) : PyStr.truthy s = true ↔ s ≠ "".
Proof. destruct s; simpl; split; intros; congruence. Qed.

Lemma mem_true (x : string) (l : list string) : PyStr.mem x l = true ↔ x ∈ l.
Proof. unfold PyStr.mem. apply bool_decide_eq_true. Qed.

(** ** The normaliser *)

Lemma parse_entry_inv (acc : list string) (m : string) :
  NoDup acc → Forall clean_entry acc →
  NoDup (parse_entry acc m) ∧ Forall clean_entry (parse_entry acc m)
  ∧ (acc ≠ [] → head (parse_entry acc m) = head acc).
Proof.
  intros Hnd Hall. unfold parse_entry.
  set (clean := PyStr.filter PyStr.isdigit (PyStr.strip m)).
  destruct (PyStr.truthy clean) eqn:Ht; simpl; [|done].
  destruct (PyStr.mem clean acc) eqn:Hm; simpl; [done |].
  assert (clean ∉ acc) as Hni.
  { intros Hin%mem_true. congruence. }
  split_and!.
  - apply NoDup_app. split_and!; [done | | apply NoDup_singleton].
    intros x Hx ->%list_elem_of_singleton. done.
  - apply Forall_app. split; [done |]. apply Forall_singleton. split.
    + by apply truthy_true.
    + apply all_filter.
  - by destruct acc.
Qed.

Lemma parse_fold_inv (ms acc : list string) :
  NoDup acc → Forall clean_entry acc →
  NoDup (fold_left parse_entry ms acc)
  ∧ Forall clean_entry (fold_left parse_entry ms acc)
  ∧ (acc ≠ [] → head (fold_left parse_entry ms acc) = head acc).
Proof.
  revert acc. induction ms as [|m ms IH]; intros acc Hnd Hall; simpl; [done |].
  destruct (parse_entry_inv acc m Hnd Hall) as (Hnd' & Hall' & Hhd).
  destruct (IH _ Hnd' Hall') as (? & ? & Hhd').
  split_and!; [done.. |]. intros Hne. rewrite Hhd', Hhd; [done.. |].
  specialize (Hhd Hne). destruct acc; [done |]. by destruct (parse_entry _ m).
Qed.

Lemma primary_part_inv (msisdn : option string) :
  NoDup (primary_part msisdn) ∧ Forall clean_entry (primary_part msisdn).
Proof.
  destruct msisdn as [m|]; simpl; [|split; [constructor | done]].
  destruct (PyStr.truthy m); [|split; [constructor | done]].
  destruct (PyStr.truthy _) eqn:Ht; [|split; [constructor | done]].
  split; [apply NoDup_singleton |]. apply Forall_singleton. split.
  - by apply truthy_true.
  - apply all_filter.
Qed.

Lemma parse_unfold (msisdn msisdn_list : option string) :
  _parse_msisdn_list msisdn msisdn_list =
  match msisdn_list with
  | Some l =>
      if PyStr.truthy l
      then fold_left parse_entry (PyStr.split "," l) (primary_part msisdn)
      else primary_part msisdn
  | None => primary_part msisdn
  end.
Proof.
  unfold _parse_msisdn_list, primary_part.
  destruct msisdn as [m|]; [|done].
  destruct (PyStr.truthy m); [|done].
  by destruct (PyStr.truthy (PyStr.filter PyStr.isdigit m)).
Qed.

Lemma parse_inv (msisdn msisdn_list : option string) :
  NoDup (_parse_msisdn_list msisdn msisdn_list)
  ∧ Forall clean_entry (_parse_msisdn_list msisdn msisdn_list).
Proof.
  rewrite parse_unfold.
  destruct (primary_part_inv msisdn) as [Hnd Hall].
  destruct msisdn_list as [l|]; [|done].
  destruct (PyStr.truthy l); [|done].
  destruct (parse_fold_inv (PyStr.split "," l) _ Hnd Hall) as (? & ? & _). done.
Qed.



(** ** Joining and splitting again *)

Lemma digits_no_comma (s : string) :
  PyStr.all PyStr.isdigit s = true → no_comma s.
Proof.
  unfold no_comma. induction s as [|c s IH]; simpl; [done |].
  intros [Hc Hs]%andb_prop. rewrite (IH Hs), andb_true_r.
  destruct (Ascii.eqb_spec c ",") as [->|]; [|done].
  by rewrite comma_not_digit in Hc.
Qed.

Lemma split_cons_nonempty (sep : ascii) (s : string) : PyStr.split sep s ≠ [].
Proof.
  destruct s as [|c s]; simpl; [done |].
  destruct (Ascii.eqb c sep); [done |]. by destruct (PyStr.split sep s).
Qed.

Lemma split_single (s : string) : no_comma s → PyStr.split "," s = [s].
Proof.
  unfold no_comma. induction s as [|c s IH]; simpl; [done |].
  intros [Hc Hs]%andb_prop. apply negb_true_iff in Hc. rewrite Hc.
  by rewrite (IH Hs).
Qed.

Lemma split_app_comma (x rest : string) :
  no_comma x → PyStr.split "," (x +:+ "," +:+ rest) = x :: PyStr.split "," rest.
Proof.
  unfold no_comma. induction x as [|c x IH]; [done |].
  simpl PyStr.all. intros [Hc Hs]%andb_prop. apply negb_true_iff in Hc.
  rewrite app_cons. simpl PyStr.split. rewrite Hc. by rewrite (IH Hs).
Qed.

Lemma split_join (l : list string) :
  l ≠ [] → Forall no_comma l → PyStr.split "," (PyStr.join "," l) = l.
Proof.
  induction l as [|x l IH]; [done |]. intros _ Hall.
  apply Forall_cons in Hall as [Hx Hl].
  destruct l as [|y l]; [by apply split_single |].
  change (PyStr.join "," (x :: y :: l)) with (x +:+ "," +:+ PyStr.join "," (y :: l)).
  rewrite split_app_comma by done. by rewrite IH.
Qed.

Lemma app_truthy (a b : string) : a ≠ "" → PyStr.truthy (a +:+ b) = true.
Proof. by destruct a. Qed.

Lemma join_truthy (l : list string) :
  l ≠ [] → Forall clean_entry l → PyStr.truthy (PyStr.join "," l) = true.
Proof.
  destruct l as [|x l]; [done |]. intros _ Hall.
  apply Forall_cons in Hall as [[Hx _] _].
  destruct l as [|y l]; [by apply truthy_true |].
  change (PyStr.join "," (x :: y :: l)) with (x +:+ "," +:+ PyStr.join "," (y :: l)).
  by apply app_truthy.
Qed.

Lemma parse_entry_clean (acc : list string) (m : string) :
  clean_entry m → m ∉ acc → parse_entry acc m = acc ++ [m].
Proof.
  intros [Hne Hd] Hni. unfold parse_entry.
  rewrite filter_strip, (filter_all_id _ _ Hd).
  apply truthy_true in Hne. rewrite Hne.
  destruct (PyStr.mem m acc) eqn:Hm; [by apply mem_true in Hm |]. done.
Qed.

Lemma parse_fold_clean (l acc : list string) :
  Forall clean_entry l → NoDup (acc ++ l) →
  fold_left parse_entry l acc = acc ++ l.
Proof.
  revert acc. induction l as [|m l IH]; intros acc Hall Hnd; simpl.
  - by rewrite app_nil_r.
  - apply Forall_cons in Hall as [Hm Hl].
    rewrite parse_entry_clean; [| done |].
    + rewrite IH; [by rewrite <- app_assoc | done | by rewrite <- app_assoc].
    + apply NoDup_app in Hnd as (_ & Hni & _). intros Hin.
      apply (Hni m Hin). by left.
Qed.

(** What update relies on: a set of parsed numbers, joined with commas and
    parsed again as a list, comes back unchanged. *)
Lemma parse_join (l : list string) :
  NoDup l → Forall clean_entry l →
  _parse_msisdn_list None (Some (PyStr.join "," l)) = l.
Proof.
  intros Hnd Hall. rewrite parse_unfold. simpl primary_part.
  destruct l as [|x l]; [done |].
  rewrite join_truthy by done.
  rewrite split_join; [| done |].
  - by apply parse_fold_clean.
  - eapply Forall_impl; [done |]. intros m [_ Hm]. by apply digits_no_comma.
Qed.

Lemma msisdn_set_clean (msisdn msisdn_list : option string) (m : string) :
  m ∈ msisdn_set msisdn msisdn_list → clean_entry m.
Proof.
  unfold msisdn_set. rewrite elem_of_list_to_set. intros Hin.
  destruct (parse_inv msisdn msisdn_list) as [_ Hall].
  by apply (proj1 (Forall_forall _ _) Hall).
Qed.

Lemma parse_join_elements (s : gset string) :
  (∀ m, m ∈ s → clean_entry m) →
  _parse_msisdn_list None (Some (PyStr.join "," (elements s))) = elements s.
Proof.
  intros Hs. apply parse_join; [apply NoDup_elements |].
  apply Forall_forall. intros m Hm. apply Hs. by apply elem_of_elements.
Qed.


(* ===================================================================== *)
(** * Properties of create and delete                                     *)
(* ===================================================================== *)

Lemma patches_app (e1 e2 : list Event) : patches (e1 ++ e2) = patches e1 ++ patches e2.
Proof. apply omap_app. Qed.

Lemma patches_cons_patch (req : HttpRequest) (out : HttpOutcome) (evs : list Event) :
  patches (EvPatch req out :: evs) = (req, out) :: patches evs.
Proof. reflexivity. Qed.

Lemma page_requests_app (e1 e2 : list Event) :
  page_requests (e1 ++ e2) = page_requests e1 ++ page_requests e2.
Proof. apply omap_app. Qed.

Lemma logs_app (e1 e2 : list Event) : logs (e1 ++ e2) = logs e1 ++ logs e2.
Proof. apply omap_app. Qed.

Section SyncFacts.

Context {World : Type}.
Variable http_patch : HttpRequest → World → HttpOutcome * World.
Variable self : ENUMClient.

Lemma create_is_sync :
  create_enum_entries http_patch self = sync_enum_entries http_patch self REPLACE.
Proof. reflexivity. Qed.

Lemma delete_is_sync :
  delete_enum_entries http_patch self = sync_enum_entries http_patch self DELETE.
Proof. reflexivity. Qed.

Lemma log_patches (level message : string) (w : World) :
  ∃ evs, _log self level message w = (Return tt, w, evs) ∧ patches evs = []
         ∧ page_requests evs = []
         ∧ logs evs = if log_tool self then [(level, message)] else [].
Proof.
  unfold _log. destruct (log_tool self); eexists; split_and!; done.
Qed.

(** The transport: a [KeyError] before anything is sent, or one request
    and its verdict. *)
Lemma make_pdns_run (endpoint : Endpoint) (zone : string) (rrsets : list RRSet)
    (w : World) :
  match request_for endpoint zone rrsets with
  | None =>
      ∃ key, _make_pdns_request http_patch endpoint zone rrsets w
             = (Raise (KeyError key), w, [])
  | Some req =>
      let out := (http_patch req w).1 in
      _make_pdns_request http_patch endpoint zone rrsets w
      = (Return (bool_decide (failure_detail out = None), failure_detail out),
         (http_patch req w).2, [EvPatch req out])
  end.
Proof.
  unfold request_for, _make_pdns_request.
  destruct (ep_url endpoint) as [base|]; [|by eexists].
  destruct (ep_api_key endpoint) as [api_key|]; [|by eexists].
  simpl. unfold mbind, M_bind, bind, ret, requests_patch. simpl.
  destruct (http_patch _ w) as [out w1]. simpl.
  destruct out as [code text|msg]; simpl; [|done].
  by destruct (accepted code).
Qed.

Variable kind : ChangeType.
Variable all_msisdns : list string.

Abbreviation Inv := (loop_inv self kind all_msisdns).
Abbreviation RInv := (raise_inv self kind all_msisdns).

Lemma attempts_of_snoc ps attempts p a :
  attempts_of self kind all_msisdns ps attempts →
  pair_request self kind all_msisdns p = Some a.1 →
  attempts_of self kind all_msisdns (ps ++ [p]) (attempts ++ [a]).
Proof.
  intros H1 H2. apply Forall2_app; [done |]. by apply Forall2_cons.
Qed.

Lemma error_entries_snoc ps attempts p a :
  attempts_of self kind all_msisdns ps attempts →
  error_entries (ps ++ [p]) (attempts ++ [a])
  = error_entries ps attempts ++ option_list (error_entry p a).
Proof.
  intros H. unfold error_entries.
  rewrite zip_with_app by (by eapply Forall2_length).
  rewrite omap_app. by f_equal.
Qed.

(** One pass of the inner loop. *)
Lemma sync_domain_step (endpoint : Endpoint) (errors0 : list string)
    (results : SyncTree) (evs : list Event) (finished : list (Endpoint * string))
    (domain : string) (w : World) :
  Inv errors0 results evs finished →
  match sync_domain http_patch self kind endpoint (endpoint_name_of endpoint)
          (default "" (ep_sip_domain endpoint)) all_msisdns results domain w with
  | (Return results', _, e) =>
      Inv errors0 results' (evs ++ e) (finished ++ [(endpoint, domain)])
  | (Raise ex, _, e) => RInv ex (evs ++ e) (finished ++ [(endpoint, domain)])
  end.
Proof.
  intros (Hatt & Hst & Herr & Hstrict).
  unfold sync_domain.
  set (rrsets := map _ all_msisdns).
  pose proof (make_pdns_run endpoint domain rrsets w) as Hrun.
  assert (pair_request self kind all_msisdns (endpoint, domain)
          = request_for endpoint domain rrsets) as Hreq by done.
  destruct (request_for endpoint domain rrsets) as [req|].
  2:{ destruct Hrun as [key Hrun].
      unfold mbind, M_bind, bind. rewrite Hrun. simpl.
      rewrite app_nil_r. eauto 10. }
  simpl in Hrun. unfold mbind, M_bind, bind at 1. rewrite Hrun.
  set (out := (http_patch req w).1).
  destruct (failure_detail out) as [detail|] eqn:Hd; simpl.
  - (* the attempt failed *)
    destruct (log_patches "error"
                (kind_failed_log kind +:+ endpoint_name_of endpoint +:+ "/"
                 +:+ domain +:+ ": " +:+ detail) (http_patch req w).2)
      as (le & Hle & Hpl & _).
    unfold bind. rewrite Hle.
    destruct (strict_mode self) eqn:Hs; simpl.
    + split; [done |].
      exists finished, (endpoint, domain), (patches evs), (req, out), detail.
      rewrite app_nil_r, patches_app, patches_cons_patch, Hpl.
      split_and!; auto.
    + unfold mret, M_ret, ret, loop_inv. simpl.
      rewrite app_nil_r, patches_app, patches_cons_patch, Hpl.
      split_and!; [by apply attempts_of_snoc | done | | congruence].
      rewrite error_entries_snoc by done. simpl.
      unfold error_entry. simpl. fold out. rewrite Hd. simpl.
      rewrite Herr. by rewrite <- app_assoc.
  - (* the attempt succeeded *)
    destruct (log_patches "info"
                (kind_ok_log kind +:+ endpoint_name_of endpoint +:+ "/" +:+ domain)
                (http_patch req w).2) as (le & Hle & Hpl & _).
    unfold bind. rewrite Hle. unfold mret, M_ret, ret, loop_inv. simpl.
    rewrite app_nil_r, patches_app, patches_cons_patch, Hpl.
    split_and!; [by apply attempts_of_snoc | done | |].
    + rewrite error_entries_snoc by done. simpl.
      unfold error_entry. simpl. fold out. rewrite Hd. simpl.
      by rewrite app_nil_r.
    + intros Hs. apply Forall_app. split; [by apply Hstrict |].
      by apply Forall_singleton.
Qed.

Lemma foldM_cons {A B} (f : B → A → M World B) (b : B) (x : A) (l : list A)
    (w : World) :
  foldM f b (x :: l) w =
  match f b x w with
  | (Return b', w1, e1) =>
      match foldM f b' l w1 with
      | (o, w2, e2) => (o, w2, e1 ++ e2)
      end
  | (Raise ex, w1, e1) => (Raise ex, w1, e1)
  end.
Proof. reflexivity. Qed.

(** The inner loop, over the domains of one endpoint. *)
Lemma sync_domains_loop (endpoint : Endpoint) (errors0 : list string)
    (domains : list string) :
  ∀ (results : SyncTree) (evs : list Event) (finished : list (Endpoint * string))
    (w : World),
    Inv errors0 results evs finished →
    match foldM (sync_domain http_patch self kind endpoint
                   (endpoint_name_of endpoint)
                   (default "" (ep_sip_domain endpoint)) all_msisdns)
            results domains w with
    | (Return results', _, e) =>
        Inv errors0 results' (evs ++ e) (finished ++ map (pair endpoint) domains)
    | (Raise ex, _, e) =>
        ∃ pre post, domains = pre ++ post
                    ∧ RInv ex (evs ++ e) (finished ++ map (pair endpoint) pre)
    end.
Proof.
  induction domains as [|d ds IH]; intros results evs finished w HI.
  - simpl. by rewrite !app_nil_r.
  - rewrite foldM_cons.
    pose proof (sync_domain_step endpoint errors0 results evs finished d w HI) as Hstep.
    destruct (sync_domain _ _ _ _ _ _ _ _ d w) as [[[r1|ex] w1] e1].
    + specialize (IH r1 _ _ w1 Hstep).
      destruct (foldM _ r1 ds w1) as [[[r2|ex] w2] e2].
      * rewrite app_assoc. simpl map.
        by rewrite (cons_middle _ finished), app_assoc.
      * destruct IH as (pre & post & -> & HR).
        exists (d :: pre), post. split; [done |].
        rewrite app_assoc. simpl map.
        by rewrite (cons_middle _ finished), app_assoc.
    + exists [d], ds. done.
Qed.

Lemma open_endpoint_inv (name : string) (errors0 : list string)
    (results : SyncTree) (evs : list Event) (finished : list (Endpoint * string)) :
  Inv errors0 results evs finished →
  Inv errors0 (st_open_endpoint name results) evs finished.
Proof. done. Qed.

(** The outer loop, over the endpoints. *)
Lemma sync_endpoints_loop (errors0 : list string) (eps : list Endpoint) :
  ∀ (results : SyncTree) (evs : list Event) (finished : list (Endpoint * string))
    (w : World),
    Inv errors0 results evs finished →
    match foldM (sync_endpoint http_patch self kind all_msisdns) results eps w with
    | (Return results', _, e) =>
        Inv errors0 results' (evs ++ e)
          (finished ++ flat_map (λ ep, map (pair ep) (default [] (ep_domains ep))) eps)
    | (Raise ex, _, e) =>
        ∃ pre post,
          flat_map (λ ep, map (pair ep) (default [] (ep_domains ep))) eps = pre ++ post
          ∧ RInv ex (evs ++ e) (finished ++ pre)
    end.
Proof.
  induction eps as [|ep eps IH]; intros results evs finished w HI.
  - simpl. by rewrite !app_nil_r.
  - rewrite foldM_cons. unfold sync_endpoint at 1.
    pose proof (sync_domains_loop ep errors0 (default [] (ep_domains ep))
                  _ evs finished w
                  (open_endpoint_inv (endpoint_name_of ep) _ _ _ _ HI)) as Hin.
    destruct (foldM (sync_domain _ _ _ _ _ _ _) _ _ w) as [[[r1|ex] w1] e1].
    + specialize (IH r1 _ _ w1 Hin).
      destruct (foldM _ r1 eps w1) as [[[r2|ex] w2] e2].
      * rewrite app_assoc. simpl flat_map. by rewrite app_assoc.
      * destruct IH as (pre & post & Heq & HR).
        exists (map (pair ep) (default [] (ep_domains ep)) ++ pre), post.
        simpl flat_map. rewrite Heq. split; [by rewrite app_assoc |].
        by rewrite !app_assoc.
    + destruct Hin as (pre & post & Heq & HR).
      exists (map (pair ep) pre), (map (pair ep) post ++ flat_map
               (λ ep, map (pair ep) (default [] (ep_domains ep))) eps).
      simpl flat_map. rewrite Heq, map_app, <- app_assoc. done.
Qed.

Lemma empty_inv : Inv [] {| st_status := Ok; st_endpoints := []; st_errors := [] |} [] [].
Proof. split_and!; [constructor | done | done | constructor]. Qed.

Lemma st_finish_status (results : SyncTree) :
  st_status results = Ok →
  st_errors (st_finish results) = st_errors results
  ∧ st_status (st_finish results)
    = match st_errors results with [] => Ok | _ :: _ => Partial end.
Proof.
  intros Hst. unfold st_finish.
  destruct (st_errors results) as [|e errs] eqn:He; simpl; by rewrite ?He.
Qed.

(** A whole call of create or delete with the engine enabled and at least
    one number. *)
Lemma sync_run (msisdn msisdn_list : option string) (w : World) :
  enabled self = true →
  _parse_msisdn_list msisdn msisdn_list = all_msisdns →
  all_msisdns ≠ [] →
  match sync_enum_entries http_patch self kind msisdn msisdn_list w with
  | (Return r, _, evs) =>
      ∃ t, r = SyncFull t
           ∧ attempts_of self kind all_msisdns (sync_pairs self) (patches evs)
           ∧ st_errors t = error_entries (sync_pairs self) (patches evs)
           ∧ st_status t = match st_errors t with [] => Ok | _ :: _ => Partial end
           ∧ (strict_mode self = true → no_failure (patches evs))
  | (Raise ex, _, evs) =>
      ∃ pre post, sync_pairs self = pre ++ post ∧ RInv ex evs pre
  end.
Proof.
  intros Hen Hparse Hne. unfold sync_enum_entries. rewrite Hen, Hparse. simpl.
  destruct all_msisdns as [|m ms] eqn:Hms; [done |]. rewrite <- Hms.
  destruct (log_patches "info"
              (kind_start_log kind +:+ PyStr.repr_list all_msisdns) w)
    as (le & Hle & Hpl & _).
  unfold mbind, M_bind, bind. rewrite Hle.
  assert (Inv [] {| st_status := Ok; st_endpoints := []; st_errors := [] |} le [])
    as HI.
  { destruct empty_inv as (? & ? & ? & ?). unfold loop_inv. by rewrite Hpl. }
  pose proof (sync_endpoints_loop [] (endpoints self) _ le [] w HI) as Hloop.
  destruct (foldM _ _ (endpoints self) w) as [[[r1|ex] w1] e1].
  - simpl. rewrite app_nil_r. destruct Hloop as (Hatt & Hst & Herr & Hstrict).
    destruct (st_finish_status r1 Hst) as [Hfe Hfs].
    exists (st_finish r1). rewrite Hfe, Hfs. done.
  - done.
Qed.

End SyncFacts.


Section SyncCorollaries.

Context {World : Type}.
Variable http_patch : HttpRequest → World → HttpOutcome * World.
Variable self : ENUMClient.
Variable kind : ChangeType.

(** With the engine disabled nothing is parsed and nothing is sent. *)
Lemma sync_disabled (msisdn msisdn_list : option string) (w : World) :
  enabled self = false →
  sync_enum_entries http_patch self kind msisdn msisdn_list w
  = (Return (SyncStatus Disabled), w,
     if log_tool self then [EvLog "debug" (kind_skip_log kind)] else []).
Proof.
  intros Hen. unfold sync_enum_entries, _log. rewrite Hen. simpl.
  by destruct (log_tool self).
Qed.

(** Without a number nothing is sent either. *)
Lemma sync_no_msisdns (msisdn msisdn_list : option string) (w : World) :
  enabled self = true →
  _parse_msisdn_list msisdn msisdn_list = [] →
  sync_enum_entries http_patch self kind msisdn msisdn_list w
  = (Return (SyncStatus NoMsisdns), w,
     if log_tool self then [EvLog "debug" (kind_empty_log kind)] else []).
Proof.
  intros Hen Hp. unfold sync_enum_entries, _log. rewrite Hen, Hp. simpl.
  by destruct (log_tool self).
Qed.

Lemma sync_patches_none (msisdn msisdn_list : option string) (w : World) :
  enabled self = false ∨ _parse_msisdn_list msisdn msisdn_list = [] →
  patches (sync_enum_entries http_patch self kind msisdn msisdn_list w).2 = [].
Proof.
  destruct (enabled self) eqn:Hen.
  - intros [?|Hp]; [done |]. rewrite sync_no_msisdns by done.
    by destruct (log_tool self).
  - intros _. rewrite sync_disabled by done. by destruct (log_tool self).
Qed.

Lemma error_entries_nil (ms : list string) (ps : list (Endpoint * string))
    (attempts : list (HttpRequest * HttpOutcome)) :
  attempts_of self kind ms ps attempts →
  error_entries ps attempts = [] ↔ no_failure attempts.
Proof.
  unfold attempts_of, error_entries, no_failure.
  induction 1 as [|p a ps attempts Hpa Hrest IH]; simpl.
  - split; [constructor | done].
  - unfold error_entry at 1. simpl.
    destruct (failure_detail a.2) as [d|] eqn:Hd; simpl.
    + split; [done |]. intros Hall. apply Forall_cons in Hall as [Ha _]. congruence.
    + rewrite IH. split; [by constructor |]. by intros [_ ?]%Forall_cons.
Qed.

Lemma error_entries_length (ms : list string) (ps : list (Endpoint * string))
    (attempts : list (HttpRequest * HttpOutcome)) :
  attempts_of self kind ms ps attempts →
  length (error_entries ps attempts)
  = length (filter (λ a, is_Some (failure_detail a.2)) attempts).
Proof.
  unfold attempts_of, error_entries.
  induction 1 as [|p a ps attempts Hpa Hrest IH]; simpl; [done |].
  unfold error_entry at 1.
  destruct (failure_detail a.2) as [d|] eqn:Hd; simpl.
  - rewrite filter_cons_True by (rewrite Hd; eauto). simpl. by f_equal.
  - rewrite filter_cons_False by (rewrite Hd; by intros [? ?]). done.
Qed.

(** A returned tree: status and error list go together, and the error
    list has one entry for each failed attempt. *)
Lemma sync_returned (msisdn msisdn_list : option string) (w w' : World)
    (r : SyncResult) (evs : list Event) :
  enabled self = true →
  _parse_msisdn_list msisdn msisdn_list ≠ [] →
  sync_enum_entries http_patch self kind msisdn msisdn_list w = (Return r, w', evs) →
  ∃ t, r = SyncFull t
       ∧ (st_status t = Ok ↔ st_errors t = [])
       ∧ (st_status t = Partial ↔ st_errors t ≠ [])
       ∧ st_errors t = error_entries (sync_pairs self) (patches evs)
       ∧ length (st_errors t)
         = length (filter (λ a, is_Some (failure_detail a.2)) (patches evs))
       ∧ length (patches evs) = length (sync_pairs self)
       ∧ (strict_mode self = true → st_errors t = []).
Proof.
  intros Hen Hne Hrun.
  pose proof (sync_run http_patch self kind _ msisdn msisdn_list w Hen eq_refl Hne)
    as Hspec.
  rewrite Hrun in Hspec. destruct Hspec as (t & -> & Hatt & Herr & Hst & Hstrict).
  exists t. split; [done |]. rewrite Hst.
  split_and!.
  - by destruct (st_errors t).
  - by destruct (st_errors t).
  - done.
  - rewrite Herr. by eapply error_entries_length.
  - symmetry. by eapply Forall2_length.
  - intros Hs. rewrite Herr. eapply error_entries_nil; [done |]. by apply Hstrict.
Qed.


End SyncCorollaries.


(* ===================================================================== *)
(** * Properties of update                                                *)
(* ===================================================================== *)

Section UpdateFacts.

Context {World : Type}.
Variable http_patch : HttpRequest → World → HttpOutcome * World.
Variable self : ENUMClient.

(** Every attempt of a call of create or delete is the request of a
    configured pair for the parsed numbers. *)
Lemma sync_attempts (kind : ChangeType) (msisdn msisdn_list : option string)
    (w : World) :
  Forall (λ a, ∃ p, p ∈ sync_pairs self
                    ∧ pair_request self kind
                        (_parse_msisdn_list msisdn msisdn_list) p = Some a.1)
    (patches (sync_enum_entries http_patch self kind msisdn msisdn_list w).2).
Proof.
  destruct (enabled self) eqn:Hen;
    [|rewrite sync_patches_none by auto; constructor].
  destruct (decide (_parse_msisdn_list msisdn msisdn_list = [])) as [Hp|Hne];
    [rewrite sync_patches_none by auto; constructor|].
  pose proof (sync_run http_patch self kind _ msisdn msisdn_list w Hen eq_refl Hne)
    as Hspec.
  destruct (sync_enum_entries _ _ _ _ _ w) as [[[r|ex] w'] evs]; simpl.
  - destruct Hspec as (t & _ & Hatt & _).
    apply Forall_forall. intros a Hin.
    apply list_elem_of_lookup in Hin as [i Hi].
    destruct (Forall2_lookup_r _ _ _ _ _ Hatt Hi) as (p & Hp & Hreq).
    exists p. split; [|done]. by eapply list_elem_of_lookup_2.
  - destruct Hspec as (pre & post & Hpairs & HR).
    assert (∃ before, attempts_of self kind
              (_parse_msisdn_list msisdn msisdn_list) before (patches evs)
            ∧ before ⊆ sync_pairs self) as (before & Hatt & Hsub).
    { destruct ex as [msg|key|msg]; simpl in HR; [| |done].
      - destruct HR as (_ & before & p & earlier & a & detail & -> & Hpat & Hatt
                        & Hreq & _).
        exists (before ++ [p]). rewrite Hpat. split.
        + by apply attempts_of_snoc.
        + rewrite Hpairs. intros x Hx. apply elem_of_app. by left.
      - destruct HR as (before & p & -> & Hatt & _).
        exists before. split; [done |]. rewrite Hpairs. intros x Hx.
        apply elem_of_app. left. apply elem_of_app. by left. }
    apply Forall_forall. intros a Hin.
    apply list_elem_of_lookup in Hin as [i Hi].
    destruct (Forall2_lookup_r _ _ _ _ _ Hatt Hi) as (p & Hp & Hreq).
    exists p. split; [|done]. apply Hsub. by eapply list_elem_of_lookup_2.
Qed.

Abbreviation delete_request_for := (delete_request_for self).
Abbreviation create_request_for := (create_request_for self).

Lemma set_truthy_false (s : gset string) : set_truthy s = false → s = ∅.
Proof.
  unfold set_truthy. destruct (elements s) eqn:He; [|done].
  intros _. by apply elements_empty_inv in He as ->%leibniz_equiv.
Qed.

Lemma update_except_patches (e : Exn) (results : UpdateTree) (w : World) :
  ∃ o, update_except self e results w = (o, w, []).
Proof.
  unfold update_except. destruct e; try by eexists.
  destruct (strict_mode self); by eexists.
Qed.

Lemma delete_phase_patches (to_delete : gset string) (results : UpdateTree)
    (w : World) :
  (∀ m, m ∈ to_delete → clean_entry m) →
  Forall (delete_request_for to_delete)
    (patches (update_delete_phase http_patch self to_delete results w).2).
Proof.
  intros Hclean. unfold update_delete_phase.
  destruct (set_truthy to_delete); [|constructor].
  unfold mbind, M_bind, bind, try_.
  pose proof (sync_attempts DELETE None
                (Some (PyStr.join "," (elements to_delete))) w) as Hatt.
  rewrite parse_join_elements in Hatt by done.
  rewrite <- delete_is_sync in Hatt.
  destruct (delete_enum_entries _ _ _ _ w) as [[[r|ex] w1] evs]; simpl in *.
  - by rewrite app_nil_r.
  - destruct (update_except_patches ex results w1) as [o ->].
    by rewrite app_nil_r.
Qed.

Lemma create_phase_patches (to_create : gset string) (results : UpdateTree)
    (w : World) :
  (∀ m, m ∈ to_create → clean_entry m) →
  Forall (create_request_for to_create)
    (patches (update_create_phase http_patch self to_create results w).2).
Proof.
  intros Hclean. unfold update_create_phase.
  destruct (set_truthy to_create); [|constructor].
  unfold mbind, M_bind, bind, try_.
  pose proof (sync_attempts REPLACE None
                (Some (PyStr.join "," (elements to_create))) w) as Hatt.
  rewrite parse_join_elements in Hatt by done.
  rewrite <- create_is_sync in Hatt.
  destruct (create_enum_entries _ _ _ _ w) as [[[r|ex] w1] evs]; simpl in *.
  - by rewrite app_nil_r.
  - destruct (update_except_patches ex results w1) as [o ->].
    by rewrite app_nil_r.
Qed.

Lemma phase_empty_delete (results : UpdateTree) (w : World) :
  update_delete_phase http_patch self ∅ results w = (Return results, w, []).
Proof. reflexivity. Qed.

Lemma phase_empty_create (results : UpdateTree) (w : World) :
  update_create_phase http_patch self ∅ results w = (Return results, w, []).
Proof. reflexivity. Qed.

(** The attempts of an update: those of the delete phase, for the numbers
    to delete, then those of the create phase, for the numbers to create. *)
Lemma update_patches (old_msisdn old_msisdn_list new_msisdn new_msisdn_list
    : option string) (w : World) :
  let old_set := msisdn_set old_msisdn old_msisdn_list in
  let new_set := msisdn_set new_msisdn new_msisdn_list in
  ∃ deletes creates,
    patches (update_enum_entries http_patch self old_msisdn old_msisdn_list
               new_msisdn new_msisdn_list w).2 = deletes ++ creates
    ∧ Forall (delete_request_for (old_set ∖ new_set)) deletes
    ∧ Forall (create_request_for (new_set ∖ old_set)) creates.
Proof.
  intros old_set new_set. unfold update_enum_entries.
  destruct (enabled self); simpl.
  2:{ exists [], []. split; [|split; constructor].
      unfold _log. by destruct (log_tool self). }
  fold old_set new_set.
  set (to_delete := old_set ∖ new_set). set (to_create := new_set ∖ old_set).
  assert (∀ m, m ∈ to_delete → clean_entry m) as Hcd.
  { intros m [Hm _]%elem_of_difference. by eapply msisdn_set_clean. }
  assert (∀ m, m ∈ to_create → clean_entry m) as Hcc.
  { intros m [Hm _]%elem_of_difference. by eapply msisdn_set_clean. }
  unfold mbind, M_bind, bind.
  destruct (log_patches self "info"
              ("ENUM update: delete " +:+ PyStr.repr_set to_delete
               +:+ ", create " +:+ PyStr.repr_set to_create) w)
    as (le & Hle & Hpl & _).
  rewrite Hle.
  pose proof (delete_phase_patches to_delete
                {| up_status := Ok; up_deleted := []; up_created := [];
                   up_errors := [] |} w Hcd) as Hdel.
  destruct (update_delete_phase _ _ to_delete _ w) as [[[r1|ex] w1] e1];
    simpl in Hdel.
  - pose proof (create_phase_patches to_create r1 w1 Hcc) as Hcr.
    destruct (update_create_phase _ _ to_create r1 w1) as [[[r2|ex] w2] e2];
      simpl in Hcr; simpl;
      exists (patches e1), (patches e2);
      rewrite !patches_app, Hpl, ?app_nil_r; done.
  - simpl. exists (patches e1), []. rewrite !patches_app, Hpl, ?app_nil_r.
    split; [done |]. split; [done | constructor].
Qed.

(** Equal sets: nothing to delete, nothing to create, no sub-call. *)
Lemma update_equal_sets (old_msisdn old_msisdn_list new_msisdn new_msisdn_list
    : option string) (w : World) :
  enabled self = true →
  msisdn_set old_msisdn old_msisdn_list = msisdn_set new_msisdn new_msisdn_list →
  update_enum_entries http_patch self old_msisdn old_msisdn_list
    new_msisdn new_msisdn_list w
  = (Return (UpdateFull {| up_status := Ok; up_deleted := []; up_created := [];
                           up_errors := [] |}), w,
     if log_tool self
     then [EvLog "info" "ENUM update: delete set(), create set()"] else []).
Proof.
  intros Hen Heq. unfold update_enum_entries. rewrite Hen, Heq. simpl.
  rewrite difference_diag_L.
  unfold mbind, M_bind, bind, _log.
  destruct (log_tool self); simpl; by rewrite phase_empty_delete, phase_empty_create.
Qed.

Lemma update_disabled (old_msisdn old_msisdn_list new_msisdn new_msisdn_list
    : option string) (w : World) :
  enabled self = false →
  update_enum_entries http_patch self old_msisdn old_msisdn_list
    new_msisdn new_msisdn_list w
  = (Return (UpdateStatus Disabled), w,
     if log_tool self
     then [EvLog "debug" "ENUM management is disabled, skipping update"] else []).
Proof.
  intros Hen. unfold update_enum_entries, _log. rewrite Hen. simpl.
  by destruct (log_tool self).
Qed.

End UpdateFacts.


(* ===================================================================== *)
(** * Properties of the reconciliation sweep                              *)
(* ===================================================================== *)

Lemma count_failed_app (l1 l2 : list (HttpRequest * HttpOutcome)) :
  count_failed (l1 ++ l2) = count_failed l1 + count_failed l2.
Proof. unfold count_failed. rewrite filter_app, length_app. lia. Qed.

Lemma count_failed_none (l : list (HttpRequest * HttpOutcome)) :
  no_failure l → count_failed l = 0.
Proof.
  unfold no_failure, count_failed. induction 1 as [|a l Ha Hl IH]; [done |].
  rewrite filter_cons_False; [done |]. rewrite Ha. by intros [? ?].
Qed.

Lemma count_failed_one (a : HttpRequest * HttpOutcome) :
  is_Some (failure_detail a.2) → count_failed [a] = 1.
Proof. intros Ha. unfold count_failed. by rewrite filter_cons_True. Qed.

Lemma count_failed_nonneg (l : list (HttpRequest * HttpOutcome)) : 0 ≤ count_failed l.
Proof. unfold count_failed. lia. Qed.

Section SweepFacts.

Context {World : Type}.
Variable http_patch : HttpRequest → World → HttpOutcome * World.
Variable getAllPaginated : Z → Z → World → DbOutcome * World.
Variable self : ENUMClient.

Lemma foldM_page_requests {A B} (f : B → A → M World B) :
  (∀ b x w, page_requests (f b x w).2 = []) →
  ∀ l b w, page_requests (foldM f b l w).2 = [].
Proof.
  intros Hf. induction l as [|x l IH]; intros b w; [done |].
  rewrite foldM_cons. specialize (Hf b x w).
  destruct (f b x w) as [[[b'|ex] w1] e1]; simpl in *; [|done].
  specialize (IH b' w1). destruct (foldM f b' l w1) as [[o w2] e2]. simpl in *.
  by rewrite page_requests_app, Hf, IH.
Qed.

Lemma sync_domain_pages (kind : ChangeType) (endpoint : Endpoint)
    (name sip : string) (ms : list string) (results : SyncTree) (domain : string)
    (w : World) :
  page_requests
    (sync_domain http_patch self kind endpoint name sip ms results domain w).2 = [].
Proof.
  unfold sync_domain. set (rrsets := map _ ms).
  pose proof (make_pdns_run http_patch endpoint domain rrsets w) as Hrun.
  destruct (request_for endpoint domain rrsets) as [req|].
  2:{ destruct Hrun as [key Hrun]. unfold mbind, M_bind, bind. by rewrite Hrun. }
  simpl in Hrun. unfold mbind, M_bind, bind at 1. rewrite Hrun.
  destruct (failure_detail _); simpl; unfold bind, _log;
    destruct (log_tool self); destruct (strict_mode self); done.
Qed.

Lemma sync_pages (kind : ChangeType) (msisdn msisdn_list : option string)
    (w : World) :
  page_requests
    (sync_enum_entries http_patch self kind msisdn msisdn_list w).2 = [].
Proof.
  unfold sync_enum_entries.
  destruct (enabled self); simpl; [|unfold _log; by destruct (log_tool self)].
  destruct (_parse_msisdn_list msisdn msisdn_list) as [|m ms] eqn:Hp;
    [unfold _log; by destruct (log_tool self) |].
  unfold mbind, M_bind, bind.
  destruct (log_patches self "info"
              (kind_start_log kind +:+ PyStr.repr_list (m :: ms)) w)
    as (le & Hle & _ & Hpg & _).
  rewrite Hle.
  pose proof (foldM_page_requests (sync_endpoint http_patch self kind (m :: ms))) as Hf.
  specialize (Hf (λ b ep w, foldM_page_requests _
                              (sync_domain_pages kind ep _ _ _) _ _ _)).
  specialize (Hf (endpoints self)
                {| st_status := Ok; st_endpoints := []; st_errors := [] |} w).
  destruct (foldM _ _ (endpoints self) w) as [[[r|ex] w1] e1]; simpl in *;
    by rewrite ?app_nil_r, page_requests_app, Hpg, Hf.
Qed.

Lemma malformed_pair (kind : ChangeType) (ms : list string) (p : Endpoint * string) :
  p ∈ sync_pairs self →
  pair_request self kind ms p = None →
  ¬ Forall well_formed (endpoints self).
Proof.
  intros Hin Hreq Hwf. unfold sync_pairs in Hin.
  apply list_elem_of_In, in_flat_map in Hin as (ep & Hep & Hp).
  apply list_elem_of_In in Hep.
  apply (proj1 (Forall_forall _ _) Hwf) in Hep as [[u Hu] [k Hk]].
  apply in_map_iff in Hp as (d & <- & _).
  unfold pair_request, request_for in Hreq. simpl in Hreq.
  by rewrite Hu, Hk in Hreq.
Qed.

(** How a call of create or delete can end, as the sweep sees it. *)
Lemma sync_cases (kind : ChangeType) (msisdn msisdn_list : option string) (w : World) :
  match sync_enum_entries http_patch self kind msisdn msisdn_list w with
  | (Return r, _, evs) =>
      (strict_mode self = true →
       count_failed (patches evs) = 0 ∧ counts_as_succeeded (sync_status r) = true)
      ∧ (counts_as_succeeded (sync_status r) = false → 0 < count_failed (patches evs))
  | (Raise (ENUMManagementError _), _, evs) =>
      strict_mode self = true ∧ count_failed (patches evs) = 1
  | (Raise (KeyError _), _, evs) => ¬ Forall well_formed (endpoints self)
  | (Raise (OtherException _), _, _) => False
  end.
Proof.
  destruct (enabled self) eqn:Hen.
  2:{ rewrite sync_disabled by done. simpl. split; [|done].
      by destruct (log_tool self). }
  destruct (decide (_parse_msisdn_list msisdn msisdn_list = [])) as [Hp|Hne].
  { rewrite sync_no_msisdns by done. simpl. split; [|done].
    by destruct (log_tool self). }
  pose proof (sync_run http_patch self kind _ msisdn msisdn_list w Hen eq_refl Hne)
    as Hspec.
  destruct (sync_enum_entries _ _ _ _ _ w) as [[[r|ex] w'] evs].
  - destruct Hspec as (t & -> & Hatt & Herr & Hst & Hstrict). simpl. split.
    + intros Hs. specialize (Hstrict Hs).
      split; [by apply count_failed_none |].
      apply (error_entries_nil self kind _ _ _ Hatt) in Hstrict.
      rewrite Herr, Hstrict in Hst. by rewrite Hst.
    + intros Hfail. rewrite Hst in Hfail.
      destruct (st_errors t) as [|e errs] eqn:He; [done |].
      unfold count_failed.
      rewrite <- (error_entries_length self kind _ _ _ Hatt), <- Herr. simpl. lia.
  - destruct Hspec as (pre & post & Hpairs & HR).
    destruct ex as [msg|key|msg]; simpl in HR; [| |done].
    + destruct HR as (Hs & before & p & earlier & a & detail & -> & Hpat & _ & _
                      & Hnf & Hd & _).
      split; [done |]. rewrite Hpat, count_failed_app, count_failed_none by done.
      rewrite count_failed_one; [done |]. by rewrite Hd.
    + destruct HR as (before & p & -> & _ & Hreq & _).
      eapply malformed_pair; [|done]. rewrite Hpairs.
      apply elem_of_app. left. apply elem_of_app. right. apply list_elem_of_here.
Qed.

Lemma create_pages (msisdn msisdn_list : option string) (w : World) :
  page_requests (create_enum_entries http_patch self msisdn msisdn_list w).2 = [].
Proof. rewrite create_is_sync. apply sync_pages. Qed.

(** One subscriber: nothing is raised, and no page is requested. *)
Lemma reconcile_subscriber_total (results : ReconcileTree) (sub : Subscriber)
    (w : World) :
  ∃ results' c w' evs,
    reconcile_subscriber http_patch self results sub w
    = (Return (results', c), w', evs)
    ∧ page_requests evs = [].
Proof.
  unfold reconcile_subscriber, mbind, M_bind, bind, try_.
  pose proof (create_pages (sub_msisdn sub) (sub_msisdn_list sub) w) as Hpg.
  destruct (create_enum_entries _ _ _ _ w) as [[[r|ex] w1] evs]; simpl in *.
  - destruct (counts_as_succeeded (sync_status r)); simpl;
      repeat eexists; by rewrite app_nil_r.
  - destruct ex; simpl; repeat eexists; by rewrite app_nil_r.
Qed.

Lemma reconcile_page_cons (results : ReconcileTree) (sub : Subscriber)
    (rest : list Subscriber) (w : World) :
  reconcile_page http_patch self results (sub :: rest) w =
  match reconcile_subscriber http_patch self results sub w with
  | (Return (results1, Normal), w1, e1) =>
      match reconcile_page http_patch self results1 rest w1 with
      | (o, w2, e2) => (o, w2, e1 ++ e2)
      end
  | (Return (results1, Abrupt e), w1, e1) =>
      (Return (results1, Abrupt e), w1, e1 ++ [])
  | (Raise ex, w1, e1) => (Raise ex, w1, e1)
  end.
Proof.
  simpl. unfold mbind, M_bind, bind.
  destruct (reconcile_subscriber _ _ _ _ w) as [[[[r1 c]|ex] w1] e1]; [|done].
  by destruct c.
Qed.

Lemma reconcile_page_total (subscribers : list Subscriber) :
  ∀ (results : ReconcileTree) (w : World),
  ∃ results' c w' evs,
    reconcile_page http_patch self results subscribers w
    = (Return (results', c), w', evs)
    ∧ page_requests evs = [].
Proof.
  induction subscribers as [|sub rest IH]; intros results w.
  - by repeat eexists.
  - rewrite reconcile_page_cons.
    destruct (reconcile_subscriber_total results sub w)
      as (r1 & c & w1 & e1 & -> & Hp1).
    destruct c as [|e].
    + destruct (IH r1 w1) as (r2 & c2 & w2 & e2 & -> & Hp2).
      repeat eexists. by rewrite page_requests_app, Hp1, Hp2.
    + repeat eexists. by rewrite app_nil_r.
Qed.

Lemma db_run (page : Z) (w : World) :
  ∃ r w' ev,
    try_ (db_getAllPaginated getAllPaginated page page_size) w
    = (Return r, w', [ev])
    ∧ page_request_of ev = Some (page, page_size)
    ∧ match (getAllPaginated page page_size w).1 with
      | DbPage subscribers => r = inl subscribers
      | DbError msg => r = inr (OtherException msg)
      end.
Proof.
  unfold try_, db_getAllPaginated.
  destruct (getAllPaginated page page_size w) as [[subs|msg] w1];
    repeat eexists; done.
Qed.

Lemma page_requests_single (ev : Event) (p : Z * Z) :
  page_request_of ev = Some p → page_requests [ev] = [p].
Proof. intros H. unfold page_requests. simpl. by rewrite H. Qed.

Lemma reconcile_pages_S (fuel : nat) (page : Z) (results : ReconcileTree) :
  reconcile_pages http_patch getAllPaginated self (S fuel) page results =
  (r ← try_ (db_getAllPaginated getAllPaginated page page_size);
   match r with
   | inr e => mret (Some (results, Abrupt e))
   | inl [] => mret (Some (results, Normal))
   | inl (sub :: rest) =>
       '(results, c) ← reconcile_page http_patch self results (sub :: rest);
       match c with
       | Abrupt e => mret (Some (results, Abrupt e))
       | Normal =>
           if page + 1 >? 10000 then
             _log self "warning" "Reconciliation stopped at page 10000";;
             mret (Some (results, Normal))
           else reconcile_pages http_patch getAllPaginated self fuel (page + 1) results
       end
   end).
Proof. reflexivity. Qed.

(** The pages from [page] on: enough fuel for the pages up to the ceiling
    gives a result, after at most that many page requests, which ask for
    consecutive pages. *)
Lemma reconcile_pages_total (fuel : nat) :
  ∀ (page : Z) (results : ReconcileTree) (w : World),
    0 ≤ page < page_ceiling →
    page_ceiling - page ≤ Z.of_nat fuel →
    ∃ results' c w' evs (n : nat),
      reconcile_pages http_patch getAllPaginated self fuel page results w
      = (Return (Some (results', c)), w', evs)
      ∧ page_requests evs = (λ i, (page + Z.of_nat i, page_size)) <$> seq 0 n
      ∧ (1 ≤ n)%nat
      ∧ Z.of_nat n ≤ page_ceiling - page.
Proof.
  unfold page_ceiling.
  induction fuel as [|fuel IH]; intros page results w Hpage Hfuel; [lia |].
  rewrite reconcile_pages_S. unfold mbind, M_bind. unfold bind at 1.
  destruct (db_run page w) as (r & w1 & ev & -> & Hev & _).
  apply page_requests_single in Hev.
  destruct r as [[|sub rest]|e].
  - exists results, Normal, w1, [ev], 1%nat.
    rewrite Hev. simpl. rewrite Z.add_0_r. split_and!; [done.. | lia | lia].
  - unfold bind.
    destruct (reconcile_page_total (sub :: rest) results w1)
      as (r2 & c & w2 & e2 & -> & Hp2).
    destruct c as [|e].
    + destruct (Z.gtb_spec (page + 1) 10000) as [Hgt|Hle].
      * destruct (log_patches self "warning"
                    "Reconciliation stopped at page 10000" w2)
          as (le & Hle & _ & Hpl & _).
        rewrite Hle. simpl.
        exists r2, Normal, w2, (ev :: e2 ++ le ++ []), 1%nat.
        rewrite app_nil_r. change (ev :: e2 ++ le) with ([ev] ++ e2 ++ le).
        rewrite !page_requests_app, Hev, Hp2, Hpl. simpl. rewrite Z.add_0_r.
        split_and!; [done.. | lia | lia].
      * destruct (IH (page + 1) r2 w2) as (r3 & c3 & w3 & e3 & n & -> & Hp3 & Hn1 & Hn);
          [lia.. |].
        exists r3, c3, w3, (ev :: e2 ++ e3), (S n).
        change (ev :: e2 ++ e3) with ([ev] ++ e2 ++ e3).
        rewrite !page_requests_app, Hev, Hp2, Hp3. simpl.
        rewrite Z.add_0_r. split_and!; [done | | lia | lia].
        f_equal. rewrite <- fmap_S_seq, <- list_fmap_compose.
        apply list_fmap_ext. intros i x _. simpl. f_equal. lia.
    + simpl. exists r2, (Abrupt e), w2, (ev :: e2 ++ []), 1%nat.
      rewrite app_nil_r. change (ev :: e2) with ([ev] ++ e2).
      rewrite !page_requests_app, Hev, Hp2. simpl. rewrite Z.add_0_r.
      split_and!; [done.. | lia | lia].
  - exists results, (Abrupt e), w1, [ev], 1%nat.
    rewrite Hev. simpl. rewrite Z.add_0_r. split_and!; [done.. | lia | lia].
Qed.

End SweepFacts.


Lemma patches_page_request (ev : Event) (p : Z * Z) :
  page_request_of ev = Some p → patches [ev] = [] ∧ logs [ev] = [].
Proof. by destruct ev. Qed.

Lemma page_slice_length (subs : list Subscriber) (page : Z) :
  0 ≤ page →
  Z.of_nat (length (page_slice subs page page_size))
  = Z.max 0 (Z.min page_size (Z.of_nat (length subs) - page * page_size)).
Proof.
  intros Hp. unfold page_slice, page_size. rewrite length_take, length_drop. lia.
Qed.

Section SweepEffect.

Context {World : Type}.
Variable http_patch : HttpRequest → World → HttpOutcome * World.
Variable getAllPaginated : Z → Z → World → DbOutcome * World.
Variable self : ENUMClient.

Abbreviation Effect := (sweep_effect self).

Lemma sweep_effect_refl (results : ReconcileTree) (evs : list Event) :
  patches evs = [] → Effect results results evs 0.
Proof.
  intros Hp. unfold sweep_effect. rewrite Hp. unfold count_failed. simpl.
  split_and!; try lia; done.
Qed.

Lemma sweep_effect_trans (r1 r2 r3 : ReconcileTree) (e1 e2 : list Event) (n1 n2 : Z) :
  Effect r1 r2 e1 n1 → Effect r2 r3 e2 n2 → Effect r1 r3 (e1 ++ e2) (n1 + n2).
Proof.
  unfold sweep_effect.
  intros (Ha1 & Ha2 & Ha3 & Ha4 & Ha5 & Ha6 & Ha7 & Ha8)
         (Hb1 & Hb2 & Hb3 & Hb4 & Hb5 & Hb6 & Hb7 & Hb8).
  rewrite patches_app, count_failed_app.
  split_and!; try lia; [congruence |].
  intros Hs. destruct (Ha8 Hs), (Hb8 Hs). lia.
Qed.

Lemma sweep_effect_events (r1 r2 : ReconcileTree) (pre e post : list Event) (n : Z) :
  patches pre = [] → patches post = [] →
  Effect r1 r2 e n → Effect r1 r2 (pre ++ e ++ post) n.
Proof.
  intros Hpre Hpost. unfold sweep_effect.
  by rewrite !patches_app, Hpre, Hpost, app_nil_r.
Qed.

Hypothesis endpoints_well_formed : Forall well_formed (endpoints self).

(** One subscriber, with well-formed endpoints: the sweep goes on. *)
Lemma reconcile_subscriber_effect (results : ReconcileTree) (sub : Subscriber)
    (w : World) :
  ∃ results' w' evs,
    reconcile_subscriber http_patch self results sub w
    = (Return (results', Normal), w', evs)
    ∧ Effect results results' evs 1.
Proof.
  unfold reconcile_subscriber, mbind, M_bind, bind, try_.
  pose proof (sync_cases http_patch self REPLACE (sub_msisdn sub)
                (sub_msisdn_list sub) w) as Hc.
  rewrite <- create_is_sync in Hc.
  destruct (create_enum_entries _ _ _ _ w) as [[[r|ex] w1] evs].
  - destruct Hc as [Hstrict Hfail].
    pose proof (count_failed_nonneg (patches evs)) as Hnn.
    destruct (counts_as_succeeded (sync_status r)) eqn:Hcs; simpl.
    + eexists _, _, _. split; [reflexivity |].
      unfold sweep_effect. simpl. rewrite ?app_nil_r, ?length_app. simpl.
      split_and!; try lia; [done |].
      intros Hs. destruct (Hstrict Hs) as [-> _]. lia.
    + specialize (Hfail eq_refl).
      eexists _, _, _. split; [reflexivity |].
      unfold sweep_effect. simpl. rewrite ?app_nil_r, ?length_app. simpl.
      split_and!; try lia; [done |].
      intros Hs. destruct (Hstrict Hs) as [_ ?]. congruence.
  - destruct ex as [msg|key|msg]; [|done..].
    destruct Hc as [Hs Hone]. simpl.
    eexists _, _, _. split; [reflexivity |].
    unfold sweep_effect. simpl. rewrite ?app_nil_r, ?length_app. simpl.
    split_and!; try lia; done.
Qed.

Lemma reconcile_page_effect (subscribers : list Subscriber) :
  ∀ (results : ReconcileTree) (w : World),
  ∃ results' w' evs,
    reconcile_page http_patch self results subscribers w
    = (Return (results', Normal), w', evs)
    ∧ Effect results results' evs (Z.of_nat (length subscribers))
    ∧ page_requests evs = [].
Proof.
  induction subscribers as [|sub rest IH]; intros results w.
  - exists results, w, []. split; [done |]. split; [|done].
    by apply sweep_effect_refl.
  - destruct (reconcile_page_total http_patch self (sub :: rest) results w)
      as (rt & ct & wt & et & Ht & Hpg).
    rewrite reconcile_page_cons in Ht |- *.
    destruct (reconcile_subscriber_effect results sub w) as (r1 & w1 & e1 & Hrun1 & He1).
    rewrite Hrun1 in Ht |- *.
    destruct (IH r1 w1) as (r2 & w2 & e2 & Hrun2 & He2 & _).
    rewrite Hrun2 in Ht |- *. injection Ht as <- <- <- <-.
    exists r2, w2, (e1 ++ e2). split; [done |]. split; [|done].
    replace (Z.of_nat (length (sub :: rest))) with (1 + Z.of_nat (length rest))
      by (simpl; lia).
    by eapply sweep_effect_trans.
Qed.

(** The pages from [page] on, of a source that serves the table [subs]. *)
Lemma reconcile_pages_effect (subs : list Subscriber) (fuel : nat) :
  serves getAllPaginated subs →
  ∀ (page : Z) (results : ReconcileTree) (w : World),
    0 ≤ page < page_ceiling →
    page_ceiling - page ≤ Z.of_nat fuel →
    ∃ results' w' evs,
      reconcile_pages http_patch getAllPaginated self fuel page results w
      = (Return (Some (results', Normal)), w', evs)
      ∧ Effect results results' evs (rows_from (Z.of_nat (length subs)) page).
Proof.
  intros Hserves. unfold rows_from, page_ceiling.
  induction fuel as [|fuel IH]; intros page results w Hpage Hfuel; [lia |].
  rewrite reconcile_pages_S. unfold mbind, M_bind. unfold bind at 1.
  destruct (db_run getAllPaginated page w) as (r & w1 & ev & -> & Hev & Hr).
  rewrite Hserves in Hr by lia. subst r.
  destruct (patches_page_request _ _ Hev) as [Hpev _].
  pose proof (page_slice_length subs page (proj1 Hpage)) as Hlen.
  unfold page_size in *.
  destruct (page_slice subs page 100) as [|sub rest] eqn:Hslice.
  - exists results, w1, [ev]. split; [done |].
    simpl in Hlen.
    replace (Z.max 0 _) with 0 by lia.
    by apply sweep_effect_refl.
  - unfold bind.
    destruct (reconcile_page_effect (sub :: rest) results w1)
      as (r2 & w2 & e2 & -> & He2 & _).
    destruct (Z.gtb_spec (page + 1) 10000) as [Hgt|Hle].
    + destruct (log_patches self "warning"
                  "Reconciliation stopped at page 10000" w2)
        as (le & Hle & Hpl & _).
      rewrite Hle. simpl.
      exists r2, w2, (ev :: e2 ++ le ++ []). split; [done |].
      rewrite app_nil_r. change (ev :: e2 ++ le) with ([ev] ++ e2 ++ le).
      apply sweep_effect_events; [done.. |].
      replace (Z.max 0 _) with (Z.of_nat (length (sub :: rest))) by lia. done.
    + destruct (IH (page + 1) r2 w2) as (r3 & w3 & e3 & -> & He3); [lia.. |].
      exists r3, w3, (ev :: e2 ++ e3). split; [done |].
      rewrite <- (app_nil_r (ev :: e2 ++ e3)).
      change ((ev :: e2 ++ e3) ++ []) with ([ev] ++ (e2 ++ e3) ++ []).
      apply sweep_effect_events; [done.. |].
      replace (Z.max 0 (Z.min (Z.of_nat (length subs) - page * 100)
                          ((10001 - page) * 100)))
        with (Z.of_nat (length (sub :: rest))
              + Z.max 0 (Z.min (Z.of_nat (length subs) - (page + 1) * 100)
                           ((10001 - (page + 1)) * 100))) by lia.
      by eapply sweep_effect_trans.
Qed.

End SweepEffect.


Section SweepWhole.

Context {World : Type}.
Variable http_patch : HttpRequest → World → HttpOutcome * World.
Variable getAllPaginated : Z → Z → World → DbOutcome * World.
Variable self : ENUMClient.

(** The sweep around its loop. *)
Lemma reconcile_all_run (fuel : nat) (w w1 : World) (results : ReconcileTree)
    (c : Completion) (e1 : list Event) :
  enabled self = true →
  reconcile_pages http_patch getAllPaginated self fuel 0 sweep_start w
  = (Return (Some (results, c)), w1, e1) →
  ∃ le1 le2,
    reconcile_all http_patch getAllPaginated self fuel w
    = (Return (Some (ReconcileFull (sweep_result c results))), w1, le1 ++ e1 ++ le2)
    ∧ patches le1 = [] ∧ page_requests le1 = []
    ∧ patches le2 = [] ∧ page_requests le2 = []
    ∧ (∀ l, l ∈ logs le1 ++ logs le2 → l ≠ ceiling_warning).
Proof.
  intros Hen Hrun. unfold reconcile_all. rewrite Hen. simpl.
  unfold mbind, M_bind, bind.
  destruct (log_patches self "info" "Starting ENUM reconciliation" w)
    as (le1 & Hle1 & Hp1 & Hg1 & Hl1).
  rewrite Hle1. fold sweep_start. rewrite Hrun.
  assert (∃ le, reconcile_except self c results w1
                = (Return match c with
                          | Normal => results
                          | Abrupt e =>
                              rc_append_error
                                ("Reconciliation failed: " +:+ exn_str e)
                                (rc_set_status Error results)
                          end, w1, le)
                ∧ patches le = [] ∧ page_requests le = []
                ∧ (∀ l, l ∈ logs le → l ≠ ceiling_warning))
    as (le & Hex & Hpe & Hge & Hlge).
  { destruct c as [|e]; simpl.
    - exists []. split_and!; [done.. |]. by intros l ?%not_elem_of_nil.
    - unfold mbind, M_bind, bind.
      destruct (log_patches self "error"
                  ("ENUM reconciliation failed: " +:+ exn_str e) w1)
        as (le & Hle & Hp & Hg & Hl).
      rewrite Hle. simpl. exists (le ++ []). rewrite app_nil_r.
      split_and!; [done.. |]. rewrite Hl. intros l Hin.
      destruct (log_tool self); [|by apply not_elem_of_nil in Hin].
      apply list_elem_of_singleton in Hin as ->. by intros [=]. }
  rewrite Hex. fold (sweep_result c results).
  match goal with
  | |- context [_log self "info" ?m w1] =>
      destruct (log_patches self "info" m w1) as (le2 & Hle2 & Hp2 & Hg2 & Hl2)
  end.
  rewrite Hle2. simpl.
  exists le1, (le ++ le2 ++ []). rewrite app_nil_r.
  split; [done |].
  rewrite !patches_app, !page_requests_app, !logs_app, Hp1, Hg1, Hpe, Hge, Hp2, Hg2.
  split_and!; [done.. |].
  intros l Hin. rewrite Hl1, Hl2 in Hin.
  apply elem_of_app in Hin as [Hin|Hin].
  - destruct (log_tool self); [|by apply not_elem_of_nil in Hin].
    apply list_elem_of_singleton in Hin as ->. by intros [=].
  - apply elem_of_app in Hin as [Hin|Hin]; [by apply Hlge |].
    destruct (log_tool self); [|by apply not_elem_of_nil in Hin].
    apply list_elem_of_singleton in Hin as ->. by intros [=].
Qed.

Lemma sweep_result_fields (c : Completion) (results : ReconcileTree) :
  rc_processed (sweep_result c results) = rc_processed results
  ∧ rc_succeeded (sweep_result c results) = rc_succeeded results
  ∧ rc_failed (sweep_result c results) = rc_failed results
  ∧ rc_subscribers (sweep_result c results) = rc_subscribers results
  ∧ rc_errors (sweep_result Normal results) = rc_errors results
  ∧ rc_status (sweep_result c results)
    = if rc_failed results >? 0 then Partial
      else match c with Normal => rc_status results | Abrupt _ => Error end.
Proof.
  unfold sweep_result. destruct c; simpl; destruct (rc_failed results >? 0); done.
Qed.

(** The sweep always ends with a result, after at most [page_ceiling]
    page requests, for the pages 0, 1, 2, ... in turn. *)
Lemma reconcile_all_total (fuel : nat) (w : World) :
  page_ceiling ≤ Z.of_nat fuel →
  ∃ r w' evs (n : nat),
    reconcile_all http_patch getAllPaginated self fuel w = (Return (Some r), w', evs)
    ∧ page_requests evs = (λ i, (Z.of_nat i, page_size)) <$> seq 0 n
    ∧ Z.of_nat n ≤ page_ceiling.
Proof.
  intros Hfuel. destruct (enabled self) eqn:Hen.
  - destruct (reconcile_pages_total http_patch getAllPaginated self fuel 0
                sweep_start w) as (r & c & w1 & e1 & n & Hrun & Hpg & _ & Hn);
      [unfold page_ceiling; lia | lia |].
    destruct (reconcile_all_run fuel w w1 r c e1 Hen Hrun)
      as (le1 & le2 & -> & _ & Hg1 & _ & Hg2 & _).
    exists (ReconcileFull (sweep_result c r)), w1, (le1 ++ e1 ++ le2), n.
    rewrite !page_requests_app, Hg1, Hg2, Hpg, app_nil_r. simpl.
    split_and!; [done.. | lia].
  - unfold reconcile_all. rewrite Hen. simpl.
    exists (ReconcileStatus Disabled), w,
      (if log_tool self
       then [EvLog "info" "ENUM management is disabled, skipping reconciliation"]
       else []), 0%nat.
    unfold _log, page_ceiling. destruct (log_tool self); split_and!; done.
Qed.

Hypothesis endpoints_well_formed : Forall well_formed (endpoints self).

(** A source that never returns an empty page is asked for every page up
    to the ceiling, and the warning is logged. *)
Lemma reconcile_pages_ceiling (fuel : nat) :
  never_empty getAllPaginated →
  ∀ (page : Z) (results : ReconcileTree) (w : World),
    0 ≤ page < page_ceiling →
    page_ceiling - page ≤ Z.of_nat fuel →
    ∃ results' w' evs,
      reconcile_pages http_patch getAllPaginated self fuel page results w
      = (Return (Some (results', Normal)), w', evs)
      ∧ Z.of_nat (length (page_requests evs)) = page_ceiling - page
      ∧ (log_tool self = true → ceiling_warning ∈ logs evs).
Proof.
  intros Hne. unfold page_ceiling.
  induction fuel as [|fuel IH]; intros page results w Hpage Hfuel; [lia |].
  rewrite reconcile_pages_S. unfold mbind, M_bind. unfold bind at 1.
  destruct (db_run getAllPaginated page w) as (r & w1 & ev & -> & Hev & Hr).
  destruct (Hne page w) as (sub & rest & Hdb). rewrite Hdb in Hr. subst r.
  pose proof (page_requests_single _ _ Hev) as Hpev.
  unfold bind.
  destruct (reconcile_page_effect http_patch self endpoints_well_formed
              (sub :: rest) results w1) as (r2 & w2 & e2 & -> & _ & Hg2).
  destruct (Z.gtb_spec (page + 1) 10000) as [Hgt|Hle].
  - destruct (log_patches self "warning"
                "Reconciliation stopped at page 10000" w2)
      as (le & Hle & _ & Hgl & Hll).
    rewrite Hle. simpl. exists r2, w2, (ev :: e2 ++ le ++ []).
    rewrite app_nil_r. change (ev :: e2 ++ le) with ([ev] ++ e2 ++ le).
    rewrite !page_requests_app, !logs_app, Hpev, Hg2, Hgl, Hll.
    split_and!; [done | simpl; lia |].
    intros ->. apply elem_of_app. right. apply elem_of_app. right.
    apply list_elem_of_here.
  - destruct (IH (page + 1) r2 w2) as (r3 & w3 & e3 & -> & Hn & Hw); [lia.. |].
    exists r3, w3, (ev :: e2 ++ e3).
    change (ev :: e2 ++ e3) with ([ev] ++ e2 ++ e3).
    rewrite !page_requests_app, !logs_app, Hpev, Hg2.
    split_and!; [done | simpl; lia |].
    intros Hl. specialize (Hw Hl).
    apply elem_of_app. right. apply elem_of_app. by right.
Qed.

End SweepWhole.


Section SweepCounts.

Context {World : Type}.
Variable http_patch : HttpRequest → World → HttpOutcome * World.
Variable getAllPaginated : Z → Z → World → DbOutcome * World.
Variable self : ENUMClient.



End SweepCounts.


(* ===================================================================== *)
(** * The properties of the specification                                 *)
(* ===================================================================== *)


(** C6 (amended): for every digit-only string [d] and every domain,
    [msisdn_to_enum_name d domain] is the digits of [d] in reverse order
    joined with dots, followed by a dot and the domain unchanged; for
    "491721234567" and "e164.arpa" that is
    "7.6.5.4.3.2.1.2.7.1.9.4.e164.arpa". *)
Theorem enum_name_reversed_digits (d domain : string) :
  PyStr.all PyStr.isdigit d = true →
  msisdn_to_enum_name d domain = dotted_reverse d +:+ "." +:+ domain
  ∧ msisdn_to_enum_name "491721234567" "e164.arpa"
    = "7.6.5.4.3.2.1.2.7.1.9.4.e164.arpa".
Proof.
  intros Hd. split; [|reflexivity].
  unfold msisdn_to_enum_name. by rewrite (filter_all_id _ _ Hd), join_rev_chars.
Qed.

Lemma enum_name_reversed_digits_witness :
  PyStr.all PyStr.isdigit "4917" = true
  ∧ msisdn_to_enum_name "4917" "e164.arpa" = "7.1.9.4.e164.arpa".
Proof.
  split; [reflexivity |].
  exact (proj1 (enum_name_reversed_digits "4917" "e164.arpa" eq_refl)).
Defined.

(** C6, as stated: the name the specification gives for "491721234567" is
    not the one the code computes. *)
Lemma enum_name_example_counterexample :
  msisdn_to_enum_name "491721234567" "e164.arpa" ≠ "7.6.5.4.3.2.1.7.2.9.4.e164.arpa".
Proof. vm_compute. intros [=]. Qed.


(** C8: with the engine disabled, create, delete and update return the
    status [disabled] whatever their arguments and the configured endpoints,
    leave the world as it is and send no request; the only event is the
    debug line, when a log tool is there. *)
Theorem disabled_short_circuit {World : Type}
    (http_patch : HttpRequest → World → HttpOutcome * World) (self : ENUMClient)
    (a b c d : option string) (w : World) :
  enabled self = false →
  (create_enum_entries http_patch self a b w
   = (Return (SyncStatus Disabled), w,
      if log_tool self
      then [EvLog "debug" "ENUM management is disabled, skipping create"] else [])
   ∧ patches (events (create_enum_entries http_patch self a b w)) = [])
  ∧ (delete_enum_entries http_patch self a b w
     = (Return (SyncStatus Disabled), w,
        if log_tool self
        then [EvLog "debug" "ENUM management is disabled, skipping delete"] else [])
     ∧ patches (events (delete_enum_entries http_patch self a b w)) = [])
  ∧ (update_enum_entries http_patch self a b c d w
     = (Return (UpdateStatus Disabled), w,
        if log_tool self
        then [EvLog "debug" "ENUM management is disabled, skipping update"] else [])
     ∧ patches (events (update_enum_entries http_patch self a b c d w)) = []).
Proof.
  intros Hen.
  rewrite create_is_sync, delete_is_sync, !sync_disabled, update_disabled by done.
  unfold events. simpl. destruct (log_tool self); done.
Qed.

Lemma disabled_short_circuit_witness :
  enabled Scenario.disabled_client = false
  ∧ patches (events (create_enum_entries Scenario.refuse_all Scenario.disabled_client
                       (Some "111") (Some "222,333") tt)) = []
  ∧ patches (events (update_enum_entries Scenario.refuse_all Scenario.disabled_client
                       (Some "111") None (Some "222") None tt)) = [].
Proof.
  split; [reflexivity |].
  pose proof (disabled_short_circuit Scenario.refuse_all Scenario.disabled_client
                (Some "111") (Some "222,333") (Some "222") None tt eq_refl) as H.
  split; [exact (proj2 (proj1 H)) |].
  exact (proj2 (proj2 (proj2 (disabled_short_circuit Scenario.refuse_all
           Scenario.disabled_client (Some "111") None (Some "222") None tt eq_refl)))).
Defined.




(** C3 (amended): when a create call ([kind = REPLACE]) or a delete call
    ([kind = DELETE]) with the engine enabled and at least one number
    returns, it returns a tree whose status is [ok] if and only if the error
    list is empty and [partial] if and only if it is not; the error list has
    one entry for each failed attempt, and one attempt was made for each
    configured (endpoint, domain) pair, of which there may be none. *)
Theorem status_follows_errors {World : Type}
    (http_patch : HttpRequest → World → HttpOutcome * World) (self : ENUMClient)
    (kind : ChangeType) (msisdn msisdn_list : option string) (w : World)
    (r : SyncResult) :
  let call :=
    match kind with
    | REPLACE => create_enum_entries http_patch self msisdn msisdn_list
    | DELETE => delete_enum_entries http_patch self msisdn msisdn_list
    end in
  enabled self = true →
  _parse_msisdn_list msisdn msisdn_list ≠ [] →
  outcome (call w) = Return r →
  ∃ t, r = SyncFull t
       ∧ (st_status t = Ok ↔ st_errors t = [])
       ∧ (st_status t = Partial ↔ st_errors t ≠ [])
       ∧ st_errors t = error_entries (sync_pairs self) (patches (events (call w)))
       ∧ length (st_errors t)
         = length (filter (λ a, is_Some (failure_detail a.2))
                     (patches (events (call w))))
       ∧ length (patches (events (call w))) = length (sync_pairs self).
Proof.
  intros call Hen Hne Hret.
  assert (call = sync_enum_entries http_patch self kind msisdn msisdn_list) as Hcall.
  { unfold call. by destruct kind. }
  rewrite Hcall in *. unfold events, outcome in *.
  destruct (sync_enum_entries http_patch self kind msisdn msisdn_list w)
    as [[o w'] evs] eqn:Hrun.
  simpl in Hret. subst o.
  destruct (sync_returned http_patch self kind msisdn msisdn_list w w' r evs
              Hen Hne Hrun) as (t & H1 & H2 & H3 & H4 & H5 & H6 & _).
  by exists t.
Qed.

Lemma status_follows_errors_witness :
  ∃ t, SyncFull Scenario.partial_tree = SyncFull t
       ∧ (st_status t = Partial ↔ st_errors t ≠ [])
       ∧ length (st_errors t) = 1%nat.
Proof.
  destruct (status_follows_errors Scenario.refuse_all
              (Scenario.client false [Scenario.pdns1]) REPLACE (Some "111") None tt
              (SyncFull Scenario.partial_tree) eq_refl)
    as (t & Ht & _ & Hp & _ & Hlen & _).
  - vm_compute. intros [=].
  - vm_compute. reflexivity.
  - exists t. split; [exact Ht |]. split; [exact Hp |].
    rewrite Hlen. vm_compute. reflexivity.
Defined.

(** C3, as stated: with no endpoint configured a create call for one number
    returns the status [ok] with an empty error list although no attempt was
    made. *)
Lemma status_ok_without_attempt_counterexample :
  ∃ t evs,
    create_enum_entries Scenario.accept_all (Scenario.client false [])
      (Some "111") None tt = (Return (SyncFull t), tt, evs)
    ∧ ¬ (st_status t = Ok ↔ st_errors t = [] ∧ patches evs ≠ []).
Proof.
  eexists _, _. split; [vm_compute; reflexivity |].
  simpl. intros [H _]. by destruct (H eq_refl) as [_ ?].
Qed.


(** The concrete worlds meet the assumptions made of a well-behaved one. *)
Lemma pdns1_well_formed : Forall well_formed [Scenario.pdns1].
Proof. apply Forall_singleton. split; eauto. Qed.

Lemma paged_serves (subs : list Subscriber) : serves (Scenario.paged subs) subs.
Proof. intros page w _. reflexivity. Qed.

Lemma endless_never_empty (sub : Subscriber) : never_empty (Scenario.endless sub).
Proof. intros page w. by exists sub, []. Qed.

(** C4, at the failing input: one subscriber whose create returns
    [partial], then a source that raises on the next page.  The exception is
    caught, the diagnostic is appended and a result is returned, but its
    status is [partial]: the test on ['failed'] after the [except] clause
    overwrites the [error] the clause has just set. *)
Theorem sweep_error_overwritten :
  ∃ t evs,
    reconcile_all Scenario.refuse_all
      (Scenario.failing_after [Scenario.sub_refused])
      (Scenario.client false [Scenario.pdns1]) (Z.to_nat 10001) tt
    = (Return (Some (ReconcileFull t)), tt, evs)
    ∧ EvGetAllPaginated 1 100 (DbError "db down") ∈ evs
    ∧ rc_errors t = ["Reconciliation failed: db down"]
    ∧ rc_processed t = 1 ∧ rc_failed t = 1
    ∧ rc_status t = Partial
    ∧ rc_status t ≠ Error.
Proof.
  eexists _, _. split; [vm_compute; reflexivity |].
  split_and!; try reflexivity; [|done].
  apply list_elem_of_In. vm_compute. tauto.
Qed.

(** C5 (amended): whatever the subscriber source does, a sweep with fuel
    for 10,001 iterations ends with a result after at most 10,001 page
    requests, made for the pages 0, 1, 2, ... of 100 rows; and when the
    source never returns an empty page (and the endpoints are well formed,
    the engine enabled) exactly 10,001 pages are requested and the warning
    is logged by the log tool. *)
Theorem sweep_page_ceiling {World : Type}
    (http_patch : HttpRequest → World → HttpOutcome * World)
    (getAllPaginated : Z → Z → World → DbOutcome * World)
    (self : ENUMClient) (fuel : nat) (w : World) :
  10001 ≤ Z.of_nat fuel →
  ∃ r (n : nat),
    outcome (reconcile_all http_patch getAllPaginated self fuel w) = Return (Some r)
    ∧ page_requests (events (reconcile_all http_patch getAllPaginated self fuel w))
      = (λ i, (Z.of_nat i, 100)) <$> seq 0 n
    ∧ Z.of_nat n ≤ 10001
    ∧ (enabled self = true → Forall well_formed (endpoints self) →
       never_empty getAllPaginated →
       Z.of_nat n = 10001
       ∧ (log_tool self = true →
          ("warning", "Reconciliation stopped at page 10000")
            ∈ logs (events (reconcile_all http_patch getAllPaginated self fuel w)))).
Proof.
  intros Hfuel.
  destruct (reconcile_all_total http_patch getAllPaginated self fuel w Hfuel)
    as (r & w' & evs & n & Hrun & Hpg & Hn).
  exists r, n. unfold outcome, events. rewrite Hrun. simpl.
  split_and!; [done.. |].
  intros Hen Hwf Hne.
  destruct (reconcile_pages_ceiling http_patch getAllPaginated self Hwf fuel Hne 0
              sweep_start w) as (r1 & w1 & e1 & Hloop & Hlen & Hwarn);
    [unfold page_ceiling; lia.. |].
  destruct (reconcile_all_run http_patch getAllPaginated self fuel w w1 r1 Normal e1
              Hen Hloop) as (le1 & le2 & Hrun' & _ & Hg1 & _ & Hg2 & _).
  rewrite Hrun in Hrun'. injection Hrun' as _ _ ->.
  rewrite !page_requests_app, Hg1, Hg2, app_nil_r in Hpg. simpl in Hpg.
  rewrite Hpg, length_fmap, length_seq in Hlen. unfold page_ceiling in Hlen.
  split; [lia |].
  intros Hl. rewrite !logs_app. specialize (Hwarn Hl).
  apply elem_of_app. right. apply elem_of_app. by left.
Qed.

Lemma sweep_page_ceiling_witness :
  10001 ≤ Z.of_nat (Z.to_nat 10001)
  ∧ ∃ r (n : nat),
      outcome (reconcile_all Scenario.accept_all (Scenario.endless Scenario.sub_idle)
                 (Scenario.client true [Scenario.pdns1]) (Z.to_nat 10001) tt)
      = Return (Some r)
      ∧ Z.of_nat n = 10001
      ∧ ("warning", "Reconciliation stopped at page 10000")
          ∈ logs (events (reconcile_all Scenario.accept_all
                            (Scenario.endless Scenario.sub_idle)
                            (Scenario.client true [Scenario.pdns1])
                            (Z.to_nat 10001) tt)).
Proof.
  assert (10001 ≤ Z.of_nat (Z.to_nat 10001)) as H by lia.
  split; [exact H |].
  destruct (sweep_page_ceiling Scenario.accept_all (Scenario.endless Scenario.sub_idle)
              (Scenario.client true [Scenario.pdns1]) (Z.to_nat 10001) tt H)
    as (r & n & Hr & _ & _ & Hceil).
  destruct (Hceil eq_refl pdns1_well_formed (endless_never_empty Scenario.sub_idle))
    as [Hn Hw].
  exists r, n. split; [exact Hr |]. split; [exact Hn | exact (Hw eq_refl)].
Defined.

(** C5, as stated: a source that never returns an empty page is asked for
    10,001 pages, one more than 10,000. *)
Lemma sweep_page_ceiling_counterexample :
  ¬ (Z.of_nat (length (page_requests
                         (events (reconcile_all Scenario.accept_all
                                    (Scenario.endless Scenario.sub_idle)
                                    (Scenario.quiet (Scenario.client false []))
                                    (Z.to_nat 10001) tt)))) ≤ 10000).
Proof.
  assert (Z.of_nat (length (page_requests
                         (events (reconcile_all Scenario.accept_all
                                    (Scenario.endless Scenario.sub_idle)
                                    (Scenario.quiet (Scenario.client false []))
                                    (Z.to_nat 10001) tt)))) = 10001) as ->.
  { vm_compute. reflexivity. }
  lia.
Qed.








(* ===================================================================== *)
(** * Further properties of the codec and the normaliser                  *)
(* ===================================================================== *)

Lemma length_app_str (a b : string) :
  String.length (a +:+ b) = (String.length a + String.length b)%nat.
Proof. induction a as [|c a IH]; [done |]. rewrite app_cons. simpl. by rewrite IH. Qed.

Lemma app_inv_tail_str (a b s : string) : a +:+ s = b +:+ s → a = b.
Proof.
  revert b. induction a as [|x a IH]; intros [|y b] H.
  - done.
  - apply (f_equal String.length) in H. rewrite !length_app_str in H. simpl in H. lia.
  - apply (f_equal String.length) in H. rewrite !length_app_str in H. simpl in H. lia.
  - rewrite !app_cons in H. injection H as -> H. by rewrite (IH b H).
Qed.

Lemma split_single_sep (sep : ascii) (s : string) :
  without_char sep s → PyStr.split sep s = [s].
Proof.
  unfold without_char. induction s as [|c s IH]; simpl; [done |].
  intros [Hc Hs]%andb_prop. apply negb_true_iff in Hc. rewrite Hc.
  by rewrite (IH Hs).
Qed.

Lemma split_app_sep (sep : ascii) (x rest : string) :
  without_char sep x →
  PyStr.split sep (x +:+ String sep rest) = x :: PyStr.split sep rest.
Proof.
  unfold without_char. induction x as [|c x IH].
  - intros _. change ("" +:+ String sep rest) with (String sep rest). simpl.
    by rewrite Ascii.eqb_refl.
  - simpl PyStr.all. intros [Hc Hs]%andb_prop. apply negb_true_iff in Hc.
    rewrite app_cons. simpl PyStr.split. rewrite Hc. by rewrite (IH Hs).
Qed.

Lemma chars_inj (s t : string) : PyStr.chars s = PyStr.chars t → s = t.
Proof.
  revert t. induction s as [|c s IH]; intros [|d t] H; simpl in H; try done.
  injection H as -> H. by rewrite (IH t H).
Qed.

Lemma digit_not_dot (c : ascii) : PyStr.isdigit c = true → Ascii.eqb c "." = false.
Proof.
  intros Hc. destruct (Ascii.eqb_spec c ".") as [->|]; [|done].
  by vm_compute in Hc.
Qed.

Lemma chars_digits_no_dot (s : string) :
  PyStr.all PyStr.isdigit s = true → Forall (without_char ".") (PyStr.chars s).
Proof.
  induction s as [|c s IH]; simpl; [constructor |].
  intros [Hc Hs]%andb_prop. constructor; [|by apply IH].
  unfold without_char. simpl. by rewrite (digit_not_dot c Hc).
Qed.

Lemma chars_not_empty (s : string) : "" ∉ PyStr.chars s.
Proof.
  induction s as [|c s IH]; simpl.
  - apply not_elem_of_nil.
  - intros [H|H]%elem_of_cons; [done | by apply IH].
Qed.

(** Splitting a dotted name: the labels that were joined, then those of what
    follows. *)
Lemma split_join_dot (labels : list string) (domain : string) :
  Forall (without_char ".") labels →
  PyStr.split "." (PyStr.join "." labels +:+ "." +:+ domain)
  = match labels with [] => [""] | _ :: _ => labels end ++ PyStr.split "." domain.
Proof.
  induction labels as [|x l IH]; intros Hall.
  - change (PyStr.join "." [] +:+ "." +:+ domain) with ("" +:+ String "." domain).
    by rewrite split_app_sep.
  - apply Forall_cons in Hall as [Hx Hl].
    destruct l as [|y l].
    + change (PyStr.join "." [x] +:+ "." +:+ domain) with (x +:+ String "." domain).
      by rewrite split_app_sep.
    + change (PyStr.join "." (x :: y :: l))
        with (x +:+ "." +:+ PyStr.join "." (y :: l)).
      rewrite !app_assoc_str.
      change ("." +:+ PyStr.join "." (y :: l) +:+ "." +:+ domain)
        with (String "." (PyStr.join "." (y :: l) +:+ "." +:+ domain)).
      rewrite split_app_sep by done. rewrite (IH Hl). done.
Qed.

Lemma rev_chars_labels (clean : string) :
  match rev (PyStr.chars clean) with [] => [""] | _ :: _ => rev (PyStr.chars clean) end
  = digit_labels clean.
Proof.
  destruct clean as [|c s]; [done |]. unfold digit_labels.
  destruct (rev (PyStr.chars (String c s))) eqn:Hr; [|done].
  apply (f_equal length) in Hr. rewrite length_rev in Hr. done.
Qed.

(** X3: an ENUM name splits at its dots into one label for each digit of the
    number, last digit first (a single empty label when the number has no
    digit), followed by the labels of the domain. *)
Theorem enum_name_labels (msisdn domain : string) :
  PyStr.split "." (msisdn_to_enum_name msisdn domain)
  = digit_labels (PyStr.filter PyStr.isdigit msisdn) ++ PyStr.split "." domain.
Proof.
  unfold msisdn_to_enum_name. rewrite split_join_dot.
  - by rewrite rev_chars_labels.
  - apply Forall_rev, chars_digits_no_dot, all_filter.
Qed.

Lemma elem_of_rev_list {A} (x : A) (l : list A) : x ∈ rev l ↔ x ∈ l.
Proof. rewrite !list_elem_of_In. symmetry. apply in_rev. Qed.

Lemma digit_labels_inj (s t : string) : digit_labels s = digit_labels t → s = t.
Proof.
  destruct s as [|c s], t as [|d t]; unfold digit_labels; intros H; [done | | |].
  - exfalso. apply (chars_not_empty (String d t)).
    apply elem_of_rev_list. rewrite <- H. apply list_elem_of_here.
  - exfalso. apply (chars_not_empty (String c s)).
    apply elem_of_rev_list. rewrite H. apply list_elem_of_here.
  - apply chars_inj. apply (f_equal (@rev string)) in H.
    by rewrite !rev_involutive in H.
Qed.

(** Under one domain, numbers with the same ENUM name have the same digits. *)
Lemma same_name_same_digits (m1 m2 domain : string) :
  msisdn_to_enum_name m1 domain = msisdn_to_enum_name m2 domain →
  PyStr.filter PyStr.isdigit m1 = PyStr.filter PyStr.isdigit m2.
Proof.
  intros H. apply (f_equal (PyStr.split ".")) in H.
  unfold msisdn_to_enum_name in H.
  rewrite !split_join_dot, !rev_chars_labels in H
    by apply Forall_rev, chars_digits_no_dot, all_filter.
  apply app_inv_tail in H. by apply digit_labels_inj.
Qed.

(** X2: under one domain two numbers have the same ENUM name exactly when
    they have the same digits. *)
Theorem enum_name_injective (m1 m2 domain : string) :
  msisdn_to_enum_name m1 domain = msisdn_to_enum_name m2 domain
  ↔ PyStr.filter PyStr.isdigit m1 = PyStr.filter PyStr.isdigit m2.
Proof.
  split.
  - apply same_name_same_digits.
  - intros H. unfold msisdn_to_enum_name. by rewrite H.
Qed.

(** X1: normalising is idempotent, and a number that is normalised first
    gives the same ENUM name, the same NAPTR content and the same parsed
    list as the raw one. *)
Theorem normalised_input_same_output (self : ENUMClient)
    (m domain sip_domain : string) (msisdn_list : option string) :
  let clean := PyStr.filter PyStr.isdigit m in
  PyStr.filter PyStr.isdigit clean = clean
  ∧ msisdn_to_enum_name clean domain = msisdn_to_enum_name m domain
  ∧ generate_naptr_content self clean sip_domain
    = generate_naptr_content self m sip_domain
  ∧ _parse_msisdn_list (Some clean) msisdn_list
    = _parse_msisdn_list (Some m) msisdn_list.
Proof.
  intros clean. subst clean. split_and!.
  - apply filter_filter.
  - unfold msisdn_to_enum_name. by rewrite filter_filter.
  - unfold generate_naptr_content. by rewrite filter_filter.
  - rewrite !parse_unfold.
    assert (primary_part (Some (PyStr.filter PyStr.isdigit m))
            = primary_part (Some m)) as ->; [|done].
    unfold primary_part. rewrite filter_filter.
    destruct (PyStr.truthy (PyStr.filter PyStr.isdigit m)) eqn:Ht.
    + by destruct m.
    + by destruct (PyStr.truthy m).
Qed.

(** X4: under one SIP domain two numbers have the same NAPTR content
    exactly when they have the same digits. *)
Theorem naptr_content_injective (self : ENUMClient) (m1 m2 sip_domain : string) :
  generate_naptr_content self m1 sip_domain = generate_naptr_content self m2 sip_domain
  ↔ PyStr.filter PyStr.isdigit m1 = PyStr.filter PyStr.isdigit m2.
Proof.
  split.
  - unfold generate_naptr_content. intros H.
    do 14 apply (inj (String.app _)) in H.
    by apply app_inv_tail_str in H.
  - intros H. unfold generate_naptr_content. by rewrite H.
Qed.


Lemma parse_entry_elem (acc : list string) (e m : string) :
  m ∈ parse_entry acc e
  ↔ m ∈ acc ∨ (m ≠ "" ∧ m = PyStr.filter PyStr.isdigit e).
Proof.
  unfold parse_entry. rewrite filter_strip.
  destruct (PyStr.truthy (PyStr.filter PyStr.isdigit e)) eqn:Ht; simpl.
  - apply truthy_true in Ht.
    destruct (PyStr.mem _ acc) eqn:Hm; simpl.
    + apply mem_true in Hm. split; [auto |]. intros [?|[_ ->]]; done.
    + rewrite elem_of_app, list_elem_of_singleton. split.
      * intros [?| ->]; auto.
      * intros [?|[_ ->]]; auto.
  - split; [auto |]. intros [?|[Hne ->]]; [done |].
    apply truthy_true in Hne. congruence.
Qed.

Lemma parse_fold_elem (es acc : list string) (m : string) :
  m ∈ fold_left parse_entry es acc
  ↔ m ∈ acc ∨ (m ≠ "" ∧ ∃ e, e ∈ es ∧ m = PyStr.filter PyStr.isdigit e).
Proof.
  revert acc. induction es as [|e es IH]; intros acc; simpl.
  - split; [auto |]. intros [?|(_ & e & He & _)]; [done |].
    by apply not_elem_of_nil in He.
  - rewrite IH, parse_entry_elem. split.
    + intros [[?|[Hne ->]]|(Hne & e' & He' & ->)]; auto.
      * right. split; [done |]. exists e. split; [apply list_elem_of_here | done].
      * right. split; [done |]. exists e'. split; [by apply list_elem_of_further | done].
    + intros [?|(Hne & e' & [->|He']%elem_of_cons & ->)]; auto.
      right. split; [done |]. by exists e'.
Qed.

Lemma primary_part_elem (msisdn : option string) (m : string) :
  m ∈ primary_part msisdn
  ↔ m ≠ "" ∧ ∃ p, msisdn = Some p ∧ m = PyStr.filter PyStr.isdigit p.
Proof.
  unfold primary_part. destruct msisdn as [p|].
  2:{ split; [by intros ?%not_elem_of_nil | by intros (_ & p & ? & _)]. }
  destruct (PyStr.truthy p) eqn:Hp.
  - destruct (PyStr.truthy (PyStr.filter PyStr.isdigit p)) eqn:Ht.
    + apply truthy_true in Ht. rewrite list_elem_of_singleton. split.
      * intros ->. split; [done |]. by exists p.
      * by intros (_ & p' & [= <-] & ->).
    + split; [by intros ?%not_elem_of_nil |].
      intros (Hne & p' & [= <-] & ->). apply truthy_true in Hne. congruence.
  - destruct p; [|done]. split; [by intros ?%not_elem_of_nil |].
    by intros (Hne & p' & [= <-] & ->).
Qed.

(** Membership in the parsed list. *)
Lemma parse_elem (msisdn msisdn_list : option string) (m : string) :
  m ∈ _parse_msisdn_list msisdn msisdn_list
  ↔ m ≠ ""
    ∧ ((∃ p, msisdn = Some p ∧ m = PyStr.filter PyStr.isdigit p)
       ∨ (∃ l e, msisdn_list = Some l ∧ e ∈ PyStr.split "," l
                 ∧ m = PyStr.filter PyStr.isdigit e)).
Proof.
  rewrite parse_unfold.
  assert (m ∈ primary_part msisdn → m ≠ "") as Hprim.
  { by intros [? _]%primary_part_elem. }
  destruct msisdn_list as [l|].
  - destruct (PyStr.truthy l) eqn:Hl.
    + rewrite parse_fold_elem, primary_part_elem. split.
      * intros [[Hne ?]|(Hne & e & He & ->)]; [by auto |].
        split; [done |]. right. by exists l, e.
      * intros [Hne [?|(l' & e & [= <-] & He & ->)]]; [by auto |].
        right. split; [done |]. by exists e.
    + destruct l; [|done]. rewrite primary_part_elem. split.
      * intros [Hne ?]. auto.
      * intros [Hne [?|(l' & e & [= <-] & He & ->)]]; [by auto |].
        simpl in He. apply list_elem_of_singleton in He as ->. done.
  - rewrite primary_part_elem. split.
    + intros [Hne ?]. auto.
    + by intros [Hne [?|(l' & e & [=] & _)]].
Qed.

(** X5: the parsed list has exactly the members the inputs give: a string is
    in it when it is not empty and is the digits of the primary number or of
    one of the comma-separated entries of the list; nothing is lost and
    nothing is made up. *)
Theorem parse_membership (msisdn msisdn_list : option string) (m : string) :
  m ∈ _parse_msisdn_list msisdn msisdn_list
  ↔ m ≠ "" ∧ m ∈ map (PyStr.filter PyStr.isdigit) (candidates msisdn msisdn_list).
Proof.
  rewrite parse_elem. unfold candidates.
  rewrite map_app, elem_of_app, !list_elem_of_In, !in_map_iff.
  split; intros [Hne H]; (split; [done |]).
  - destruct H as [(p & -> & ->)|(l & e & -> & He & ->)].
    + left. exists p. split; [done |]. by left.
    + right. exists e. split; [done |]. by apply list_elem_of_In.
  - destruct H as [(p & <- & Hp)|(e & <- & He)].
    + left. exists p. split; [|done]. destruct msisdn; [|done].
      by destruct Hp as [->|[]].
    + right. destruct msisdn_list as [l|]; [|done].
      exists l, e. split_and!; [done | by apply list_elem_of_In | done].
Qed.

(** X6: a parsed list that is joined with commas and parsed again, as update
    does with its two sets, comes back unchanged. *)
Theorem parse_round_trip (msisdn msisdn_list : option string) :
  _parse_msisdn_list None
    (Some (PyStr.join "," (_parse_msisdn_list msisdn msisdn_list)))
  = _parse_msisdn_list msisdn msisdn_list.
Proof.
  destruct (parse_inv msisdn msisdn_list) as [Hnd Hall]. by apply parse_join.
Qed.

(** Filtering the digits of a string filters those of its fields. *)
Lemma filter_split (s : string) :
  PyStr.filter PyStr.isdigit s
  = foldr String.app "" (map (PyStr.filter PyStr.isdigit) (PyStr.split "," s)).
Proof.
  induction s as [|c s IH]; [done |]. simpl PyStr.split.
  destruct (Ascii.eqb_spec c ",") as [->|Hc].
  - simpl. by rewrite IH.
  - pose proof (split_cons_nonempty "," s) as Hne.
    destruct (PyStr.split "," s) as [|x xs]; [done |].
    simpl in *. destruct (PyStr.isdigit c); rewrite IH; done.
Qed.

Lemma concat_empty (l : list string) :
  foldr String.app "" l = "" ↔ Forall (λ s, s = "") l.
Proof.
  induction l as [|x l IH]; simpl.
  - split; [constructor | done].
  - split.
    + intros H. destruct x; [|done]. constructor; [done |]. by apply IH.
    + intros [-> Hl]%Forall_cons. by apply IH.
Qed.

(** A list of numbers parses to nothing exactly when it holds no digit. *)
Lemma parse_empty_iff (msisdn msisdn_list : option string) :
  _parse_msisdn_list msisdn msisdn_list = []
  ↔ PyStr.filter PyStr.isdigit (default "" msisdn) = ""
    ∧ PyStr.filter PyStr.isdigit (default "" msisdn_list) = "".
Proof.
  split.
  - intros Hp. split.
    + destruct msisdn as [p|]; [|done]. simpl.
      destruct (PyStr.filter PyStr.isdigit p) as [|c s] eqn:Hf; [done |].
      assert (String c s ∈ _parse_msisdn_list (Some p) msisdn_list) as Hin.
      { apply parse_elem. split; [done |]. left. by exists p. }
      rewrite Hp in Hin. by apply not_elem_of_nil in Hin.
    + destruct msisdn_list as [l|]; [|done]. simpl.
      rewrite filter_split. apply concat_empty, Forall_forall.
      intros s Hs. apply list_elem_of_In, in_map_iff in Hs as (e & <- & He).
      apply list_elem_of_In in He.
      destruct (PyStr.filter PyStr.isdigit e) as [|c s] eqn:Hf; [done |].
      assert (String c s ∈ _parse_msisdn_list msisdn (Some l)) as Hin.
      { apply parse_elem. split; [done |]. right. by exists l, e. }
      rewrite Hp in Hin. by apply not_elem_of_nil in Hin.
  - intros [Hp Hl].
    destruct (_parse_msisdn_list msisdn msisdn_list) as [|m ms] eqn:Hparse; [done |].
    assert (m ∈ _parse_msisdn_list msisdn msisdn_list) as Hin
      by (rewrite Hparse; apply list_elem_of_here).
    apply parse_elem in Hin as [Hne [(p & -> & ->)|(l & e & -> & He & ->)]].
    + done.
    + simpl in Hl. rewrite filter_split in Hl.
      apply concat_empty in Hl.
      destruct Hne. apply (proj1 (Forall_forall _ _) Hl).
      apply list_elem_of_In, in_map. by apply list_elem_of_In.
Qed.


(* ===================================================================== *)
(** * Further properties of create and delete                             *)
(* ===================================================================== *)

Lemma sync_call_eq {World : Type}
    (http_patch : HttpRequest → World → HttpOutcome * World) (self : ENUMClient)
    (kind : ChangeType) :
  sync_call http_patch self kind = sync_enum_entries http_patch self kind.
Proof. by destruct kind. Qed.

Lemma failure_detail_message (out : HttpOutcome) (detail : string) :
  failure_detail out = Some detail → pdns_failure_message detail.
Proof.
  destruct out as [code text|e]; simpl.
  - destruct (accepted code) eqn:Hc; [done |]. intros [= <-]. left. by exists code, text.
  - intros [= <-]. right. by exists e.
Qed.

Lemma error_entries_form (ps : list (Endpoint * string))
    (attempts : list (HttpRequest * HttpOutcome)) :
  Forall (λ e, ∃ p detail,
            p ∈ ps ∧ pdns_failure_message detail
            ∧ e = endpoint_name_of p.1 +:+ "/" +:+ p.2 +:+ ": " +:+ detail)
    (error_entries ps attempts).
Proof.
  unfold error_entries. revert attempts.
  induction ps as [|p ps IH]; intros [|a attempts]; simpl; try constructor.
  assert (Forall (λ e, ∃ p0 detail,
                    p0 ∈ p :: ps ∧ pdns_failure_message detail
                    ∧ e = endpoint_name_of p0.1 +:+ "/" +:+ p0.2 +:+ ": " +:+ detail)
            (omap (λ pa, error_entry pa.1 pa.2) (zip ps attempts))) as Hrest.
  { eapply Forall_impl; [apply IH |]. intros e (p0 & d & Hin & Hm & ->).
    exists p0, d. split; [by apply list_elem_of_further | done]. }
  unfold error_entry at 1. simpl.
  destruct (failure_detail a.2) as [d|] eqn:Hd; simpl; [|done].
  constructor; [|done]. exists p, d.
  split; [apply list_elem_of_here |]. split; [by eapply failure_detail_message | done].
Qed.

(** X8: every entry of the error list of a returned create or delete result
    is "<endpoint>/<domain>: " for a configured pair followed by one of the
    two messages of the transport, "PowerDNS API error: <code> - <body>" for a
    status other than 200 and 204 or "PowerDNS request failed: <exception>";
    the error is never the missing value [None]. *)
Theorem error_list_entries {World : Type}
    (http_patch : HttpRequest → World → HttpOutcome * World) (self : ENUMClient)
    (kind : ChangeType) (msisdn msisdn_list : option string) (w : World)
    (t : SyncTree) :
  outcome (sync_call http_patch self kind msisdn msisdn_list w)
  = Return (SyncFull t) →
  Forall (λ e, ∃ p detail,
            p ∈ sync_pairs self ∧ pdns_failure_message detail
            ∧ e = endpoint_name_of p.1 +:+ "/" +:+ p.2 +:+ ": " +:+ detail)
    (st_errors t).
Proof.
  rewrite sync_call_eq. unfold outcome. intros Hret.
  destruct (enabled self) eqn:Hen; [|rewrite sync_disabled in Hret by done; done].
  destruct (decide (_parse_msisdn_list msisdn msisdn_list = [])) as [Hp|Hne];
    [rewrite sync_no_msisdns in Hret by done; done |].
  pose proof (sync_run http_patch self kind _ msisdn msisdn_list w Hen eq_refl Hne)
    as Hspec.
  destruct (sync_enum_entries _ _ _ _ _ w) as [[o w'] evs]. simpl in Hret. subst o.
  destruct Hspec as (t' & [= <-] & _ & -> & _). apply error_entries_form.
Qed.

Lemma error_list_entries_witness :
  Forall (λ e, ∃ p detail,
            p ∈ sync_pairs (Scenario.client false [Scenario.pdns1])
            ∧ pdns_failure_message detail
            ∧ e = endpoint_name_of p.1 +:+ "/" +:+ p.2 +:+ ": " +:+ detail)
    (st_errors Scenario.partial_tree).
Proof.
  apply (error_list_entries Scenario.refuse_all (Scenario.client false [Scenario.pdns1])
           REPLACE (Some "111") None tt Scenario.partial_tree).
  vm_compute. reflexivity.
Defined.

(** X7: with the engine enabled, create and delete answer [no_msisdns]
    exactly when neither the primary number nor the list holds a digit; then
    nothing is sent and the world is left as it is. *)
Theorem no_digits_no_request {World : Type}
    (http_patch : HttpRequest → World → HttpOutcome * World) (self : ENUMClient)
    (kind : ChangeType) (msisdn msisdn_list : option string) (w : World) :
  enabled self = true →
  let run := sync_call http_patch self kind msisdn msisdn_list w in
  let no_digit :=
    PyStr.filter PyStr.isdigit (default "" msisdn) = ""
    ∧ PyStr.filter PyStr.isdigit (default "" msisdn_list) = "" in
  (outcome run = Return (SyncStatus NoMsisdns) ↔ no_digit)
  ∧ (no_digit → patches (events run) = [] ∧ world_after run = w).
Proof.
  intros Hen run no_digit. unfold run, no_digit, outcome, events, world_after.
  rewrite sync_call_eq, <- parse_empty_iff.
  destruct (decide (_parse_msisdn_list msisdn msisdn_list = [])) as [Hp|Hne].
  - rewrite sync_no_msisdns by done. simpl.
    split; [done |]. intros _. by destruct (log_tool self).
  - split; [|done]. split; [|done].
    pose proof (sync_run http_patch self kind _ msisdn msisdn_list w Hen eq_refl Hne)
      as Hspec.
    destruct (sync_enum_entries _ _ _ _ _ w) as [[[r|ex] w'] evs]; simpl; [|done].
    destruct Hspec as (t & -> & _). done.
Qed.

Lemma no_digits_no_request_witness :
  enabled (Scenario.client true [Scenario.pdns1]) = true
  ∧ outcome (create_enum_entries Scenario.refuse_all
               (Scenario.client true [Scenario.pdns1]) (Some "+") (Some " , n/a,")  tt)
    = Return (SyncStatus NoMsisdns).
Proof.
  split; [reflexivity |].
  apply (proj1 (no_digits_no_request Scenario.refuse_all
                  (Scenario.client true [Scenario.pdns1]) REPLACE
                  (Some "+") (Some " , n/a,") tt eq_refl)).
  split; reflexivity.
Defined.


Section RaiseKinds.

Context {World : Type}.
Variable http_patch : HttpRequest → World → HttpOutcome * World.
Variable self : ENUMClient.
Variable kind : ChangeType.

Lemma foldM_raise {A B} (f : B → A → M World B) (P : Exn → Prop) (l : list A) :
  (∀ b x w e, x ∈ l → outcome (f b x w) = Raise e → P e) →
  ∀ b w e, outcome (foldM f b l w) = Raise e → P e.
Proof.
  unfold outcome. induction l as [|x l IH]; intros Hf b w e; [done |].
  rewrite foldM_cons.
  pose proof (Hf b x w) as Hx.
  destruct (f b x w) as [[[b'|ex] w1] e1]; simpl in *.
  - intros H. apply (IH (λ b x w e Hin, Hf b x w e (list_elem_of_further _ _ _ Hin))
                       b' w1 e).
    by destruct (foldM f b' l w1) as [[o w2] e2].
  - intros [= <-]. apply Hx; [apply list_elem_of_here | done].
Qed.


Lemma sync_domain_raise (ep : Endpoint) (name sip : string) (ms : list string)
    (results : SyncTree) (domain : string) (w : World) (e : Exn) :
  outcome (sync_domain http_patch self kind ep name sip ms results domain w)
  = Raise e →
  raise_cause self ep e.
Proof.
  unfold raise_cause, outcome, sync_domain, _make_pdns_request, subscript,
    missing_key.
  unfold mbind, M_bind, bind, raise, ret, requests_patch.
  destruct (ep_url ep) as [base|]; simpl; [|intros [= <-]; right; by eexists].
  destruct (ep_api_key ep) as [key|]; simpl; [|intros [= <-]; right; by eexists].
  destruct (http_patch _ w) as [[code text|msg] w1]; simpl.
  - destruct (accepted code); simpl; unfold _log; destruct (log_tool self);
      destruct (strict_mode self); simpl; try done; intros [= <-]; left; by eexists.
  - unfold _log; destruct (log_tool self);
      destruct (strict_mode self); simpl; try done; intros [= <-]; left; by eexists.
Qed.

Lemma sync_endpoint_raise (ms : list string) (results : SyncTree) (ep : Endpoint)
    (w : World) (e : Exn) :
  outcome (sync_endpoint http_patch self kind ms results ep w) = Raise e →
  raise_cause self ep e.
Proof.
  unfold sync_endpoint. apply foldM_raise.
  intros b d w' e' _. apply sync_domain_raise.
Qed.

Lemma sync_raise (msisdn msisdn_list : option string) (w : World) (e : Exn) :
  outcome (sync_enum_entries http_patch self kind msisdn msisdn_list w) = Raise e →
  ∃ ep, ep ∈ endpoints self ∧ raise_cause self ep e.
Proof.
  unfold sync_enum_entries, outcome.
  destruct (enabled self); simpl; [|unfold _log; by destruct (log_tool self)].
  destruct (_parse_msisdn_list msisdn msisdn_list) as [|m ms];
    [unfold _log; by destruct (log_tool self) |].
  unfold mbind, M_bind, bind.
  destruct (log_patches self "info"
              (kind_start_log kind +:+ PyStr.repr_list (m :: ms)) w)
    as (le & -> & _).
  pose proof (foldM_raise (sync_endpoint http_patch self kind (m :: ms))
                (λ e, ∃ ep, ep ∈ endpoints self ∧ raise_cause self ep e)
                (endpoints self)) as Hloop.
  specialize (Hloop (λ b ep w1 e1 Hin Hr,
                ex_intro _ ep (conj Hin (sync_endpoint_raise _ b ep w1 e1 Hr)))).
  specialize (Hloop {| st_status := Ok; st_endpoints := []; st_errors := [] |} w e).
  unfold outcome in Hloop.
  destruct (foldM _ _ (endpoints self) w) as [[[r|ex] w1] e1]; simpl in *; [done |].
  intros [= <-]. by apply Hloop.
Qed.

End RaiseKinds.

(** X9: create and delete raise in two cases only: [ENUMManagementError], in
    strict mode, and [KeyError] for the key ['url'] of a configured endpoint
    that has none or for the key ['api_key'] of one that has a url and no
    api key.  In lenient mode with endpoints that have both keys they always
    return. *)
Theorem raise_causes {World : Type}
    (http_patch : HttpRequest → World → HttpOutcome * World) (self : ENUMClient)
    (kind : ChangeType) (msisdn msisdn_list : option string) (w : World) :
  (∀ e, outcome (sync_call http_patch self kind msisdn msisdn_list w) = Raise e →
        (∃ msg, e = ENUMManagementError msg ∧ strict_mode self = true)
        ∨ (∃ key ep, e = KeyError key ∧ ep ∈ endpoints self
                     ∧ missing_key ep = Some key
                     ∧ (key = "url" ∧ ep_url ep = None
                        ∨ key = "api_key" ∧ is_Some (ep_url ep)
                          ∧ ep_api_key ep = None)))
  ∧ (strict_mode self = false → Forall well_formed (endpoints self) →
     ∃ r, outcome (sync_call http_patch self kind msisdn msisdn_list w) = Return r).
Proof.
  rewrite sync_call_eq.
  assert (∀ e, outcome (sync_enum_entries http_patch self kind msisdn msisdn_list w)
               = Raise e →
        (∃ msg, e = ENUMManagementError msg ∧ strict_mode self = true)
        ∨ (∃ key ep, e = KeyError key ∧ ep ∈ endpoints self
                     ∧ missing_key ep = Some key
                     ∧ (key = "url" ∧ ep_url ep = None
                        ∨ key = "api_key" ∧ is_Some (ep_url ep)
                          ∧ ep_api_key ep = None))) as Hraise.
  { intros e He. destruct (sync_raise _ _ _ _ _ _ _ He) as (ep & Hin & [Hc|Hc]).
    - by left.
    - right. destruct Hc as (key & -> & Hk). exists key, ep.
      split_and!; [done.. |]. unfold missing_key in Hk.
      destruct (ep_url ep), (ep_api_key ep); simplify_eq; eauto. }
  split; [done |]. intros Hs Hwf.
  destruct (outcome _) as [r|e] eqn:Ho; [by eexists |].
  destruct (Hraise e eq_refl) as [(msg & _ & ?)|(key & ep & _ & Hin & Hk & _)];
    [congruence |].
  apply (proj1 (Forall_forall _ _) Hwf) in Hin as [[u Hu] [k Hk']].
  unfold missing_key in Hk. by rewrite Hu, Hk' in Hk.
Qed.

(** A lenient create whose second endpoint has no url: the first endpoint is
    served, then the call raises [KeyError('url')]. *)
Lemma raise_causes_witness :
  outcome (create_enum_entries Scenario.accept_all
             (Scenario.client false [Scenario.pdns1; no_url_endpoint])
             (Some "111") None tt) = Raise (KeyError "url")
  ∧ ∃ key ep, KeyError "url" = KeyError key
              ∧ ep ∈ [Scenario.pdns1; no_url_endpoint]
              ∧ missing_key ep = Some key.
Proof.
  assert (outcome (create_enum_entries Scenario.accept_all
             (Scenario.client false [Scenario.pdns1; no_url_endpoint])
             (Some "111") None tt) = Raise (KeyError "url")) as H.
  { vm_compute. reflexivity. }
  split; [exact H |].
  destruct (proj1 (raise_causes Scenario.accept_all
                     (Scenario.client false [Scenario.pdns1; no_url_endpoint])
                     REPLACE (Some "111") None tt) (KeyError "url") H)
    as [(msg & Heq & _)|(key & ep & Heq & Hin & Hk & _)].
  - discriminate Heq.
  - exists key, ep. split; [exact Heq |]. split; [exact Hin | exact Hk].
Defined.


Lemma attempts_of_requests (self : ENUMClient) (kind : ChangeType) (ms : list string)
    (ps : list (Endpoint * string)) (attempts : list (HttpRequest * HttpOutcome)) :
  attempts_of self kind ms ps attempts →
  map (pair_request self kind ms) ps = map (λ a, Some a.1) attempts.
Proof.
  unfold attempts_of. induction 1 as [|p a ps attempts Hpa _ IH]; simpl; [done |].
  by rewrite Hpa, IH.
Qed.

(** X10: a call of create or delete that returns a tree has sent, for every
    configured (endpoint, domain) pair and in configured order, the one
    request of that pair, and nothing else; in strict mode every one of them
    succeeded and the result is [ok] with an empty error list. *)
Theorem returned_call_served_every_pair {World : Type}
    (http_patch : HttpRequest → World → HttpOutcome * World) (self : ENUMClient)
    (kind : ChangeType) (msisdn msisdn_list : option string) (w : World)
    (t : SyncTree) :
  let run := sync_call http_patch self kind msisdn msisdn_list w in
  outcome run = Return (SyncFull t) →
  map (pair_request self kind (_parse_msisdn_list msisdn msisdn_list))
    (sync_pairs self)
  = map (λ a, Some a.1) (patches (events run))
  ∧ (strict_mode self = true →
     no_failure (patches (events run)) ∧ st_status t = Ok ∧ st_errors t = []).
Proof.
  intros run. unfold run, outcome, events. rewrite sync_call_eq. intros Hret.
  destruct (enabled self) eqn:Hen; [|rewrite sync_disabled in Hret by done; done].
  destruct (decide (_parse_msisdn_list msisdn msisdn_list = [])) as [Hp|Hne];
    [rewrite sync_no_msisdns in Hret by done; done |].
  pose proof (sync_run http_patch self kind _ msisdn msisdn_list w Hen eq_refl Hne)
    as Hspec.
  destruct (sync_enum_entries _ _ _ _ _ w) as [[o w'] evs]. simpl in *. subst o.
  destruct Hspec as (t' & [= <-] & Hatt & Herr & Hst & Hstrict).
  split; [by apply attempts_of_requests |].
  intros Hs. specialize (Hstrict Hs).
  assert (st_errors t = []) as He.
  { rewrite Herr. by eapply error_entries_nil. }
  rewrite He in Hst. done.
Qed.

Lemma returned_call_served_every_pair_witness :
  map (pair_request (Scenario.client false [Scenario.pdns1]) REPLACE
         (_parse_msisdn_list (Some "111") None))
    (sync_pairs (Scenario.client false [Scenario.pdns1]))
  = map (λ a, Some a.1)
      (patches (events (create_enum_entries Scenario.refuse_all
                          (Scenario.client false [Scenario.pdns1])
                          (Some "111") None tt))).
Proof.
  apply (returned_call_served_every_pair Scenario.refuse_all
           (Scenario.client false [Scenario.pdns1]) REPLACE (Some "111") None tt
           Scenario.partial_tree).
  vm_compute. reflexivity.
Defined.

Lemma rrset_names_distinct (ms : list string) (domain : string) :
  NoDup ms → Forall clean_entry ms →
  NoDup (map (λ m, msisdn_to_enum_name m domain +:+ ".") ms).
Proof.
  induction 1 as [|m ms Hni Hnd IH]; intros Hall; simpl; [constructor |].
  apply Forall_cons in Hall as [[_ Hm] Hms].
  constructor; [|by apply IH].
  intros Hin. apply list_elem_of_In, in_map_iff in Hin as (m' & Heq & Hin').
  apply list_elem_of_In in Hin'.
  apply app_inv_tail_str, same_name_same_digits in Heq.
  destruct (proj1 (Forall_forall _ _) Hms m' Hin') as [_ Hm'].
  rewrite !filter_all_id in Heq by done. by subst.
Qed.

Lemma kind_rrset_shape (self : ENUMClient) (kind : ChangeType)
    (sip domain m : string) :
  rrset_shape self kind (kind_rrset self kind sip domain m)
  ∧ rr_name (kind_rrset self kind sip domain m)
    = msisdn_to_enum_name m domain +:+ ".".
Proof. destruct kind; repeat split; eauto. Qed.

(** X11: every request that create or delete sends, also in a call that is
    aborted later, is a PATCH for a configured pair: its URL is the url of
    the endpoint followed by "/api/v1/servers/localhost/zones/" and the
    domain, it carries the api key of the endpoint and the timeout 10, and
    it holds one record set for each parsed number, in parsed order, named by
    the ENUM name of the number with a trailing dot, of the kind of the call
    (REPLACE with the configured TTL and one enabled record, or DELETE
    without TTL and records), no two of them with the same name. *)
Theorem request_contents {World : Type}
    (http_patch : HttpRequest → World → HttpOutcome * World) (self : ENUMClient)
    (kind : ChangeType) (msisdn msisdn_list : option string) (w : World)
    (a : HttpRequest * HttpOutcome) :
  a ∈ patches (events (sync_call http_patch self kind msisdn msisdn_list w)) →
  ∃ p base api_key,
    p ∈ sync_pairs self
    ∧ ep_url p.1 = Some base ∧ ep_api_key p.1 = Some api_key
    ∧ req_url a.1 = base +:+ "/api/v1/servers/localhost/zones/" +:+ p.2
    ∧ req_headers a.1 = [("X-API-Key", api_key); ("Content-Type", "application/json")]
    ∧ req_timeout a.1 = 10
    ∧ map rr_name (req_rrsets a.1)
      = map (λ m, msisdn_to_enum_name m p.2 +:+ ".")
          (_parse_msisdn_list msisdn msisdn_list)
    ∧ NoDup (map rr_name (req_rrsets a.1))
    ∧ Forall (rrset_shape self kind) (req_rrsets a.1).
Proof.
  rewrite sync_call_eq. unfold events. intros Hin.
  pose proof (sync_attempts http_patch self kind msisdn msisdn_list w) as Hatt.
  destruct (proj1 (Forall_forall _ _) Hatt a Hin) as (p & Hp & Hreq).
  unfold pair_request, request_for in Hreq.
  destruct (ep_url p.1) as [base|] eqn:Hu; [|done].
  destruct (ep_api_key p.1) as [key|] eqn:Hk; [|done].
  injection Hreq as <-. simpl.
  exists p, base, key.
  assert (map rr_name
            (map (kind_rrset self kind (default "" (ep_sip_domain p.1)) p.2)
               (_parse_msisdn_list msisdn msisdn_list))
          = map (λ m, msisdn_to_enum_name m p.2 +:+ ".")
              (_parse_msisdn_list msisdn msisdn_list)) as Hnames.
  { rewrite map_map. apply map_ext. intros m. apply kind_rrset_shape. }
  split_and!; try done.
  - rewrite Hnames. destruct (parse_inv msisdn msisdn_list).
    by apply rrset_names_distinct.
  - apply Forall_forall. intros rr Hrr.
    apply list_elem_of_In, in_map_iff in Hrr as (m & <- & _).
    apply kind_rrset_shape.
Qed.

Lemma request_contents_witness :
  Scenario.refused_attempt
    ∈ patches (events (create_enum_entries Scenario.refuse_all
                         (Scenario.client true [Scenario.pdns1]) (Some "111") None tt))
  ∧ ∃ p : Endpoint * string,
      map rr_name (req_rrsets Scenario.refused_attempt.1)
         = map (λ m, msisdn_to_enum_name m p.2 +:+ ".")
             (_parse_msisdn_list (Some "111") None).
Proof.
  assert (Scenario.refused_attempt
            ∈ patches (events (create_enum_entries Scenario.refuse_all
                                 (Scenario.client true [Scenario.pdns1])
                                 (Some "111") None tt))) as Hin.
  { vm_compute. apply list_elem_of_here. }
  split; [exact Hin |].
  destruct (request_contents Scenario.refuse_all
              (Scenario.client true [Scenario.pdns1]) REPLACE (Some "111") None tt
              Scenario.refused_attempt Hin)
    as (p & base & key & _ & _ & _ & _ & _ & _ & Hn & _).
  exists p. exact Hn.
Defined.


(* ===================================================================== *)
(** * Further properties of update                                        *)
(* ===================================================================== *)

Section UpdatePhases.

Context {World : Type}.
Variable http_patch : HttpRequest → World → HttpOutcome * World.
Variable self : ENUMClient.

Lemma merge_errors_app (r : SyncResult) (results : UpdateTree) :
  merge_errors r results = up_extend_errors (errors_of r) results.
Proof.
  unfold merge_errors, errors_of, up_extend_errors.
  destruct (sync_errors r) as [[|e errs]|]; simpl; [|done |];
    destruct results; simpl; by rewrite app_nil_r.
Qed.

Lemma update_except_strict (kind : ChangeType) (msisdn msisdn_list : option string)
    (w w1 : World) (e : Exn) (results : UpdateTree) :
  outcome (sync_enum_entries http_patch self kind msisdn msisdn_list w) = Raise e →
  update_except self e results w1 = (Raise e, w1, []).
Proof.
  intros He. destruct (sync_raise _ _ _ _ _ _ _ He) as (ep & _ & [Hc|Hc]).
  - destruct Hc as (msg & -> & Hs). unfold update_except. by rewrite Hs.
  - by destruct Hc as (key & -> & _).
Qed.

(** A phase of update against the run of its sub-call. *)
Lemma phase_run (kind : ChangeType) (s : gset string) (results : UpdateTree)
    (w : World) :
  enabled self = true →
  match kind with
  | REPLACE => up_created results = []
  | DELETE => up_deleted results = []
  end →
  let phase :=
    match kind with
    | REPLACE => update_create_phase http_patch self s results w
    | DELETE => update_delete_phase http_patch self s results w
    end in
  let sub := sync_enum_entries http_patch self kind None
               (Some (PyStr.join "," (elements s))) w in
  ∃ evs,
    patches evs = patches (events sub)
    ∧ phase
      = (match outcome sub with
         | Raise e => Raise e
         | Return r =>
             Return (up_extend_errors (errors_of r)
                       match kind with
                       | REPLACE => up_set_created (elements s) results
                       | DELETE => up_set_deleted (elements s) results
                       end)
         end, world_after sub, evs).
Proof.
  intros Hen Hres phase sub.
  assert (phase =
          (if set_truthy s then
             r ← try_ (sync_enum_entries http_patch self kind None
                         (Some (PyStr.join "," (elements s))));
             match r with
             | inl result =>
                 mret (merge_errors result
                         match kind with
                         | REPLACE => up_set_created (elements s) results
                         | DELETE => up_set_deleted (elements s) results
                         end)
             | inr e => update_except self e results
             end
           else mret results) w) as ->.
  { unfold phase. by destruct kind. }
  destruct (set_truthy s) eqn:Ht.
  - subst sub.
    unfold mbind, M_bind, bind, try_, events, world_after, outcome.
    destruct (sync_enum_entries _ _ _ _ _ w) as [[[r|e] w1] e1] eqn:Hsub; simpl.
    + exists (e1 ++ []). rewrite app_nil_r, merge_errors_app. done.
    + rewrite (update_except_strict kind None
                 (Some (PyStr.join "," (elements s))) w w1 e results).
      * exists (e1 ++ []). by rewrite app_nil_r.
      * unfold outcome. by rewrite Hsub.
  - (* the sub-call is skipped; it would have sent nothing *)
    assert (elements s = []) as He.
    { unfold set_truthy in Ht. by destruct (elements s). }
    unfold sub. rewrite He. change (PyStr.join "," []) with "".
    rewrite sync_no_msisdns by done.
    unfold events, world_after, outcome, errors_of. simpl.
    exists []. split; [by destruct (log_tool self) |].
    unfold up_extend_errors, up_set_created, up_set_deleted, mret, M_ret, ret.
    destruct kind, results; simpl in *; subst; by rewrite app_nil_r.
Qed.

End UpdatePhases.

(** X12: how update is made of its two sub-calls.  With the engine enabled,
    the delete sub-call runs first, on the numbers to delete (for an empty
    set it is skipped, and would send nothing).  If it raises, update raises
    the same exception and the create phase is never started: the requests of
    the update are those of the delete sub-call.  If it returns, the create
    sub-call runs in the world the delete sub-call left, the requests of the
    update are those of the one followed by those of the other, an exception
    of the create sub-call is raised by update, and otherwise update returns
    the two sets as [deleted] and [created], the error lists of the two
    results one after the other, and the status [partial] when that list is
    not empty, [ok] when it is. *)
Theorem update_composition {World : Type}
    (http_patch : HttpRequest → World → HttpOutcome * World) (self : ENUMClient)
    (old_msisdn old_msisdn_list new_msisdn new_msisdn_list : option string)
    (w : World) :
  enabled self = true →
  let old_set := msisdn_set old_msisdn old_msisdn_list in
  let new_set := msisdn_set new_msisdn new_msisdn_list in
  let to_delete := old_set ∖ new_set in
  let to_create := new_set ∖ old_set in
  let run := update_enum_entries http_patch self old_msisdn old_msisdn_list
               new_msisdn new_msisdn_list w in
  let d := delete_enum_entries http_patch self None
             (Some (PyStr.join "," (elements to_delete))) w in
  let c := create_enum_entries http_patch self None
             (Some (PyStr.join "," (elements to_create))) (world_after d) in
  match outcome d with
  | Raise e =>
      outcome run = Raise e
      ∧ patches (events run) = patches (events d)
      ∧ world_after run = world_after d
  | Return rd =>
      patches (events run) = patches (events d) ++ patches (events c)
      ∧ world_after run = world_after c
      ∧ match outcome c with
        | Raise e => outcome run = Raise e
        | Return rc =>
            outcome run
            = Return (update_result to_delete to_create (errors_of rd ++ errors_of rc))
        end
  end.
Proof.
  intros Hen old_set new_set to_delete to_create run d c.
  assert (∃ evs1 evs2,
            patches evs1 = patches (events d)
            ∧ patches evs2 = patches (events c)
            ∧ run
              = match outcome d with
                | Raise e => (Raise e, world_after d, evs1)
                | Return rd =>
                    (match outcome c with
                     | Raise e => Raise e
                     | Return rc =>
                         Return (update_result to_delete to_create
                                   (errors_of rd ++ errors_of rc))
                     end, world_after c, evs1 ++ evs2)
                end) as (evs1 & evs2 & Hp1 & Hp2 & Hrun).
  { unfold run, update_enum_entries. rewrite Hen. simpl.
    fold old_set new_set. fold to_delete to_create.
    unfold mbind, M_bind. unfold bind at 1.
    destruct (log_patches self "info"
                ("ENUM update: delete " +:+ PyStr.repr_set to_delete
                 +:+ ", create " +:+ PyStr.repr_set to_create) w)
      as (le & -> & Hpl & _).
    unfold bind at 1.
    destruct (phase_run http_patch self DELETE to_delete
                {| up_status := Ok; up_deleted := []; up_created := [];
                   up_errors := [] |} w Hen eq_refl) as (e1 & Hpd & ->).
    rewrite <- delete_is_sync in Hpd |- *. fold d in Hpd |- *.
    destruct (outcome d) as [rd|e] eqn:Hd.
    - unfold bind at 1.
      destruct (phase_run http_patch self REPLACE to_create
                  (up_extend_errors (errors_of rd)
                     (up_set_deleted (elements to_delete)
                        {| up_status := Ok; up_deleted := []; up_created := [];
                           up_errors := [] |})) (world_after d) Hen eq_refl)
        as (e2 & Hpc & ->).
      rewrite <- create_is_sync in Hpc |- *. fold c in Hpc |- *.
      destruct (outcome c) as [rc|e] eqn:Hc.
      + exists (le ++ e1), (e2 ++ []).
        rewrite !patches_app, Hpl, Hpd, Hpc. simpl. rewrite app_nil_r.
        split_and!; [done.. |]. rewrite <- !app_assoc.
        unfold update_result, up_extend_errors, up_set_created, up_set_deleted,
          up_set_status, mret, M_ret, ret. simpl.
        by destruct (errors_of rd ++ errors_of rc).
      + exists (le ++ e1), e2.
        rewrite !patches_app, Hpl, Hpd, Hpc. simpl.
        split_and!; [done.. |]. by rewrite <- !app_assoc.
    - exists (le ++ e1), (events c). rewrite !patches_app, Hpl, Hpd. done. }
  rewrite Hrun. destruct (outcome d) as [rd|e].
  - unfold events at 1, world_after at 1, outcome at 1. cbn [fst snd].
    rewrite patches_app, Hp1, Hp2. split_and!; [done.. |].
    by destruct (outcome c).
  - unfold events at 1, world_after at 1, outcome at 1. cbn [fst snd].
    by rewrite Hp1.
Qed.

(** An update from {"111", "222"} to {"333"} on a server that refuses, in
    lenient mode: both phases run and both errors are reported. *)
Lemma update_composition_witness :
  outcome (update_enum_entries Scenario.refuse_all
             (Scenario.client false [Scenario.pdns1])
             (Some "111") (Some "222") (Some "333") None tt)
  = Return (UpdateFull
              {| up_status := Partial; up_deleted := ["111"; "222"];
                 up_created := ["333"];
                 up_errors := ["pdns1/e164.arpa: PowerDNS API error: 500 - boom";
                               "pdns1/e164.arpa: PowerDNS API error: 500 - boom"] |}).
Proof.
  pose proof (update_composition Scenario.refuse_all
                (Scenario.client false [Scenario.pdns1])
                (Some "111") (Some "222") (Some "333") None tt eq_refl) as H.
  cbv zeta in H.
  destruct (outcome (delete_enum_entries _ _ _ _ _)) as [rd|e] eqn:Hd;
    [|vm_compute in Hd; discriminate Hd].
  destruct H as (_ & _ & H).
  destruct (outcome (create_enum_entries _ _ _ _ _)) as [rc|e] eqn:Hc;
    [|vm_compute in Hc; discriminate Hc].
  rewrite H. vm_compute in Hd. vm_compute in Hc.
  injection Hd as <-. injection Hc as <-. vm_compute. reflexivity.
Defined.

(* ===================================================================== *)
(** * Further properties of the sweep and of update                       *)
(* ===================================================================== *)

(** X13: with the engine disabled the sweep returns the status [disabled]
    at once, whatever the fuel of the loop: no page of subscribers is asked
    for, no request is sent, the world is left as it is, and the only event
    is the info line of the log tool. *)
Theorem sweep_disabled {World : Type}
    (http_patch : HttpRequest → World → HttpOutcome * World)
    (getAllPaginated : Z → Z → World → DbOutcome * World)
    (self : ENUMClient) (fuel : nat) (w : World) :
  enabled self = false →
  let run := reconcile_all http_patch getAllPaginated self fuel w in
  outcome run = Return (Some (ReconcileStatus Disabled))
  ∧ world_after run = w
  ∧ page_requests (events run) = []
  ∧ patches (events run) = []
  ∧ logs (events run)
    = if log_tool self
      then [("info", "ENUM management is disabled, skipping reconciliation")]
      else [].
Proof.
  intros Hen run. unfold run, reconcile_all, outcome, world_after, events, _log.
  rewrite Hen. simpl. by destruct (log_tool self).
Qed.

Lemma sweep_disabled_witness :
  outcome (reconcile_all Scenario.refuse_all (Scenario.endless Scenario.sub_refused)
             Scenario.disabled_client 0 tt)
  = Return (Some (ReconcileStatus Disabled)).
Proof.
  apply (sweep_disabled Scenario.refuse_all (Scenario.endless Scenario.sub_refused)
           Scenario.disabled_client 0 tt).
  reflexivity.
Defined.

(** The record sets of the requests of an update. *)
Lemma update_request_names {World : Type}
    (http_patch : HttpRequest → World → HttpOutcome * World) (self : ENUMClient)
    (old_msisdn old_msisdn_list new_msisdn new_msisdn_list : option string)
    (w : World) (a : HttpRequest * HttpOutcome) :
  let old_set := msisdn_set old_msisdn old_msisdn_list in
  let new_set := msisdn_set new_msisdn new_msisdn_list in
  a ∈ patches (events (update_enum_entries http_patch self old_msisdn
                         old_msisdn_list new_msisdn new_msisdn_list w)) →
  ∃ p s,
    p ∈ sync_pairs self
    ∧ (s = old_set ∖ new_set ∨ s = new_set ∖ old_set)
    ∧ req_url a.1
      = default "" (ep_url p.1) +:+ "/api/v1/servers/localhost/zones/" +:+ p.2
    ∧ map rr_name (req_rrsets a.1)
      = map (λ m, msisdn_to_enum_name m p.2 +:+ ".") (elements s).
Proof.
  intros old_set new_set Hin.
  destruct (update_patches http_patch self old_msisdn old_msisdn_list new_msisdn
              new_msisdn_list w) as (deletes & creates & Hp & Hd & Hc).
  unfold events in Hin. rewrite Hp in Hin.
  apply elem_of_app in Hin as [Hin|Hin].
  - apply (proj1 (Forall_forall _ _) Hd) in Hin as (p & Hp' & Hreq).
    exists p, (old_set ∖ new_set). unfold request_for in Hreq.
    destruct (ep_url p.1) as [base|]; [|done].
    destruct (ep_api_key p.1) as [key|]; [|done].
    injection Hreq as <-. simpl. split_and!; [done | by left | done |].
    by rewrite map_map.
  - apply (proj1 (Forall_forall _ _) Hc) in Hin as (p & Hp' & Hreq).
    exists p, (new_set ∖ old_set). unfold request_for in Hreq.
    destruct (ep_url p.1) as [base|]; [|done].
    destruct (ep_api_key p.1) as [key|]; [|done].
    injection Hreq as <-. simpl. split_and!; [done | by right | done |].
    by rewrite map_map.
Qed.

Lemma clean_entry_filter (m : string) :
  clean_entry m → PyStr.filter PyStr.isdigit m = m.
Proof. intros [_ Hall]. by apply filter_all_id. Qed.

(** X14: an update leaves alone the numbers that stay.  Every request of an
    update goes to the zone of a configured (endpoint, domain) pair, and for
    a number that is in the old set and in the new set the record of that
    number in that zone is not among the record sets of the request. *)
Theorem update_keeps_common_numbers {World : Type}
    (http_patch : HttpRequest → World → HttpOutcome * World) (self : ENUMClient)
    (old_msisdn old_msisdn_list new_msisdn new_msisdn_list : option string)
    (w : World) (m : string) (a : HttpRequest * HttpOutcome) :
  m ∈ msisdn_set old_msisdn old_msisdn_list →
  m ∈ msisdn_set new_msisdn new_msisdn_list →
  a ∈ patches (events (update_enum_entries http_patch self old_msisdn
                         old_msisdn_list new_msisdn new_msisdn_list w)) →
  ∃ p, p ∈ sync_pairs self
       ∧ req_url a.1
         = default "" (ep_url p.1) +:+ "/api/v1/servers/localhost/zones/" +:+ p.2
       ∧ msisdn_to_enum_name m p.2 +:+ "." ∉ map rr_name (req_rrsets a.1).
Proof.
  intros Hold Hnew Hin.
  destruct (update_request_names _ _ _ _ _ _ _ _ Hin) as (p & s & Hp & Hs & Hurl & Hn).
  exists p. split_and!; [done.. |]. rewrite Hn.
  intros Hm. apply list_elem_of_In, in_map_iff in Hm as (m' & Heq & Hm').
  apply list_elem_of_In, elem_of_elements in Hm'.
  apply app_inv_tail_str, same_name_same_digits in Heq.
  assert (clean_entry m) as Hcm by by eapply msisdn_set_clean.
  assert (clean_entry m') as Hcm'.
  { destruct Hs as [-> | ->]; apply elem_of_difference in Hm' as [Hm' _];
      by eapply msisdn_set_clean. }
  rewrite !clean_entry_filter in Heq by done. subst m'.
  destruct Hs as [-> | ->]; apply elem_of_difference in Hm' as [_ Hm']; done.
Qed.

(** An update from {"111", "222"} to {"222", "333"}: the record of "222" is
    not in its first request. *)
Lemma update_keeps_common_numbers_witness :
  ∃ a rest p,
    patches (events (update_enum_entries Scenario.accept_all
                       (Scenario.client false [Scenario.pdns1])
                       (Some "111") (Some "222") (Some "222") (Some "333") tt))
    = a :: rest
    ∧ p ∈ sync_pairs (Scenario.client false [Scenario.pdns1])
    ∧ msisdn_to_enum_name "222" p.2 +:+ "." ∉ map rr_name (req_rrsets a.1).
Proof.
  assert (∃ a rest,
            patches (events (update_enum_entries Scenario.accept_all
                               (Scenario.client false [Scenario.pdns1])
                               (Some "111") (Some "222") (Some "222") (Some "333") tt))
            = a :: rest) as (a & rest & Hrun).
  { vm_compute. eexists _, _. reflexivity. }
  destruct (update_keeps_common_numbers Scenario.accept_all
              (Scenario.client false [Scenario.pdns1])
              (Some "111") (Some "222") (Some "222") (Some "333") tt "222" a)
    as (p & Hp & _ & Hn).
  - unfold msisdn_set. apply elem_of_list_to_set, list_elem_of_In.
    vm_compute. tauto.
  - unfold msisdn_set. apply elem_of_list_to_set, list_elem_of_In.
    vm_compute. tauto.
  - rewrite Hrun. apply list_elem_of_here.
  - exists a, rest, p. split; [exact Hrun |]. split; assumption.
Defined.

(* ===================================================================== *)
(** * The records of the sweep                                            *)
(* ===================================================================== *)

Lemma records_with_snoc (s : Status) (records : list SubscriberOutcome)
    (o : SubscriberOutcome) :
  records_with s (records ++ [o])
  = records_with s records + (if has_status s o then 1 else 0).
Proof.
  unfold records_with. rewrite List.filter_app, length_app. simpl.
  destruct (has_status s o); simpl; lia.
Qed.

Lemma records_with_nonneg (s : Status) (records : list SubscriberOutcome) :
  0 ≤ records_with s records.
Proof. unfold records_with. lia. Qed.

Section SweepInvariant.

Context {World : Type}.
Variable http_patch : HttpRequest → World → HttpOutcome * World.
Variable getAllPaginated : Z → Z → World → DbOutcome * World.
Variable self : ENUMClient.

(** The three ways one subscriber can end. *)
Lemma reconcile_subscriber_cases (results : ReconcileTree) (sub : Subscriber)
    (w : World) :
  let run := create_enum_entries http_patch self (sub_msisdn sub)
               (sub_msisdn_list sub) w in
  ∃ r c,
    reconcile_subscriber http_patch self results sub w
    = (Return (r, c), world_after run, events run ++ [])
    ∧ match outcome run with
      | Return create_result =>
          c = Normal
          ∧ if counts_as_succeeded (sync_status create_result) then
              r = rc_record_succeeded
                    {| so_ims_subscriber_id := sub_ims_subscriber_id sub;
                       so_msisdn := sub_msisdn sub; so_status := Ok;
                       so_errors := None; so_error := None |}
                    (rc_incr_processed results)
            else
              r = rc_record_failed
                    {| so_ims_subscriber_id := sub_ims_subscriber_id sub;
                       so_msisdn := sub_msisdn sub; so_status := Partial;
                       so_errors := Some (default [] (sync_errors create_result));
                       so_error := None |}
                    (rc_incr_processed results)
      | Raise (ENUMManagementError msg) =>
          c = Normal
          ∧ r = rc_append_error
                  ("Subscriber " +:+ int_opt_str (sub_ims_subscriber_id sub)
                   +:+ ": " +:+ msg)
                  (rc_record_failed
                     {| so_ims_subscriber_id := sub_ims_subscriber_id sub;
                        so_msisdn := sub_msisdn sub; so_status := Error;
                        so_errors := None; so_error := Some msg |}
                     (rc_incr_processed results))
      | Raise e => c = Abrupt e ∧ r = rc_incr_processed results
      end.
Proof.
  intros run. unfold run, reconcile_subscriber, mbind, M_bind, bind, try_,
    outcome, world_after, events.
  destruct (create_enum_entries _ _ _ _ w) as [[[cr|ex] w1] evs]; simpl.
  - destruct (counts_as_succeeded (sync_status cr)); simpl; by eexists _, _.
  - destruct ex; simpl; by eexists _, _.
Qed.

(** An invariant of the processing of one subscriber holds when the loop
    over the pages has ended. *)
Lemma reconcile_page_inv (I : Completion → ReconcileTree → Prop) :
  (∀ results sub w r c,
      I Normal results →
      outcome (reconcile_subscriber http_patch self results sub w) = Return (r, c) →
      I c r) →
  ∀ subscribers results w r c,
    I Normal results →
    outcome (reconcile_page http_patch self results subscribers w) = Return (r, c) →
    I c r.
Proof.
  intros Hstep. induction subscribers as [|sub rest IH]; intros results w r c HI.
  - by intros [= <- <-].
  - rewrite reconcile_page_cons. specialize (Hstep results sub w).
    unfold outcome in *.
    destruct (reconcile_subscriber _ _ results sub w) as [[[[r1 c1]|ex] w1] e1];
      simpl in *; [|done].
    specialize (Hstep r1 c1 HI eq_refl). destruct c1 as [|e].
    + specialize (IH r1 w1 r c Hstep).
      destruct (reconcile_page _ _ r1 rest w1) as [[o w2] e2]. by apply IH.
    + by intros [= <- <-].
Qed.

Lemma reconcile_pages_inv (I : Completion → ReconcileTree → Prop) :
  (∀ results sub w r c,
      I Normal results →
      outcome (reconcile_subscriber http_patch self results sub w) = Return (r, c) →
      I c r) →
  (∀ results e, I Normal results → I (Abrupt e) results) →
  ∀ fuel page results w r c,
    I Normal results →
    outcome (reconcile_pages http_patch getAllPaginated self fuel page results w)
    = Return (Some (r, c)) →
    I c r.
Proof.
  intros Hstep Hdb. induction fuel as [|fuel IH]; intros page results w r c HI;
    [done |].
  rewrite reconcile_pages_S. unfold mbind, M_bind. unfold bind at 1.
  destruct (db_run getAllPaginated page w) as (rp & w1 & ev & -> & _ & _).
  destruct rp as [[|sub rest]|e].
  - by intros [= <- <-].
  - unfold bind.
    pose proof (reconcile_page_inv I Hstep (sub :: rest) results w1) as Hpage.
    unfold outcome in *.
    destruct (reconcile_page _ _ results (sub :: rest) w1)
      as [[[[r2 c2]|ex] w2] e2]; simpl in *; [|done].
    specialize (Hpage r2 c2 HI eq_refl). destruct c2 as [|e].
    + destruct (page + 1 >? 10000).
      * destruct (log_patches self "warning"
                    "Reconciliation stopped at page 10000" w2) as (le & -> & _).
        by intros [= <- <-].
      * specialize (IH (page + 1) r2 w2 r c Hpage).
        destruct (reconcile_pages _ _ _ fuel (page + 1) r2 w2) as [[o w3] e3].
        by apply IH.
    + by intros [= <- <-].
  - unfold outcome. simpl. intros [= <- <-]. by apply Hdb.
Qed.

Lemma tally_step (results : ReconcileTree) (sub : Subscriber) (w : World)
    (r : ReconcileTree) (c : Completion) :
  tally Normal results →
  outcome (reconcile_subscriber http_patch self results sub w) = Return (r, c) →
  tally c r.
Proof.
  intros (Hst & Hs & Hf & Hlen & He & Hlo & Hhi).
  destruct (reconcile_subscriber_cases results sub w) as (r' & c' & -> & Hcase).
  unfold outcome at 1. simpl. intros [= <- <-].
  destruct (outcome _) as [cr|ex].
  - destruct Hcase as [-> Hr].
    destruct (counts_as_succeeded (sync_status cr)); subst r'; unfold tally; simpl;
      rewrite !records_with_snoc, length_app; simpl; split_and!; (done || lia).
  - destruct ex as [msg|key|msg]; destruct Hcase as [-> ->]; unfold tally; simpl;
      rewrite ?records_with_snoc, ?length_app; simpl; split_and!; (done || lia).
Qed.

Lemma tally_abrupt (results : ReconcileTree) (e : Exn) :
  tally Normal results → tally (Abrupt e) results.
Proof. unfold tally. intros (? & ? & ? & ? & ? & ? & ?). split_and!; (done || lia). Qed.

End SweepInvariant.

Lemma tally_start : tally Normal sweep_start.
Proof. unfold tally, records_with. simpl. split_and!; (done || lia). Qed.

(** X15: the counters of every sweep agree with its records, whatever the
    source of the subscribers and the servers do.  [succeeded] is the number
    of records with status [ok] and [failed] that of the records with status
    [partial] or [error]; no record has another status; [processed] is their
    sum, or one more when the sweep was cut short inside a subscriber.  The
    status of the result is [partial] exactly when [failed] is positive; it
    is [ok] only with an empty error list and every processed subscriber
    succeeded, and [error] only with the one entry of the sweep-level
    failure in the error list. *)
Theorem sweep_tally {World : Type}
    (http_patch : HttpRequest → World → HttpOutcome * World)
    (getAllPaginated : Z → Z → World → DbOutcome * World)
    (self : ENUMClient) (fuel : nat) (w : World) :
  enabled self = true →
  10001 ≤ Z.of_nat fuel →
  ∃ t,
    outcome (reconcile_all http_patch getAllPaginated self fuel w)
    = Return (Some (ReconcileFull t))
    ∧ rc_succeeded t = records_with Ok (rc_subscribers t)
    ∧ rc_failed t
      = records_with Partial (rc_subscribers t) + records_with Error (rc_subscribers t)
    ∧ Z.of_nat (length (rc_subscribers t)) = rc_succeeded t + rc_failed t
    ∧ rc_succeeded t + rc_failed t ≤ rc_processed t ≤ rc_succeeded t + rc_failed t + 1
    ∧ match rc_status t with
      | Ok => rc_failed t = 0 ∧ rc_errors t = [] ∧ rc_processed t = rc_succeeded t
      | Partial => 0 < rc_failed t
      | Error =>
          rc_failed t = 0 ∧ ∃ msg, rc_errors t = ["Reconciliation failed: " +:+ msg]
      | Disabled | NoMsisdns => False
      end.
Proof.
  intros Hen Hfuel.
  destruct (reconcile_pages_total http_patch getAllPaginated self fuel 0
              sweep_start w) as (r & c & w1 & e1 & n & Hrun & _);
    [unfold page_ceiling; lia.. |].
  destruct (reconcile_all_run http_patch getAllPaginated self fuel w w1 r c e1
              Hen Hrun) as (le1 & le2 & Hall & _).
  assert (tally c r) as (Hst & Hs & Hf & Hlen & He & Hlo & Hhi).
  { apply (reconcile_pages_inv http_patch getAllPaginated self tally
             (tally_step http_patch self) tally_abrupt fuel 0 sweep_start w);
      [apply tally_start |].
    unfold outcome. by rewrite Hrun. }
  exists (sweep_result c r). unfold outcome. rewrite Hall. simpl.
  destruct (sweep_result_fields c r) as (Hp & Hs' & Hf' & Hsub & Herr & Hstat).
  rewrite Hp, Hs', Hf', Hsub, Hstat.
  pose proof (records_with_nonneg Partial (rc_subscribers r)).
  pose proof (records_with_nonneg Error (rc_subscribers r)).
  split_and!; [done.. | lia | destruct c; lia |].
  destruct (Z.gtb_spec (rc_failed r) 0) as [Hgt|Hle]; [lia |].
  assert (rc_errors r = []) as Hnil.
  { apply length_zero_iff_nil. lia. }
  destruct c as [|e].
  - rewrite Hst, Herr. split_and!; [lia | done | lia].
  - split; [lia |]. exists (exn_str e). unfold sweep_result. simpl.
    destruct (rc_failed r >? 0); simpl; by rewrite Hnil.
Qed.

(** On the table of two subscribers, one refused and one without a number,
    the counters are those of the two records. *)
Lemma sweep_tally_witness :
  ∃ t,
    outcome (reconcile_all Scenario.refuse_all (Scenario.paged Scenario.small_table)
               (Scenario.client false [Scenario.pdns1]) (Z.to_nat 10001) tt)
    = Return (Some (ReconcileFull t))
    ∧ rc_succeeded t = records_with Ok (rc_subscribers t)
    ∧ rc_failed t
      = records_with Partial (rc_subscribers t) + records_with Error (rc_subscribers t).
Proof.
  destruct (sweep_tally Scenario.refuse_all (Scenario.paged Scenario.small_table)
              (Scenario.client false [Scenario.pdns1]) (Z.to_nat 10001) tt)
    as (t & Hrun & Hs & Hf & _).
  - reflexivity.
  - rewrite Z2Nat.id; lia.
  - by exists t.
Defined.


(* ===================================================================== *)
(** * The sweep: what ends it, and the order of its records               *)
(* ===================================================================== *)

(** X16: the [try] around one subscriber catches [ENUMManagementError]
    only.  When the create call of the first subscriber raises [KeyError]
    (an endpoint without ['url'] or ['api_key']) the exception ends the
    whole sweep: the subscriber is counted as processed, neither as
    succeeded nor as failed, no record is made, the other subscribers are
    not looked at, no second page is asked for, and the result has the
    status [error] and the one entry of the sweep-level failure. *)
Theorem sweep_aborts_on_key_error {World : Type}
    (http_patch : HttpRequest → World → HttpOutcome * World)
    (getAllPaginated : Z → Z → World → DbOutcome * World)
    (self : ENUMClient) (fuel : nat) (w : World)
    (sub : Subscriber) (rest : list Subscriber) (key : string) :
  enabled self = true →
  (getAllPaginated 0 100 w).1 = DbPage (sub :: rest) →
  let create := create_enum_entries http_patch self (sub_msisdn sub)
                  (sub_msisdn_list sub) (getAllPaginated 0 100 w).2 in
  outcome create = Raise (KeyError key) →
  let run := reconcile_all http_patch getAllPaginated self (S fuel) w in
  outcome run
  = Return (Some (ReconcileFull
                    {| rc_status := Error; rc_processed := 1; rc_succeeded := 0;
                       rc_failed := 0;
                       rc_errors := ["Reconciliation failed: '" +:+ key +:+ "'"];
                       rc_subscribers := [] |}))
  ∧ page_requests (events run) = [(0, 100)]
  ∧ patches (events run) = patches (events create)
  ∧ world_after run = world_after create.
Proof.
  intros Hen Hdb create Hraise run.
  assert (∃ ev,
            reconcile_pages http_patch getAllPaginated self (S fuel) 0 sweep_start w
            = (Return (Some (rc_incr_processed sweep_start, Abrupt (KeyError key))),
               world_after create, [ev] ++ events create)
            ∧ page_request_of ev = Some (0, 100)) as (ev & Hloop & Hev).
  { rewrite reconcile_pages_S. unfold mbind, M_bind. unfold bind at 1.
    destruct (db_run getAllPaginated 0 w) as (r & w1 & ev & Hrun & Hev & Hr).
    assert (w1 = (getAllPaginated 0 100 w).2) as ->.
    { revert Hrun. unfold try_, db_getAllPaginated, page_size.
      destruct (getAllPaginated 0 100 w) as [[subs|msg] w2]; simpl; congruence. }
    rewrite Hrun. unfold page_size in Hr. rewrite Hdb in Hr. subst r.
    exists ev. split; [|done].
    unfold bind. rewrite reconcile_page_cons.
    destruct (reconcile_subscriber_cases http_patch self sweep_start sub
                (getAllPaginated 0 100 w).2) as (r & c & -> & Hcase).
    fold create in Hcase |- *. rewrite Hraise in Hcase. destruct Hcase as [-> ->].
    simpl. by rewrite !app_nil_r. }
  destruct (reconcile_all_run http_patch getAllPaginated self (S fuel) w _ _ _ _
              Hen Hloop) as (le1 & le2 & Hall & Hp1 & Hg1 & Hp2 & Hg2 & _).
  unfold run, outcome, events, world_after. rewrite Hall. simpl.
  destruct (patches_page_request _ _ Hev) as [Hpev _].
  apply page_requests_single in Hev.
  pose proof (create_pages http_patch self (sub_msisdn sub) (sub_msisdn_list sub)
                (getAllPaginated 0 100 w).2) as Hgc.
  fold create in Hgc.
  change (ev :: events create ++ le2) with ([ev] ++ events create ++ le2).
  rewrite !patches_app, !page_requests_app, Hp1, Hp2, Hg1, Hg2, Hpev, Hev.
  unfold events. rewrite Hgc, !app_nil_r. done.
Qed.

(** A table whose first subscriber has a number, on a client whose only
    endpoint has no ['url']: the second subscriber is never reached. *)
Lemma sweep_aborts_on_key_error_witness :
  outcome (reconcile_all Scenario.accept_all (Scenario.paged Scenario.small_table)
             (Scenario.client false [no_url_endpoint]) 1 tt)
  = Return (Some (ReconcileFull key_error_result)).
Proof.
  apply (sweep_aborts_on_key_error Scenario.accept_all
           (Scenario.paged Scenario.small_table)
           (Scenario.client false [no_url_endpoint]) 0 tt
           Scenario.sub_refused [Scenario.sub_idle] "url").
  - reflexivity.
  - reflexivity.
  - vm_compute. reflexivity.
Defined.

Section SweepRecords.

Context {World : Type}.
Variable http_patch : HttpRequest → World → HttpOutcome * World.
Variable getAllPaginated : Z → Z → World → DbOutcome * World.
Variable self : ENUMClient.

Lemma reconcile_subscriber_rows (results : ReconcileTree) (sub : Subscriber)
    (w : World) (r : ReconcileTree) (c : Completion) :
  outcome (reconcile_subscriber http_patch self results sub w) = Return (r, c) →
  map record_row (rc_subscribers r)
  = map record_row (rc_subscribers results)
    ++ match c with Normal => [row_of sub] | Abrupt _ => [] end.
Proof.
  destruct (reconcile_subscriber_cases http_patch self results sub w)
    as (r' & c' & -> & Hcase).
  unfold outcome at 1. simpl. intros [= <- <-].
  destruct (outcome _) as [cr|ex].
  - destruct Hcase as [-> Hr].
    destruct (counts_as_succeeded (sync_status cr)); subst r'; simpl;
      by rewrite map_app.
  - destruct ex as [msg|key|msg]; destruct Hcase as [-> ->]; simpl;
      by rewrite ?map_app, ?app_nil_r.
Qed.

Lemma reconcile_page_rows (subscribers : list Subscriber) :
  ∀ (results : ReconcileTree) (w : World) (r : ReconcileTree),
    outcome (reconcile_page http_patch self results subscribers w)
    = Return (r, Normal) →
    map record_row (rc_subscribers r)
    = map record_row (rc_subscribers results) ++ map row_of subscribers.
Proof.
  induction subscribers as [|sub rest IH]; intros results w r.
  - intros [= <-]. by rewrite app_nil_r.
  - rewrite reconcile_page_cons.
    pose proof (reconcile_subscriber_rows results sub w) as Hsub.
    unfold outcome in *.
    destruct (reconcile_subscriber _ _ results sub w) as [[[[r1 c1]|ex] w1] e1];
      simpl in *; [|done].
    specialize (Hsub r1 c1 eq_refl). destruct c1 as [|e]; [|done].
    specialize (IH r1 w1 r).
    destruct (reconcile_page _ _ r1 rest w1) as [[o w2] e2]. simpl in *.
    intros Ho. rewrite (IH Ho), Hsub, <- app_assoc. done.
Qed.

Lemma rows_within_step (subs : list Subscriber) (page : Z) :
  0 ≤ page < 10000 →
  rows_within subs page
  = page_slice subs page page_size ++ rows_within subs (page + 1).
Proof.
  intros Hp. unfold rows_within, page_slice, page_ceiling, page_size.
  replace (Z.to_nat ((page + 1) * 100)) with (Z.to_nat (page * 100) + 100)%nat
    by lia.
  rewrite <- drop_drop, take_take_drop. f_equal. lia.
Qed.

Lemma rows_within_last (subs : list Subscriber) :
  rows_within subs 10000 = page_slice subs 10000 page_size.
Proof. reflexivity. Qed.

Lemma rows_within_0 (subs : list Subscriber) :
  rows_within subs 0 = take (Z.to_nat 1000100) subs.
Proof.
  unfold rows_within, page_ceiling, page_size.
  replace ((10001 - 0) * 100) with 1000100 by lia.
  replace (Z.to_nat (0 * 100)) with 0%nat by lia. done.
Qed.

Lemma rows_within_empty (subs : list Subscriber) (page : Z) :
  page_slice subs page page_size = [] → rows_within subs page = [].
Proof.
  unfold rows_within, page_slice, page_size. intros H.
  apply take_nil_inv in H as [H| ->]; [done |]. apply take_nil.
Qed.

Lemma reconcile_pages_rows (subs : list Subscriber) (fuel : nat) :
  serves getAllPaginated subs →
  ∀ (page : Z) (results : ReconcileTree) (w : World) (r : ReconcileTree),
    0 ≤ page ≤ 10000 →
    outcome (reconcile_pages http_patch getAllPaginated self fuel page results w)
    = Return (Some (r, Normal)) →
    map record_row (rc_subscribers r)
    = map record_row (rc_subscribers results) ++ map row_of (rows_within subs page).
Proof.
  intros Hserves.
  induction fuel as [|fuel IH]; intros page results w r Hpage; [done |].
  rewrite reconcile_pages_S. unfold mbind, M_bind. unfold bind at 1.
  destruct (db_run getAllPaginated page w) as (rp & w1 & ev & -> & _ & Hr).
  rewrite Hserves in Hr by lia. subst rp.
  destruct (page_slice subs page page_size) as [|sub rest] eqn:Hslice.
  - intros [= <-]. rewrite rows_within_empty by done. by rewrite app_nil_r.
  - unfold bind.
    pose proof (reconcile_page_rows (sub :: rest) results w1) as Hrows.
    unfold outcome in *.
    destruct (reconcile_page _ _ results (sub :: rest) w1)
      as [[[[r2 c2]|ex] w2] e2]; simpl in *; [|done].
    destruct c2 as [|e]; [|done]. specialize (Hrows r2 eq_refl).
    destruct (Z.gtb_spec (page + 1) 10000) as [Hgt|Hle].
    + destruct (log_patches self "warning"
                  "Reconciliation stopped at page 10000" w2) as (le & -> & _).
      simpl. intros [= <-].
      assert (page = 10000) as -> by lia.
      by rewrite rows_within_last, Hslice.
    + specialize (IH (page + 1) r2 w2 r).
      destruct (reconcile_pages _ _ _ fuel (page + 1) r2 w2) as [[o w3] e3].
      simpl in *. intros Ho. rewrite (IH ltac:(lia) Ho), Hrows.
      rewrite (rows_within_step subs page), Hslice, map_app, <- app_assoc by lia. done.
Qed.


End SweepRecords.

(** X17: the records of a sweep stand for the rows of the table in table
    order.  With well-formed endpoints and a source that serves the table,
    the identifiers and primary numbers of the records are those of the
    first 1,000,100 rows, row by row. *)
Theorem sweep_records_in_table_order {World : Type}
    (http_patch : HttpRequest → World → HttpOutcome * World)
    (getAllPaginated : Z → Z → World → DbOutcome * World)
    (self : ENUMClient) (subs : list Subscriber) (fuel : nat) (w : World) :
  enabled self = true →
  Forall well_formed (endpoints self) →
  serves getAllPaginated subs →
  10001 ≤ Z.of_nat fuel →
  ∃ t,
    outcome (reconcile_all http_patch getAllPaginated self fuel w)
    = Return (Some (ReconcileFull t))
    ∧ map so_ims_subscriber_id (rc_subscribers t)
      = map sub_ims_subscriber_id (take (Z.to_nat 1000100) subs)
    ∧ map so_msisdn (rc_subscribers t)
      = map sub_msisdn (take (Z.to_nat 1000100) subs).
Proof.
  intros Hen Hwf Hserves Hfuel.
  destruct (reconcile_pages_effect http_patch getAllPaginated self Hwf subs fuel
              Hserves 0 sweep_start w) as (r & w1 & e1 & Hrun & _);
    [unfold page_ceiling; lia.. |].
  destruct (reconcile_all_run http_patch getAllPaginated self fuel w w1 r Normal e1
              Hen Hrun) as (le1 & le2 & Hall & _).
  exists (sweep_result Normal r). unfold outcome at 1. rewrite Hall. simpl.
  split; [done |].
  pose proof (reconcile_pages_rows http_patch getAllPaginated self subs fuel Hserves
                0 sweep_start w r) as Hrows.
  unfold outcome in Hrows. rewrite Hrun in Hrows.
  specialize (Hrows ltac:(lia) eq_refl). simpl in Hrows.
  destruct (sweep_result_fields Normal r) as (_ & _ & _ & -> & _).
  rewrite rows_within_0 in Hrows.
  split.
  - apply (f_equal (map fst)) in Hrows. by rewrite !map_map in Hrows.
  - apply (f_equal (map snd)) in Hrows. by rewrite !map_map in Hrows.
Qed.

Lemma sweep_records_in_table_order_witness :
  ∃ t,
    outcome (reconcile_all Scenario.refuse_all (Scenario.paged Scenario.small_table)
               (Scenario.client false [Scenario.pdns1]) (Z.to_nat 10001) tt)
    = Return (Some (ReconcileFull t))
    ∧ map so_ims_subscriber_id (rc_subscribers t) = [Some 37; Some 38].
Proof.
  destruct (sweep_records_in_table_order Scenario.refuse_all
              (Scenario.paged Scenario.small_table)
              (Scenario.client false [Scenario.pdns1]) Scenario.small_table
              (Z.to_nat 10001) tt) as (t & Hrun & Hid & _).
  - reflexivity.
  - apply pdns1_well_formed.
  - apply paged_serves.
  - rewrite Z2Nat.id; lia.
  - exists t. split; [exact Hrun |]. rewrite Hid. reflexivity.
Defined.



(* ===================================================================== *)
(** * The client a configuration gives                                    *)
(* ===================================================================== *)

(** X19: what the defaults of [__init__] mean for the operations.  A
    configuration without the ['enum'] section, or whose section does not
    set ['enabled'] to true, gives a client whose four operations return
    the status [disabled], send nothing and ask the database nothing.  A
    section that enables the engine and has no ['endpoints'] gives a client
    whose create and delete calls, for at least one number, return [ok]
    with an empty tree and no error, without any request. *)
Theorem default_client {World : Type}
    (http_patch : HttpRequest → World → HttpOutcome * World)
    (getAllPaginated : Z → Z → World → DbOutcome * World)
    (enum_section : option EnumConfig) (tool : bool) (kind : ChangeType)
    (a b c d : option string) (fuel : nat) (w : World) :
  let self := __init__ enum_section tool in
  let sync := sync_call http_patch self kind a b w in
  let update := update_enum_entries http_patch self a b c d w in
  let sweep := reconcile_all http_patch getAllPaginated self fuel w in
  ((∀ cfg, enum_section = Some cfg → cfg_enabled cfg ≠ Some true) →
   outcome sync = Return (SyncStatus Disabled)
   ∧ outcome update = Return (UpdateStatus Disabled)
   ∧ outcome sweep = Return (Some (ReconcileStatus Disabled))
   ∧ patches (events sync) = [] ∧ patches (events update) = []
   ∧ patches (events sweep) = [] ∧ page_requests (events sweep) = [])
  ∧ (∀ cfg, enum_section = Some cfg → cfg_enabled cfg = Some true →
            cfg_endpoints cfg = None →
            _parse_msisdn_list a b ≠ [] →
            outcome sync
            = Return (SyncFull {| st_status := Ok; st_endpoints := [];
                                  st_errors := [] |})
            ∧ patches (events sync) = []).
Proof.
  intros self sync update sweep. split.
  - intros Hcfg.
    assert (enabled self = false) as Hen.
    { unfold self, __init__. destruct enum_section as [cfg|]; [|done]. simpl.
      specialize (Hcfg cfg eq_refl). by destruct (cfg_enabled cfg) as [[]|]. }
    unfold sync, update, sweep, outcome, events.
    rewrite sync_call_eq, sync_disabled, update_disabled by done.
    unfold reconcile_all, _log. rewrite Hen. simpl.
    by destruct tool.
  - intros cfg -> Hen Heps Hne.
    unfold sync, outcome, events. rewrite sync_call_eq.
    unfold sync_enum_entries, self, __init__. simpl. rewrite Hen, Heps. simpl.
    destruct (_parse_msisdn_list a b) as [|m ms]; [done |].
    unfold mbind, M_bind, bind, _log. simpl. by destruct tool.
Qed.

(** The client of the empty configuration deletes nothing. *)
Lemma default_client_witness :
  outcome (delete_enum_entries Scenario.accept_all (__init__ None true)
             (Some "111") None tt)
  = Return (SyncStatus Disabled).
Proof.
  apply (proj1 (default_client Scenario.accept_all (Scenario.paged [])
                  None true DELETE (Some "111") None None None 0 tt)).
  intros cfg Hcfg. discriminate Hcfg.
Defined.

(* ===================================================================== *)
(** * The tree of a result                                                *)
(* ===================================================================== *)

Lemma dict_set_fresh {V} (k : string) (v : V) (d : list (string * V)) :
  k ∉ map fst d → dict_set k v d = d ++ [(k, v)].
Proof.
  induction d as [|[k' v'] d IH]; simpl; [done |].
  intros Hk. apply not_elem_of_cons in Hk as [Hne Hk].
  destruct (String.eqb_spec k k') as [->|_]; [done |]. by rewrite IH.
Qed.

Lemma dict_set_last {V} (k : string) (v x : V) (d : list (string * V)) :
  k ∉ map fst d → dict_set k v (d ++ [(k, x)]) = d ++ [(k, v)].
Proof.
  induction d as [|[k' v'] d IH]; simpl.
  - intros _. by rewrite String.eqb_refl.
  - intros Hk. apply not_elem_of_cons in Hk as [Hne Hk].
    destruct (String.eqb_spec k k') as [->|_]; [done |]. by rewrite IH.
Qed.

Lemma dict_get_last {V} (k : string) (x : V) (d : list (string * V)) :
  k ∉ map fst d → dict_get k (d ++ [(k, x)]) = Some x.
Proof.
  induction d as [|[k' v'] d IH]; simpl.
  - intros _. by rewrite String.eqb_refl.
  - intros Hk. apply not_elem_of_cons in Hk as [Hne Hk].
    destruct (String.eqb_spec k k') as [->|_]; [done |]. by apply IH.
Qed.

Lemma domain_entries_keys (ms : list string) (ds : list string)
    (attempts : list (HttpRequest * HttpOutcome)) :
  length attempts = length ds →
  map fst (zip_with (domain_entry ms) ds attempts) = ds.
Proof.
  revert attempts. induction ds as [|d ds IH]; intros [|a attempts]; simpl; try done.
  intros [= Hlen]. by rewrite IH.
Qed.

Section ResultTree.

Context {World : Type}.
Variable http_patch : HttpRequest → World → HttpOutcome * World.
Variable self : ENUMClient.
Variable kind : ChangeType.
Variable ms : list string.

(** One pass of the inner loop that returns has made one attempt and set
    the entry of the domain. *)
Lemma sync_domain_tree (endpoint : Endpoint) (results : SyncTree)
    (domain : string) (w : World) :
  match sync_domain http_patch self kind endpoint (endpoint_name_of endpoint)
          (default "" (ep_sip_domain endpoint)) ms results domain w with
  | (Return results', _, e) =>
      ∃ a, patches e = [a]
           ∧ st_endpoints results'
             = dict_set (endpoint_name_of endpoint)
                 (dict_set domain (domain_entry ms domain a).2
                    (default [] (dict_get (endpoint_name_of endpoint)
                                   (st_endpoints results))))
                 (st_endpoints results)
  | (Raise _, _, _) => True
  end.
Proof.
  unfold sync_domain.
  set (rrsets := map _ ms).
  pose proof (make_pdns_run http_patch endpoint domain rrsets w) as Hrun.
  destruct (request_for endpoint domain rrsets) as [req|].
  2:{ destruct Hrun as [key Hrun].
      unfold mbind, M_bind, bind. by rewrite Hrun. }
  simpl in Hrun. unfold mbind, M_bind, bind at 1. rewrite Hrun.
  set (out := (http_patch req w).1).
  unfold domain_entry.
  destruct (failure_detail out) as [detail|] eqn:Hd; simpl.
  - destruct (log_patches self "error"
                (kind_failed_log kind +:+ endpoint_name_of endpoint +:+ "/"
                 +:+ domain +:+ ": " +:+ detail) (http_patch req w).2)
      as (le & Hle & Hpl & _).
    unfold bind. rewrite Hle.
    destruct (strict_mode self); simpl; [done |].
    exists (req, out). simpl. rewrite Hd.
    by rewrite app_nil_r, Hpl.
  - destruct (log_patches self "info"
                (kind_ok_log kind +:+ endpoint_name_of endpoint +:+ "/" +:+ domain)
                (http_patch req w).2) as (le & Hle & Hpl & _).
    unfold bind. rewrite Hle. simpl.
    exists (req, out). simpl. rewrite Hd.
    by rewrite app_nil_r, Hpl.
Qed.

(** The inner loop, started on the entry of the endpoint. *)
Lemma sync_domains_tree (endpoint : Endpoint) (domains : list string) :
  ∀ (tree0 : list (string * list (string * DomainResult)))
    (doms0 : list (string * DomainResult)) (results : SyncTree) (w : World),
    st_endpoints results = tree0 ++ [(endpoint_name_of endpoint, doms0)] →
    endpoint_name_of endpoint ∉ map fst tree0 →
    NoDup (map fst doms0 ++ domains) →
    match foldM (sync_domain http_patch self kind endpoint
                   (endpoint_name_of endpoint)
                   (default "" (ep_sip_domain endpoint)) ms) results domains w with
    | (Return results', _, e) =>
        length (patches e) = length domains
        ∧ st_endpoints results'
          = tree0 ++ [(endpoint_name_of endpoint,
                       doms0 ++ zip_with (domain_entry ms) domains (patches e))]
    | (Raise _, _, _) => True
    end.
Proof.
  induction domains as [|d ds IH]; intros tree0 doms0 results w Htree Hname Hnd.
  - simpl. by rewrite app_nil_r.
  - rewrite foldM_cons.
    pose proof (sync_domain_tree endpoint results d w) as Hstep.
    destruct (sync_domain _ _ _ _ _ _ _ results d w) as [[[r1|ex] w1] e1]; [|done].
    destruct Hstep as (a & Hp1 & Ht1).
    rewrite Htree, dict_get_last, dict_set_last in Ht1 by done. simpl in Ht1.
    apply NoDup_app in Hnd as (Hnd0 & Hdis & Hndds).
    apply NoDup_cons in Hndds as [Hd Hndds].
    rewrite dict_set_fresh in Ht1.
    2:{ intros Hin. by apply (Hdis d Hin), list_elem_of_here. }
    specialize (IH tree0 (doms0 ++ [(d, (domain_entry ms d a).2)]) r1 w1 Ht1 Hname).
    destruct (foldM _ r1 ds w1) as [[[r2|ex] w2] e2]; [|done].
    destruct IH as [Hlen Ht2].
    { rewrite map_app. simpl. rewrite <- app_assoc. simpl.
      apply NoDup_app. split_and!; [done | | by apply NoDup_cons].
      intros x Hx Hx'. by apply (Hdis x Hx). }
    rewrite patches_app, Hp1. simpl. split; [by rewrite Hlen |].
    rewrite Ht2, <- app_assoc. done.
Qed.

(** The outer loop. *)
Lemma sync_endpoints_tree (eps : list Endpoint) :
  ∀ (results : SyncTree) (w : World),
    NoDup (map fst (st_endpoints results) ++ map endpoint_name_of eps) →
    Forall (λ ep, NoDup (default [] (ep_domains ep))) eps →
    match foldM (sync_endpoint http_patch self kind ms) results eps w with
    | (Return results', _, e) =>
        st_endpoints results' = st_endpoints results ++ tree_of ms eps (patches e)
    | (Raise _, _, _) => True
    end.
Proof.
  induction eps as [|ep eps IH]; intros results w Hnd Hdoms.
  - simpl. by rewrite app_nil_r.
  - rewrite foldM_cons. unfold sync_endpoint at 1. cbv zeta.
    apply NoDup_app in Hnd as (Hnd0 & Hdis & Hndeps).
    simpl in Hndeps. apply NoDup_cons in Hndeps as [Hep Hndeps].
    apply Forall_cons in Hdoms as [Hd Hdoms].
    assert (endpoint_name_of ep ∉ map fst (st_endpoints results)) as Hfresh.
    { intros Hin. by apply (Hdis _ Hin), list_elem_of_here. }
    pose proof (sync_domains_tree ep (default [] (ep_domains ep))
                  (st_endpoints results) []
                  (st_open_endpoint (endpoint_name_of ep) results) w) as Hloop.
    simpl in Hloop. rewrite dict_set_fresh in Hloop by done.
    specialize (Hloop eq_refl Hfresh Hd).
    destruct (foldM _ (st_open_endpoint _ results) _ w) as [[[r1|ex] w1] e1];
      [|exact I].
    destruct Hloop as [Hlen Ht1].
    specialize (IH r1 w1).
    destruct (foldM _ r1 eps w1) as [[[r2|ex] w2] e2]; [|done].
    rewrite IH, Ht1.
    + rewrite patches_app. simpl.
      rewrite <- Hlen, take_app_length, drop_app_length, <- app_assoc. done.
    + rewrite Ht1, map_app. simpl. rewrite <- app_assoc. simpl.
      apply NoDup_app. split_and!; [done | | by apply NoDup_cons].
      intros x Hx Hx'. apply (Hdis x Hx). simpl. done.
    + done.
Qed.

End ResultTree.

(** X20: the tree a call of create or delete returns.  When no two
    endpoints go by the same name and no endpoint lists a domain twice, the
    tree has one entry for each configured endpoint, in configured order and
    under its name (the ['name'], else the ['url'], else "unknown"), and in
    it one entry for each domain of the endpoint, in order, that holds the
    parsed numbers and whether the attempt for the pair succeeded. *)
Theorem result_tree_entries {World : Type}
    (http_patch : HttpRequest → World → HttpOutcome * World) (self : ENUMClient)
    (kind : ChangeType) (msisdn msisdn_list : option string) (w : World)
    (t : SyncTree) :
  distinct_names (endpoints self) →
  let run := sync_call http_patch self kind msisdn msisdn_list w in
  outcome run = Return (SyncFull t) →
  st_endpoints t
  = tree_of (_parse_msisdn_list msisdn msisdn_list) (endpoints self)
      (patches (events run)).
Proof.
  intros [Hnames Hdoms] run. unfold run, outcome, events. rewrite sync_call_eq.
  unfold sync_enum_entries.
  destruct (enabled self); simpl; [|unfold _log; by destruct (log_tool self)].
  destruct (_parse_msisdn_list msisdn msisdn_list) as [|m ms] eqn:Hp;
    [unfold _log; by destruct (log_tool self) |].
  unfold mbind, M_bind, bind.
  destruct (log_patches self "info"
              (kind_start_log kind +:+ PyStr.repr_list (m :: ms)) w)
    as (le & -> & Hpl & _).
  pose proof (sync_endpoints_tree http_patch self kind (m :: ms) (endpoints self)
                {| st_status := Ok; st_endpoints := []; st_errors := [] |} w
                Hnames Hdoms) as Hloop.
  destruct (foldM _ _ (endpoints self) w) as [[[r|ex] w1] e1]; simpl in *; [|done].
  intros [= <-]. rewrite app_nil_r, patches_app, Hpl. simpl.
  unfold st_finish. by destruct (st_errors r).
Qed.

(** The tree of a refused create on the one endpoint [pdns1]. *)
Lemma result_tree_entries_witness :
  st_endpoints Scenario.partial_tree
  = tree_of (_parse_msisdn_list (Some "111") None) [Scenario.pdns1]
      (patches (events (create_enum_entries Scenario.refuse_all
                          (Scenario.client false [Scenario.pdns1])
                          (Some "111") None tt))).
Proof.
  apply (result_tree_entries Scenario.refuse_all
           (Scenario.client false [Scenario.pdns1]) REPLACE (Some "111") None tt
           Scenario.partial_tree).
  - split.
    + apply NoDup_cons. split; [apply not_elem_of_nil | apply NoDup_nil_2].
    + apply Forall_singleton. simpl.
      apply NoDup_cons. split; [apply not_elem_of_nil | apply NoDup_nil_2].
  - vm_compute. reflexivity.
Defined.

(** Why the names have to differ: two endpoints without a name on one
    server go by the same name, and the entry of the first is replaced by
    that of the second. *)
Example same_name_endpoints_share_entry :
  ∃ t evs,
    create_enum_entries Scenario.accept_all
      (Scenario.client false [twin_endpoint; twin_endpoint_2]) (Some "111") None tt
    = (Return (SyncFull t), tt, evs)
    ∧ length (patches evs) = 2%nat
    ∧ st_endpoints t
      = [("http://pdns1:8081",
          [("e164.example", {| dr_success := true; dr_msisdns := ["111"] |})])].
Proof. eexists _, _. split; [vm_compute; reflexivity |]. done. Qed.

(* ===================================================================== *)
(** * Logging changes nothing else                                        *)
(* ===================================================================== *)

Lemma erase_logs_app (e1 e2 : list Event) :
  erase_logs (e1 ++ e2) = erase_logs e1 ++ erase_logs e2.
Proof. apply List.filter_app. Qed.

Lemma erase_logs_projections (evs : list Event) :
  logs (erase_logs evs) = []
  ∧ patches (erase_logs evs) = patches evs
  ∧ page_requests (erase_logs evs) = page_requests evs.
Proof.
  induction evs as [|ev evs (IH1 & IH2 & IH3)]; [done |].
  destruct ev; simpl; unfold patches, page_requests in *; simpl;
    rewrite ?IH2, ?IH3; done.
Qed.

Section Quiet.

Context {World : Type}.
Variable http_patch : HttpRequest → World → HttpOutcome * World.
Variable getAllPaginated : Z → Z → World → DbOutcome * World.
Variable self : ENUMClient.

Lemma quieter_ret {A} (a : A) : quieter (World := World) (ret a) (ret a).
Proof. done. Qed.

Lemma quieter_raise {A} (e : Exn) :
  quieter (World := World) (A := A) (raise e) (raise e).
Proof. done. Qed.

Lemma quieter_bind {A B} (m' m : M World A) (k' k : A → M World B) :
  quieter m' m → (∀ a, quieter (k' a) (k a)) → quieter (bind m' k') (bind m k).
Proof.
  intros Hm Hk w. unfold bind. rewrite Hm.
  destruct (m w) as [[[a|e] w1] e1];
    unfold without_logs, outcome, world_after, events; simpl; [|done].
  rewrite Hk. destruct (k a w1) as [[o w2] e2].
  unfold without_logs, outcome, world_after, events. simpl.
  by rewrite erase_logs_app.
Qed.

Lemma quieter_try {A} (m' m : M World A) :
  quieter m' m → quieter (try_ m') (try_ m).
Proof.
  intros Hm w. unfold try_. rewrite Hm.
  by destruct (m w) as [[[a|e] w1] e1].
Qed.

Lemma quieter_foldM {A B} (f' f : B → A → M World B) (l : list A) :
  (∀ b x, quieter (f' b x) (f b x)) →
  ∀ b, quieter (foldM f' b l) (foldM f b l).
Proof.
  intros Hf. induction l as [|x l IH]; intros b; [done |].
  simpl. apply quieter_bind; [apply Hf | apply IH].
Qed.

Lemma quieter_log (level message : string) :
  quieter (World := World) (_log (Scenario.quiet self) level message)
    (_log self level message).
Proof. intros w. unfold _log. simpl. by destruct (log_tool self). Qed.

Lemma quieter_make_pdns_request (endpoint : Endpoint) (zone : string)
    (rrsets : list RRSet) :
  quieter (_make_pdns_request http_patch endpoint zone rrsets)
    (_make_pdns_request http_patch endpoint zone rrsets).
Proof.
  intros w. pose proof (make_pdns_run http_patch endpoint zone rrsets w) as Hrun.
  destruct (request_for endpoint zone rrsets) as [req|].
  - simpl in Hrun. by rewrite Hrun.
  - destruct Hrun as [key ->]. done.
Qed.

Lemma quieter_db (page size : Z) :
  quieter (db_getAllPaginated getAllPaginated page size)
    (db_getAllPaginated getAllPaginated page size).
Proof.
  intros w. unfold db_getAllPaginated.
  by destruct (getAllPaginated page size w) as [[subs|msg] w1].
Qed.

Lemma quieter_sync (kind : ChangeType) (msisdn msisdn_list : option string) :
  quieter (sync_enum_entries http_patch (Scenario.quiet self) kind msisdn msisdn_list)
    (sync_enum_entries http_patch self kind msisdn msisdn_list).
Proof.
  unfold sync_enum_entries. simpl (enabled _).
  destruct (enabled self); simpl.
  2:{ apply quieter_bind; [apply quieter_log | intros; apply quieter_ret]. }
  destruct (_parse_msisdn_list msisdn msisdn_list) as [|m ms].
  { apply quieter_bind; [apply quieter_log | intros; apply quieter_ret]. }
  apply quieter_bind; [apply quieter_log | intros _].
  apply quieter_bind; [|intros; apply quieter_ret].
  apply quieter_foldM. intros results ep. unfold sync_endpoint.
  apply quieter_foldM. intros results' domain. unfold sync_domain.
  apply quieter_bind; [apply quieter_make_pdns_request |].
  intros [success error]. simpl (strict_mode _).
  destruct success; simpl.
  - apply quieter_bind; [apply quieter_log | intros; apply quieter_ret].
  - apply quieter_bind; [apply quieter_log | intros _].
    destruct (strict_mode self); [apply quieter_raise | apply quieter_ret].
Qed.

Lemma quieter_phase (kind : ChangeType) (s : gset string) (results : UpdateTree) :
  quieter
    match kind with
    | REPLACE => update_create_phase http_patch (Scenario.quiet self) s results
    | DELETE => update_delete_phase http_patch (Scenario.quiet self) s results
    end
    match kind with
    | REPLACE => update_create_phase http_patch self s results
    | DELETE => update_delete_phase http_patch self s results
    end.
Proof.
  destruct kind; unfold update_create_phase, update_delete_phase;
    (destruct (set_truthy s); [|apply quieter_ret]);
    (apply quieter_bind;
     [apply quieter_try; rewrite ?create_is_sync, ?delete_is_sync;
      apply quieter_sync |]);
    intros [r|e]; try apply quieter_ret;
    unfold update_except; simpl (strict_mode _);
    destruct e; try apply quieter_raise;
    destruct (strict_mode self); (apply quieter_raise || apply quieter_ret).
Qed.

Lemma quieter_update (a b c d : option string) :
  quieter (update_enum_entries http_patch (Scenario.quiet self) a b c d)
    (update_enum_entries http_patch self a b c d).
Proof.
  unfold update_enum_entries. simpl (enabled _).
  destruct (enabled self); simpl.
  2:{ apply quieter_bind; [apply quieter_log | intros; apply quieter_ret]. }
  apply quieter_bind; [apply quieter_log | intros _].
  apply quieter_bind; [apply (quieter_phase DELETE) | intros r1].
  apply quieter_bind; [apply (quieter_phase REPLACE) | intros r2].
  apply quieter_ret.
Qed.

Lemma quieter_subscriber (results : ReconcileTree) (sub : Subscriber) :
  quieter (reconcile_subscriber http_patch (Scenario.quiet self) results sub)
    (reconcile_subscriber http_patch self results sub).
Proof.
  unfold reconcile_subscriber.
  apply quieter_bind;
    [apply quieter_try; rewrite !create_is_sync; apply quieter_sync |].
  intros [r|e].
  - destruct (counts_as_succeeded (sync_status r)); apply quieter_ret.
  - destruct e; apply quieter_ret.
Qed.

Lemma quieter_page (subscribers : list Subscriber) :
  ∀ results,
    quieter (reconcile_page http_patch (Scenario.quiet self) results subscribers)
      (reconcile_page http_patch self results subscribers).
Proof.
  induction subscribers as [|sub rest IH]; intros results; [apply quieter_ret |].
  simpl. apply quieter_bind; [apply quieter_subscriber |].
  intros [r c]. destruct c; [apply IH | apply quieter_ret].
Qed.

Lemma quieter_pages (fuel : nat) :
  ∀ page results,
    quieter (reconcile_pages http_patch getAllPaginated (Scenario.quiet self)
               fuel page results)
      (reconcile_pages http_patch getAllPaginated self fuel page results).
Proof.
  induction fuel as [|fuel IH]; intros page results; [apply quieter_ret |].
  rewrite !reconcile_pages_S.
  apply quieter_bind; [apply quieter_try, quieter_db |].
  intros [[|sub rest]|e]; try apply quieter_ret.
  apply quieter_bind; [apply quieter_page |].
  intros [r c]. destruct c; [|apply quieter_ret].
  destruct (page + 1 >? 10000); [|apply IH].
  apply quieter_bind; [apply quieter_log | intros; apply quieter_ret].
Qed.

Lemma quieter_sweep (fuel : nat) :
  quieter (reconcile_all http_patch getAllPaginated (Scenario.quiet self) fuel)
    (reconcile_all http_patch getAllPaginated self fuel).
Proof.
  unfold reconcile_all. simpl (enabled _).
  destruct (enabled self); simpl.
  2:{ apply quieter_bind; [apply quieter_log | intros; apply quieter_ret]. }
  apply quieter_bind; [apply quieter_log | intros _].
  apply quieter_bind; [apply quieter_pages |].
  intros [[r c]|]; [|apply quieter_ret].
  apply quieter_bind.
  - unfold reconcile_except. destruct c; [apply quieter_ret |].
    apply quieter_bind; [apply quieter_log | intros; apply quieter_ret].
  - intros r'. apply quieter_bind; [apply quieter_log | intros; apply quieter_ret].
Qed.

End Quiet.

(** X21: logging changes nothing else.  The same client without its log
    tool runs create, delete, update and the sweep to the same outcome and
    the same world, with the same requests to the servers and the same page
    requests to the database, in the same order: its events are those of
    the client with the log tool, less the log lines. *)
Theorem logging_is_silent {World : Type}
    (http_patch : HttpRequest → World → HttpOutcome * World)
    (getAllPaginated : Z → Z → World → DbOutcome * World)
    (self : ENUMClient) (kind : ChangeType) (a b c d : option string)
    (fuel : nat) (w : World) :
  sync_call http_patch (Scenario.quiet self) kind a b w
  = without_logs (sync_call http_patch self kind a b w)
  ∧ update_enum_entries http_patch (Scenario.quiet self) a b c d w
    = without_logs (update_enum_entries http_patch self a b c d w)
  ∧ reconcile_all http_patch getAllPaginated (Scenario.quiet self) fuel w
    = without_logs (reconcile_all http_patch getAllPaginated self fuel w)
  ∧ ∀ evs, logs (erase_logs evs) = []
           ∧ patches (erase_logs evs) = patches evs
           ∧ page_requests (erase_logs evs) = page_requests evs.
Proof.
  split_and!.
  - rewrite !sync_call_eq. apply quieter_sync.
  - apply quieter_update.
  - apply quieter_sweep.
  - apply erase_logs_projections.
Qed.

(* ===================================================================== *)
(** * The pages of a sweep                                                *)
(* ===================================================================== *)

Section SweepPages.

Context {World : Type}.
Variable http_patch : HttpRequest → World → HttpOutcome * World.
Variable getAllPaginated : Z → Z → World → DbOutcome * World.
Variable self : ENUMClient.
Hypothesis endpoints_well_formed : Forall well_formed (endpoints self).

Lemma reconcile_pages_count (subs : list Subscriber) (fuel : nat) :
  serves getAllPaginated subs →
  ∀ (page : Z) (results : ReconcileTree) (w : World),
    0 ≤ page ≤ 10000 →
    10001 - page ≤ Z.of_nat fuel →
    Z.of_nat (length (page_requests
                        (events (reconcile_pages http_patch getAllPaginated self
                                   fuel page results w))))
    = Z.max 1 (last_page (Z.of_nat (length subs)) - page + 1).
Proof.
  intros Hserves. unfold last_page.
  pose proof (Z.div_mod (Z.of_nat (length subs) + 99) 100 ltac:(lia)) as Hdiv.
  pose proof (Z.mod_pos_bound (Z.of_nat (length subs) + 99) 100 ltac:(lia)) as Hmod.
  set (q := (Z.of_nat (length subs) + 99) / 100) in *.
  set (rem := (Z.of_nat (length subs) + 99) mod 100) in *.
  induction fuel as [|fuel IH]; intros page results w Hpage Hfuel; [lia |].
  rewrite reconcile_pages_S. unfold mbind, M_bind. unfold bind at 1.
  destruct (db_run getAllPaginated page w) as (r & w1 & ev & -> & Hev & Hr).
  rewrite Hserves in Hr by lia. subst r.
  apply page_requests_single in Hev.
  pose proof (page_slice_length subs page (proj1 Hpage)) as Hlen.
  unfold page_size in *.
  destruct (page_slice subs page 100) as [|sub rest] eqn:Hslice.
  - unfold events, mret, M_ret, ret. cbn [snd app]. rewrite Hev. simpl in *. lia.
  - unfold bind.
    destruct (reconcile_page_effect http_patch self endpoints_well_formed
                (sub :: rest) results w1) as (r2 & w2 & e2 & -> & _ & Hg2).
    simpl length in Hlen.
    destruct (Z.gtb_spec (page + 1) 10000) as [Hgt|Hle].
    + destruct (log_patches self "warning"
                  "Reconciliation stopped at page 10000" w2)
        as (le & Hle & _ & Hgl & _).
      rewrite Hle. unfold events, mret, M_ret, ret. cbn [snd app].
      change (ev :: e2 ++ le ++ []) with ([ev] ++ e2 ++ le ++ []).
      rewrite !page_requests_app, Hev, Hg2, Hgl. simpl. lia.
    + specialize (IH (page + 1) r2 w2 ltac:(lia) ltac:(lia)).
      unfold events in *.
      destruct (reconcile_pages _ _ _ fuel (page + 1) r2 w2) as [[o w3] e3].
      cbn [snd app] in *.
      change (ev :: e2 ++ e3) with ([ev] ++ e2 ++ e3).
      rewrite !page_requests_app, Hev, Hg2, !length_app. simpl length. lia.
Qed.

End SweepPages.

(** X22: how many pages a sweep asks for.  With well-formed endpoints and a
    database that serves a table of N rows, the sweep asks for the pages 0,
    1, 2, ... of 100 rows up to the first empty page, which is page N/100
    rounded up, or up to page 10000 when the table is longer: a table whose
    length is a multiple of 100 costs one request for an empty page, and no
    table costs more than 10,001 requests. *)
Theorem sweep_page_count {World : Type}
    (http_patch : HttpRequest → World → HttpOutcome * World)
    (getAllPaginated : Z → Z → World → DbOutcome * World)
    (self : ENUMClient) (subs : list Subscriber) (fuel : nat) (w : World) :
  enabled self = true →
  Forall well_formed (endpoints self) →
  serves getAllPaginated subs →
  10001 ≤ Z.of_nat fuel →
  ∃ n : nat,
    page_requests (events (reconcile_all http_patch getAllPaginated self fuel w))
    = (λ i, (Z.of_nat i, 100)) <$> seq 0 n
    ∧ Z.of_nat n = Z.min ((Z.of_nat (length subs) + 99) / 100) 10000 + 1.
Proof.
  intros Hen Hwf Hserves Hfuel.
  destruct (reconcile_all_total http_patch getAllPaginated self fuel w)
    as (r & w' & evs & n & Hrun & Hpg & _); [unfold page_ceiling; lia |].
  exists n. unfold events at 1. rewrite Hrun. simpl. split; [done |].
  destruct (reconcile_pages_total http_patch getAllPaginated self fuel 0
              sweep_start w) as (r1 & c & w1 & e1 & n1 & Hloop & _);
    [unfold page_ceiling; lia.. |].
  destruct (reconcile_all_run http_patch getAllPaginated self fuel w w1 r1 c e1
              Hen Hloop) as (le1 & le2 & Hall & _ & Hg1 & _ & Hg2 & _).
  rewrite Hrun in Hall. injection Hall as _ _ ->.
  pose proof (reconcile_pages_count http_patch getAllPaginated self Hwf subs fuel
                Hserves 0 sweep_start w ltac:(lia) ltac:(lia)) as Hcount.
  unfold events in Hcount. rewrite Hloop in Hcount. simpl in Hcount.
  rewrite !page_requests_app, Hg1, Hg2, app_nil_r in Hpg. simpl in Hpg.
  rewrite Hpg, length_fmap, length_seq in Hcount. unfold last_page in Hcount.
  assert (0 ≤ (Z.of_nat (length subs) + 99) / 100) by (apply Z.div_pos; lia).
  lia.
Qed.

(** The table of two rows costs two requests: page 0 and the empty page 1. *)
Lemma sweep_page_count_witness :
  ∃ n : nat,
    page_requests (events (reconcile_all Scenario.accept_all
                             (Scenario.paged Scenario.small_table)
                             (Scenario.client false [Scenario.pdns1])
                             (Z.to_nat 10001) tt))
    = (λ i, (Z.of_nat i, 100)) <$> seq 0 n
    ∧ Z.of_nat n = 2.
Proof.
  destruct (sweep_page_count Scenario.accept_all (Scenario.paged Scenario.small_table)
              (Scenario.client false [Scenario.pdns1]) Scenario.small_table
              (Z.to_nat 10001) tt) as (n & Hpg & Hn).
  - reflexivity.
  - apply pdns1_well_formed.
  - apply paged_serves.
  - rewrite Z2Nat.id; lia.
  - exists n. split; [exact Hpg |]. rewrite Hn. reflexivity.
Defined.

(* ===================================================================== *)
(** * Update by the calls it makes, and the digits of the specification   *)
(* ===================================================================== *)

Section UpdateCalls.

Context {World : Type}.
Variable http_patch : HttpRequest → World → HttpOutcome * World.
Variable self : ENUMClient.

Lemma log_exact (level message : string) (w : World) :
  _log self level message w
  = (Return tt, w, if log_tool self then [EvLog level message] else []).
Proof. unfold _log. by destruct (log_tool self). Qed.

(** A phase of update is skipped for an empty set, and is the call of
    delete or create on the joined set otherwise. *)
Lemma phase_exact (kind : ChangeType) (s : gset string) (results : UpdateTree)
    (w : World) :
  match kind with
  | REPLACE => update_create_phase http_patch self s results w
  | DELETE => update_delete_phase http_patch self s results w
  end
  = if set_truthy s then
      match sync_call http_patch self kind None
              (Some (PyStr.join "," (elements s))) w with
      | (Return r, w1, e1) =>
          (Return (merge_errors r
                     match kind with
                     | REPLACE => up_set_created (elements s) results
                     | DELETE => up_set_deleted (elements s) results
                     end), w1, e1 ++ [])
      | (Raise e, w1, e1) => (Raise e, w1, e1 ++ [])
      end
    else (Return results, w, []).
Proof.
  rewrite sync_call_eq.
  destruct kind; unfold update_create_phase, update_delete_phase;
    rewrite ?create_is_sync, ?delete_is_sync;
    (destruct (set_truthy s); [|done]);
    unfold mbind, M_bind, bind, try_;
    match goal with
    | |- context [sync_enum_entries ?h ?c ?k ?a ?b ?w] =>
        pose proof (update_except_strict h c k a b w) as Hex;
        destruct (sync_enum_entries h c k a b w) as [[[r|e] w1] e1]
    end; simpl; try done;
    by rewrite (Hex w1 e _ eq_refl).
Qed.

Lemma delete_phase_exact (s : gset string) (results : UpdateTree) (w : World) :
  update_delete_phase http_patch self s results w
  = if set_truthy s then
      match delete_enum_entries http_patch self None
              (Some (PyStr.join "," (elements s))) w with
      | (Return r, w1, e1) =>
          (Return (merge_errors r (up_set_deleted (elements s) results)), w1,
           e1 ++ [])
      | (Raise e, w1, e1) => (Raise e, w1, e1 ++ [])
      end
    else (Return results, w, []).
Proof. exact (phase_exact DELETE s results w). Qed.

Lemma create_phase_exact (s : gset string) (results : UpdateTree) (w : World) :
  update_create_phase http_patch self s results w
  = if set_truthy s then
      match create_enum_entries http_patch self None
              (Some (PyStr.join "," (elements s))) w with
      | (Return r, w1, e1) =>
          (Return (merge_errors r (up_set_created (elements s) results)), w1,
           e1 ++ [])
      | (Raise e, w1, e1) => (Raise e, w1, e1 ++ [])
      end
    else (Return results, w, []).
Proof. exact (phase_exact REPLACE s results w). Qed.

Lemma merge_errors_sets (r : SyncResult) (results : UpdateTree) :
  up_deleted (merge_errors r results) = up_deleted results
  ∧ up_created (merge_errors r results) = up_created results.
Proof.
  unfold merge_errors. by destruct (sync_errors r) as [[|e errs]|].
Qed.

Lemma set_truthy_elements (s : gset string) :
  set_truthy s = false → elements s = [].
Proof. unfold set_truthy. by destruct (elements s). Qed.

(** The run of an enabled update, by the two calls it makes. *)
Lemma update_calls (old_msisdn old_msisdn_list new_msisdn new_msisdn_list
    : option string) (w : World) :
  enabled self = true →
  let to_delete := msisdn_set old_msisdn old_msisdn_list
                   ∖ msisdn_set new_msisdn new_msisdn_list in
  let to_create := msisdn_set new_msisdn new_msisdn_list
                   ∖ msisdn_set old_msisdn old_msisdn_list in
  let run := update_enum_entries http_patch self old_msisdn old_msisdn_list
               new_msisdn new_msisdn_list w in
  let line := update_line self to_delete to_create in
  let delete_call := delete_enum_entries http_patch self None
                       (Some (PyStr.join "," (elements to_delete))) w in
  let after_delete :=
    if set_truthy to_delete then world_after delete_call else w in
  let create_call := create_enum_entries http_patch self None
                       (Some (PyStr.join "," (elements to_create))) after_delete in
  let delete_events := if set_truthy to_delete then events delete_call else [] in
  let create_events := if set_truthy to_create then events create_call else [] in
  let delete_raised e :=
    set_truthy to_delete = true ∧ outcome delete_call = Raise e in
  let create_raised e :=
    set_truthy to_create = true ∧ outcome create_call = Raise e in
  (∀ e, delete_raised e →
        outcome run = Raise e
        ∧ world_after run = world_after delete_call
        ∧ events run = line ++ delete_events)
  ∧ ((∀ e, ¬ delete_raised e) →
     (∀ e, create_raised e →
           outcome run = Raise e
           ∧ world_after run = world_after create_call
           ∧ events run = line ++ delete_events ++ create_events)
     ∧ ((∀ e, ¬ create_raised e) →
        ∃ t, outcome run = Return (UpdateFull t)
             ∧ up_deleted t = elements to_delete
             ∧ up_created t = elements to_create
             ∧ world_after run
               = (if set_truthy to_create then world_after create_call
                  else after_delete)
             ∧ events run = line ++ delete_events ++ create_events)).
Proof.
  intros Hen to_delete to_create run line delete_call after_delete create_call
    delete_events create_events delete_raised create_raised.
  set (start := {| up_status := Ok; up_deleted := []; up_created := [];
                   up_errors := [] |}).
  assert (run
          = match (if set_truthy to_delete then
                     match delete_call with
                     | (Return r, w1, e1) =>
                         (Return (merge_errors r
                                    (up_set_deleted (elements to_delete) start)),
                          w1, e1 ++ [])
                     | (Raise e, w1, e1) => (Raise e, w1, e1 ++ [])
                     end
                   else (Return start, w, [])) with
            | (Return r1, w1, e1) =>
                match (if set_truthy to_create then
                         match create_enum_entries http_patch self None
                                 (Some (PyStr.join "," (elements to_create)))
                                 w1 with
                         | (Return r, w2, e2) =>
                             (Return (merge_errors r
                                        (up_set_created (elements to_create) r1)),
                              w2, e2 ++ [])
                         | (Raise e, w2, e2) => (Raise e, w2, e2 ++ [])
                         end
                       else (Return r1, w1, [])) with
                | (Return r2, w2, e2) =>
                    (Return (UpdateFull
                               match up_errors r2 with
                               | [] => r2
                               | _ :: _ => up_set_status Partial r2
                               end), w2, line ++ e1 ++ e2 ++ [])
                | (Raise e, w2, e2) => (Raise e, w2, line ++ e1 ++ e2)
                end
            | (Raise e, w1, e1) => (Raise e, w1, line ++ e1)
            end) as Hrun.
  { unfold run, update_enum_entries. rewrite Hen. simpl.
    fold to_delete to_create. fold start.
    unfold mbind, M_bind. unfold bind at 1. rewrite log_exact.
    fold (update_line self to_delete to_create). fold line.
    unfold bind at 1. rewrite delete_phase_exact. fold delete_call.
    destruct (set_truthy to_delete), delete_call as [[[rd|ed] wd] evd];
      try done;
      unfold bind at 1; rewrite create_phase_exact;
      destruct (set_truthy to_create); try done;
      match goal with
      | |- context [create_enum_entries ?h ?c ?a ?b ?w1] =>
          by destruct (create_enum_entries h c a b w1) as [[[rc|ec] wc] evc]
      end. }
  clearbody run. subst run.
  unfold delete_raised, create_raised, delete_events, create_events, create_call,
    after_delete.
  assert (∀ r results, up_deleted (merge_errors r results) = up_deleted results)
    as Hmd by (intros; apply merge_errors_sets).
  assert (∀ r results, up_created (merge_errors r results) = up_created results)
    as Hmc by (intros; apply merge_errors_sets).
  assert (∀ t : UpdateTree,
            up_deleted match up_errors t with
                       | [] => t
                       | _ :: _ => up_set_status Partial t
                       end = up_deleted t
            ∧ up_created match up_errors t with
                         | [] => t
                         | _ :: _ => up_set_status Partial t
                         end = up_created t) as Hst.
  { intros t. by destruct (up_errors t). }
  destruct (set_truthy to_delete) eqn:Htd.
  - destruct delete_call as [[[rd|ed] wd] evd];
      unfold outcome, world_after, events; simpl.
    + split; [by intros e [_ [=]] |]. intros _.
      destruct (set_truthy to_create) eqn:Htc.
      * destruct (create_enum_entries _ _ _ _ wd) as [[[rc|ec] wc] evc]; simpl.
        -- split; [by intros e [_ [=]] |]. intros _.
           eexists. split; [reflexivity |].
           destruct (Hst (merge_errors rc
                            (up_set_created (elements to_create)
                               (merge_errors rd
                                  (up_set_deleted (elements to_delete) start)))))
             as [-> ->].
           rewrite Hmd, Hmc. simpl. rewrite Hmd. simpl.
           by rewrite !app_nil_r.
        -- split.
           ++ intros e [_ [= <-]]. by rewrite !app_nil_r.
           ++ intros Hno. by destruct (Hno ec).
      * split; [by intros e [[=] _] |]. intros _.
        eexists. split; [reflexivity |].
        destruct (Hst (merge_errors rd (up_set_deleted (elements to_delete) start)))
          as [-> ->].
        rewrite Hmd, Hmc. simpl.
        by rewrite !app_nil_r, (set_truthy_elements to_create Htc).
    + split.
      * intros e [_ [= <-]]. by rewrite !app_nil_r.
      * intros Hno. by destruct (Hno ed).
  - unfold outcome, world_after, events. simpl.
    split; [by intros e [[=] _] |]. intros _.
    rewrite (set_truthy_elements to_delete Htd).
    destruct (set_truthy to_create) eqn:Htc.
    + destruct (create_enum_entries _ _ _ _ w) as [[[rc|ec] wc] evc]; simpl.
      * split; [by intros e [_ [=]] |]. intros _.
        eexists. split; [reflexivity |].
        destruct (Hst (merge_errors rc (up_set_created (elements to_create) start)))
          as [-> ->].
        rewrite Hmd, Hmc. simpl. by rewrite !app_nil_r.
      * split.
        -- intros e [_ [= <-]]. by rewrite !app_nil_r.
        -- intros Hno. by destruct (Hno ec).
    + split; [by intros e [[=] _] |]. intros _.
      eexists. split; [reflexivity |]. simpl.
      by rewrite (set_truthy_elements to_create Htc), !app_nil_r.
Qed.

End UpdateCalls.

(** C1: update takes the numbers to delete as the old set minus the new
    set and the numbers to create as the new set minus the old set, both
    sets being the parsed inputs.  With the engine enabled its run is its
    info line, then the call of delete on the numbers to delete, joined with
    commas, unless that set is empty, then the call of create on the numbers
    to create in the world the delete call left, unless that set is empty,
    and nothing else: the events of the update are the line and the events
    of the calls made, an exception of a call is the outcome of the update
    (after a raising delete call no create call is made), and otherwise the
    result lists the numbers to delete as [deleted] and the numbers to
    create as [created].  The joined sets parse back to the same numbers, so
    every request of an update is a DELETE request for exactly the numbers to
    delete or, after those, a REPLACE request for exactly the numbers to
    create; when the two sets are equal no call and no request is made and
    the world is left as it is.  For the old set {"111", "222"} and the new
    set {"333"} the numbers to delete are {"111", "222"} and the number to
    create is "333". *)
Theorem update_set_difference {World : Type}
    (http_patch : HttpRequest → World → HttpOutcome * World) (self : ENUMClient)
    (old_msisdn old_msisdn_list new_msisdn new_msisdn_list : option string)
    (w : World) :
  let old_set := msisdn_set old_msisdn old_msisdn_list in
  let new_set := msisdn_set new_msisdn new_msisdn_list in
  let to_delete := old_set ∖ new_set in
  let to_create := new_set ∖ old_set in
  let run := update_enum_entries http_patch self old_msisdn old_msisdn_list
               new_msisdn new_msisdn_list w in
  (∀ m, m ∈ to_delete ↔ m ∈ _parse_msisdn_list old_msisdn old_msisdn_list
                         ∧ m ∉ _parse_msisdn_list new_msisdn new_msisdn_list)
  ∧ (∀ m, m ∈ to_create ↔ m ∈ _parse_msisdn_list new_msisdn new_msisdn_list
                           ∧ m ∉ _parse_msisdn_list old_msisdn old_msisdn_list)
  ∧ _parse_msisdn_list None (Some (PyStr.join "," (elements to_delete)))
    = elements to_delete
  ∧ _parse_msisdn_list None (Some (PyStr.join "," (elements to_create)))
    = elements to_create
  ∧ (∃ deletes creates,
       patches (events run) = deletes ++ creates
       ∧ Forall (delete_request_for self to_delete) deletes
       ∧ Forall (create_request_for self to_create) creates)
  ∧ (old_set = new_set → patches (events run) = [] ∧ world_after run = w)
  ∧ (old_set = new_set → enabled self = true →
     outcome run = Return (UpdateFull {| up_status := Ok; up_deleted := [];
                                         up_created := []; up_errors := [] |}))
  ∧ msisdn_set (Some "111") (Some "222") ∖ msisdn_set (Some "333") None
    = {["111"; "222"]}
  ∧ msisdn_set (Some "333") None ∖ msisdn_set (Some "111") (Some "222")
    = {["333"]}
  ∧ (enabled self = true →
     let line := update_line self to_delete to_create in
     let delete_call := delete_enum_entries http_patch self None
                          (Some (PyStr.join "," (elements to_delete))) w in
     let after_delete :=
       if set_truthy to_delete then world_after delete_call else w in
     let create_call := create_enum_entries http_patch self None
                          (Some (PyStr.join "," (elements to_create))) after_delete in
     let delete_events := if set_truthy to_delete then events delete_call else [] in
     let create_events := if set_truthy to_create then events create_call else [] in
     let delete_raised e :=
       set_truthy to_delete = true ∧ outcome delete_call = Raise e in
     let create_raised e :=
       set_truthy to_create = true ∧ outcome create_call = Raise e in
     (∀ e, delete_raised e →
           outcome run = Raise e
           ∧ world_after run = world_after delete_call
           ∧ events run = line ++ delete_events)
     ∧ ((∀ e, ¬ delete_raised e) →
        (∀ e, create_raised e →
              outcome run = Raise e
              ∧ world_after run = world_after create_call
              ∧ events run = line ++ delete_events ++ create_events)
        ∧ ((∀ e, ¬ create_raised e) →
           ∃ t, outcome run = Return (UpdateFull t)
                ∧ up_deleted t = elements to_delete
                ∧ up_created t = elements to_create
                ∧ world_after run
                  = (if set_truthy to_create then world_after create_call
                     else after_delete)
                ∧ events run = line ++ delete_events ++ create_events)))
  ∧ (set_truthy to_delete = false ↔ to_delete = ∅)
  ∧ (set_truthy to_create = false ↔ to_create = ∅).
Proof.
  intros old_set new_set to_delete to_create run.
  split_and!.
  - intros m. unfold to_delete, old_set, new_set, msisdn_set.
    by rewrite elem_of_difference, !elem_of_list_to_set.
  - intros m. unfold to_create, old_set, new_set, msisdn_set.
    by rewrite elem_of_difference, !elem_of_list_to_set.
  - apply parse_join_elements. intros m [Hm _]%elem_of_difference.
    by eapply msisdn_set_clean.
  - apply parse_join_elements. intros m [Hm _]%elem_of_difference.
    by eapply msisdn_set_clean.
  - apply update_patches.
  - intros Heq. unfold run, events, world_after.
    destruct (enabled self) eqn:Hen.
    + rewrite update_equal_sets by done. by destruct (log_tool self).
    + rewrite update_disabled by done. by destruct (log_tool self).
  - intros Heq Hen. unfold run, outcome. by rewrite update_equal_sets.
  - apply set_eq. intros m. rewrite elem_of_difference.
    unfold msisdn_set. rewrite !elem_of_list_to_set.
    change (_parse_msisdn_list (Some "111") (Some "222")) with ["111"; "222"].
    change (_parse_msisdn_list (Some "333") None) with ["333"].
    rewrite list_elem_of_singleton, !elem_of_cons, elem_of_nil.
    rewrite elem_of_union, !elem_of_singleton.
    split; [intros [[->| [->|[]]] _]; auto |].
    intros [->| ->]; (split; [auto | intros [=]]).
  - apply set_eq. intros m. rewrite elem_of_difference.
    unfold msisdn_set. rewrite !elem_of_list_to_set.
    change (_parse_msisdn_list (Some "111") (Some "222")) with ["111"; "222"].
    change (_parse_msisdn_list (Some "333") None) with ["333"].
    rewrite elem_of_singleton, list_elem_of_singleton, !elem_of_cons, elem_of_nil.
    split; [by intros [-> _] |].
    intros ->. split; [done |]. intros [[=]|[[=]|[]]].
  - intros Hen. by apply update_calls.
  - split; [apply set_truthy_false |]. intros ->. unfold set_truthy.
    by rewrite elements_empty.
  - split; [apply set_truthy_false |]. intros ->. unfold set_truthy.
    by rewrite elements_empty.
Qed.

(** The update from {"111", "222"} to {"333"} on a server that accepts:
    both calls are made and the result lists the two sets. *)
Lemma update_set_difference_witness :
  ∃ t,
    outcome (update_enum_entries Scenario.accept_all
               (Scenario.client false [Scenario.pdns1])
               (Some "111") (Some "222") (Some "333") None tt)
    = Return (UpdateFull t)
    ∧ up_deleted t
      = elements (msisdn_set (Some "111") (Some "222") ∖ msisdn_set (Some "333") None)
    ∧ up_created t
      = elements (msisdn_set (Some "333") None ∖ msisdn_set (Some "111") (Some "222")).
Proof.
  pose proof (update_set_difference Scenario.accept_all
                (Scenario.client false [Scenario.pdns1])
                (Some "111") (Some "222") (Some "333") None tt) as H.
  cbv zeta in H.
  destruct H as (_ & _ & _ & _ & _ & _ & _ & _ & _ & H & _).
  destruct (H eq_refl) as [_ Hnext]. clear H.
  destruct Hnext as [_ Hret].
  { intros e [_ He]. revert He. vm_compute. discriminate. }
  destruct Hret as (t & Ht & Hd & Hc & _).
  { intros e [_ He]. revert He. vm_compute. discriminate. }
  exists t. split; [exact Ht |]. split; [exact Hd | exact Hc].
Defined.

(** ** Digits *)













